(** * Login handshake of tesis-server: [static/public/login/script.js]

    A shallow embedding of the login script and the proofs of its
    specification.

    Modelling conventions.
    - JavaScript values are the inductive type [value]: what [JSON.parse]
      produces, together with [undefined] and with BigInt, the one kind of
      tree-shaped value that [JSON.stringify] refuses.
    - A JavaScript string is a Rocq [string], read as its UTF-8 bytes.  The
      strings of the model are thus the well-formed ones: a string with a
      lone surrogate, which [localStorage] keeps and which
      [URLSearchParams] rewrites with U+FFFD on its conversion to a
      USVString, is outside the model, and on every string of the model
      that conversion is the identity.
    - A number is kept as the decimal digits and exponent from which
      [Number::toString] prints it.
    - An object is the list of its own properties in the order in which
      JavaScript enumerates them: array indices ascending, then the other
      keys in creation order.
    - The functions of the platform that the script calls ([ToString],
      [JSON.stringify], [URLSearchParams]) are modelled after their
      standards, on the values above.
    - Effects (network, [localStorage], the error box, navigation, console)
      are threaded through a state-and-exception monad over [world]; every
      platform call also leaves an [event] in the trace.  The network and
      the storage quota are oracles of the environment [env]; a response is
      its status and the outcome of decoding its body.
    - An [await] is a sequence point: one listener runs from start to end. *)

From stdpp Require Import base strings list gmap.
From Stdlib Require Import ZArith Ascii DecimalString DecimalPos.

Local Open Scope Z_scope.
Set Warnings "-register-all".

(* ================================================================= *)
(** ** JavaScript values *)

Module JS.

(** The number [(-1)^neg * mant * 10^exp10]; [mant] is the shortest digit
    string that identifies the double. *)
Inductive number :=
| NaN
| Infinity (neg : bool)
| Zero (neg : bool)
| Finite (neg : bool) (mant : positive) (exp10 : Z).

Inductive value :=
| VUndefined
| VNull
| VBool (b : bool)
| VNum (n : number)
| VBigInt (z : Z)
| VStr (s : string)
| VArr (elems : list value)
| VObj (props : list (string * value)).

Abbreviation props := (list (string * value)).

Inductive exn :=
| TypeError
| SyntaxError
| NetworkError
| QuotaExceededError.

Inductive result (A : Type) :=
| Ok (a : A)
| Throw (e : exn).
Arguments Ok {A} a.
Arguments Throw {A} e.

Definition rbind {A B} (r : result A) (k : A → result B) : result B :=
  match r with
  | Ok a => k a
  | Throw e => Throw e
  end.

(** [a ?? b] on operands that may throw: [b] is evaluated only when [a] is
    [null] or [undefined]. *)
Definition rcoalesce (a b : result value) : result value :=
  rbind a (λ x, match x with VUndefined | VNull => b | _ => Ok x end).

(** *** Decimal text of integers *)

Definition N_to_string (n : N) : string :=
  NilEmpty.string_of_uint (N.to_uint n).

Definition Z_to_string (z : Z) : string :=
  match z with
  | Z0 => "0"
  | Zpos p => N_to_string (Npos p)
  | Zneg p => "-" +:+ N_to_string (Npos p)
  end.

(** *** ToBoolean *)

Definition truthy (v : value) : bool :=
  match v with
  | VUndefined | VNull => false
  | VBool b => b
  | VNum NaN | VNum (Zero _) => false
  | VNum _ => true
  | VBigInt z => negb (z =? 0)
  | VStr s => negb (String.eqb s "")
  | VArr _ | VObj _ => true
  end.

Definition nullish (v : value) : bool :=
  match v with
  | VUndefined | VNull => true
  | _ => false
  end.

(** [a || b] and [a ?? b] on operands that cannot throw. *)
Definition js_or (a b : value) : value := if truthy a then a else b.
Definition js_coalesce (a b : value) : value := if nullish a then b else a.

(** *** Number::toString, radix 10 *)

Fixpoint zeros (n : nat) : string :=
  match n with
  | O => ""
  | S n => String "0" (zeros n)
  end.

Fixpoint string_take (n : nat) (s : string) : string :=
  match n, s with
  | S n, String c s => String c (string_take n s)
  | _, _ => ""
  end.

Fixpoint string_drop (n : nat) (s : string) : string :=
  match n, s with
  | S n, String _ s => string_drop n s
  | _, _ => s
  end.

(** [s] is the digit string of the mantissa, [k] its length and [n] the
    position of the decimal point, as in the three numbers [n], [k], [s] of
    the language specification. *)
Definition finite_to_string (s : string) (n : Z) : string :=
  let k := Z.of_nat (String.length s) in
  if (-5 <=? n) && (n <=? 21) then
    if k <=? n then s +:+ zeros (Z.to_nat (n - k))
    else if 0 <? n then
      string_take (Z.to_nat n) s +:+ "." +:+ string_drop (Z.to_nat n) s
    else "0." +:+ zeros (Z.to_nat (- n)) +:+ s
  else
    let c := if 0 <=? n - 1 then "+" else "-" in
    let e := N_to_string (Z.abs_N (n - 1)) in
    if k =? 1 then s +:+ "e" +:+ c +:+ e
    else string_take 1 s +:+ "." +:+ string_drop 1 s +:+ "e" +:+ c +:+ e.

Definition number_to_string (x : number) : string :=
  match x with
  | NaN => "NaN"
  | Zero _ => "0"
  | Infinity neg => if neg then "-Infinity" else "Infinity"
  | Finite neg mant exp10 =>
      let s := N_to_string (Npos mant) in
      (if neg then "-" else "") +:+
      finite_to_string s (exp10 + Z.of_nat (String.length s))
  end.

(** *** Own properties *)

Fixpoint lookup_prop (k : string) (o : props) : option value :=
  match o with
  | [] => None
  | (k', v) :: o => if String.eqb k k' then Some v else lookup_prop k o
  end.

Definition has_prop (k : string) (o : props) : bool :=
  match lookup_prop k o with
  | Some _ => true
  | None => false
  end.

(** An array index is the canonical decimal text of an integer below
    [2^32 - 1]. *)
Definition array_index (k : string) : option N :=
  match NilEmpty.uint_of_string k with
  | Some d =>
      let n := N.of_uint d in
      if String.eqb (N_to_string n) k && (n <? 4294967295)%N
      then Some n else None
  | None => None
  end.

Definition index_key (i : nat) : string := N_to_string (N.of_nat i).

(** The own enumerable string-keyed properties, in enumeration order: what
    an object spread copies.  A string has one property for each of its
    bytes, which is exact for ASCII text; for a character outside ASCII
    JavaScript has one property for each UTF-16 code unit. *)
Definition own_props (v : value) : props :=
  match v with
  | VObj o => o
  | VArr l => imap (λ i e, (index_key i, e)) l
  | VStr s =>
      imap (λ i c, (index_key i, VStr (String c ""))) (String.list_ascii_of_string s)
  | _ => []
  end.

(** Property reads.  The script reads only keys that no built-in prototype
    defines, so a read is a lookup among the own properties. *)
Definition get (v : value) (k : string) : result value :=
  match v with
  | VUndefined | VNull => Throw TypeError
  | _ => Ok (default VUndefined (lookup_prop k (own_props v)))
  end.

(** [v?.k] *)
Definition get_opt (v : value) (k : string) : value :=
  match v with
  | VUndefined | VNull => VUndefined
  | _ => default VUndefined (lookup_prop k (own_props v))
  end.

(** CreateDataProperty on an ordinary object: an existing key keeps its
    place, a new array index goes among the indices, any other new key goes
    last. *)
Fixpoint replace_prop (k : string) (v : value) (o : props) : props :=
  match o with
  | [] => []
  | (k', v') :: o =>
      if String.eqb k k' then (k, v) :: o else (k', v') :: replace_prop k v o
  end.

Fixpoint insert_index (n : N) (k : string) (v : value) (o : props) : props :=
  match o with
  | [] => [(k, v)]
  | (k', v') :: o' =>
      match array_index k' with
      | Some m =>
          if (m <? n)%N then (k', v') :: insert_index n k v o'
          else (k, v) :: o
      | None => (k, v) :: o
      end
  end.

Definition set_prop (o : props) (k : string) (v : value) : props :=
  if has_prop k o then replace_prop k v o
  else match array_index k with
       | Some n => insert_index n k v o
       | None => o ++ [(k, v)]
       end.

(** [{ ...o, ...src }] *)
Definition spread (o : props) (src : value) : props :=
  fold_left (λ acc kv, set_prop acc kv.1 kv.2) (own_props src) o.

(** *** ToString *)

Definition bool_to_string (b : bool) : string := if b then "true" else "false".

(** ToString of the values of the model.  An array joins its elements with
    commas, [null] and [undefined] elements giving the empty text.  A plain
    object gives the text of [Object.prototype.toString], unless an own
    property named [toString] shadows that method with something that cannot
    be called: the conversion then throws. *)
Fixpoint to_string (v : value) : result string :=
  match v with
  | VUndefined => Ok "undefined"
  | VNull => Ok "null"
  | VBool b => Ok (bool_to_string b)
  | VNum n => Ok (number_to_string n)
  | VBigInt z => Ok (Z_to_string z)
  | VStr s => Ok s
  | VArr l =>
      (fix join (l : list value) : result string :=
         match l with
         | [] => Ok ""
         | e :: l' =>
             rbind (if nullish e then Ok "" else to_string e) (λ s,
               match l' with
               | [] => Ok s
               | _ => rbind (join l') (λ t, Ok (s +:+ "," +:+ t))
               end)
         end) l
  | VObj o => if has_prop "toString" o then Throw TypeError
              else Ok "[object Object]"
  end.

End JS.
Import JS.

(* ================================================================= *)
(** ** JSON text *)

Module JSON.

Definition dquote : ascii := "034"%char.
Definition backslash : ascii := "092"%char.

Definition hex_lower (n : N) : ascii :=
  ascii_of_N (if (n <? 10)%N then 48 + n else 87 + n)%N.

(** QuoteJSONString, one character at a time. *)
Definition escape_char (c : ascii) : string :=
  let n := N_of_ascii c in
  if (n =? 8)%N then "\b"
  else if (n =? 9)%N then "\t"
  else if (n =? 10)%N then "\n"
  else if (n =? 12)%N then "\f"
  else if (n =? 13)%N then "\r"
  else if (n =? 34)%N then String backslash (String dquote "")
  else if (n =? 92)%N then String backslash (String backslash "")
  else if (n <? 32)%N then
    "\u00" +:+ String (hex_lower (n / 16)) (String (hex_lower (n mod 16)) "")
  else String c "".

Fixpoint escape (s : string) : string :=
  match s with
  | "" => ""
  | String c s => escape_char c +:+ escape s
  end.

Definition quote (s : string) : string :=
  String dquote (escape s +:+ String dquote "").

Definition is_finite (x : number) : bool :=
  match x with
  | NaN | Infinity _ => false
  | Zero _ | Finite _ _ _ => true
  end.

(** SerializeJSONProperty without replacer or indentation; [None] is the
    result [undefined]. *)
Fixpoint serialize (v : value) : result (option string) :=
  match v with
  | VUndefined => Ok None
  | VNull => Ok (Some "null")
  | VBool b => Ok (Some (bool_to_string b))
  | VNum n => Ok (Some (if is_finite n then number_to_string n else "null"))
  | VBigInt _ => Throw TypeError
  | VStr s => Ok (Some (quote s))
  | VArr l =>
      rbind
        ((fix elements (l : list value) : result (list string) :=
            match l with
            | [] => Ok []
            | e :: l =>
                rbind (serialize e) (λ s,
                rbind (elements l) (λ ss, Ok (default "null" s :: ss)))
            end) l)
        (λ ss, Ok (Some ("[" +:+ String.concat "," ss +:+ "]")))
  | VObj o =>
      rbind
        ((fix members (o : props) : result (list string) :=
            match o with
            | [] => Ok []
            | (k, v) :: o =>
                rbind (serialize v) (λ s,
                rbind (members o) (λ ms,
                  Ok (match s with
                      | Some t => (quote k +:+ ":" +:+ t) :: ms
                      | None => ms
                      end)))
            end) o)
        (λ ms, Ok (Some ("{" +:+ String.concat "," ms +:+ "}")))
  end.

(** [JSON.stringify(v)] *)
Definition stringify (v : value) : result value :=
  rbind (serialize v) (λ r,
    Ok (match r with Some s => VStr s | None => VUndefined end)).

(** *** A recogniser of JSON texts (RFC 8259) *)

Definition is_ws (c : ascii) : bool :=
  let n := N_of_ascii c in
  (n =? 32)%N || (n =? 9)%N || (n =? 10)%N || (n =? 13)%N.

Definition is_digit (c : ascii) : bool :=
  let n := N_of_ascii c in (48 <=? n)%N && (n <=? 57)%N.

Definition is_hex (c : ascii) : bool :=
  let n := N_of_ascii c in
  is_digit c || ((97 <=? n)%N && (n <=? 102)%N)
             || ((65 <=? n)%N && (n <=? 70)%N).

Fixpoint skip_ws (s : string) : string :=
  match s with
  | String c r => if is_ws c then skip_ws r else s
  | "" => ""
  end.

Fixpoint strip_prefix (p s : string) : option string :=
  match p, s with
  | "", _ => Some s
  | String a p, String b s => if Ascii.eqb a b then strip_prefix p s else None
  | _, _ => None
  end.

(** The characters of a string after its opening quote, up to and including
    the closing quote. *)
Fixpoint scan_string (s : string) : option string :=
  match s with
  | "" => None
  | String c r =>
      if Ascii.eqb c dquote then Some r
      else if Ascii.eqb c backslash then
        match r with
        | String e r' =>
            if Ascii.eqb e dquote || Ascii.eqb e backslash || Ascii.eqb e "/"
               || Ascii.eqb e "b" || Ascii.eqb e "f" || Ascii.eqb e "n"
               || Ascii.eqb e "r" || Ascii.eqb e "t"
            then scan_string r'
            else if Ascii.eqb e "u" then
              match r' with
              | String h1 (String h2 (String h3 (String h4 r''))) =>
                  if is_hex h1 && is_hex h2 && is_hex h3 && is_hex h4
                  then scan_string r'' else None
              | _ => None
              end
            else None
        | "" => None
        end
      else if (N_of_ascii c <? 32)%N then None
      else scan_string r
  end.

Fixpoint skip_digits (s : string) : string :=
  match s with
  | String c r => if is_digit c then skip_digits r else s
  | "" => ""
  end.

Definition scan_digits1 (s : string) : option string :=
  match s with
  | String c r => if is_digit c then Some (skip_digits r) else None
  | "" => None
  end.

Definition scan_exp (s : string) : option string :=
  match s with
  | String c r =>
      if Ascii.eqb c "e" || Ascii.eqb c "E" then
        match r with
        | String g r' =>
            if Ascii.eqb g "+" || Ascii.eqb g "-" then scan_digits1 r'
            else scan_digits1 r
        | "" => None
        end
      else Some s
  | "" => Some s
  end.

Definition scan_frac (s : string) : option string :=
  match s with
  | String c r =>
      if Ascii.eqb c "." then
        match scan_digits1 r with
        | Some r' => scan_exp r'
        | None => None
        end
      else scan_exp s
  | "" => Some s
  end.

Definition scan_int (s : string) : option string :=
  match s with
  | String c r =>
      if Ascii.eqb c "0" then scan_frac r
      else if is_digit c then scan_frac (skip_digits r)
      else None
  | "" => None
  end.

Definition scan_number (s : string) : option string :=
  match s with
  | String c r => if Ascii.eqb c "-" then scan_int r else scan_int s
  | "" => None
  end.

(** [scan_value fuel s] reads one value at the head of [s], white space
    before it included, and returns what follows it. *)
Fixpoint scan_value (fuel : nat) (s : string) : option string :=
  match fuel with
  | O => None
  | S fuel =>
      match skip_ws s with
      | String c r =>
          if is_digit c || Ascii.eqb c "-" then scan_number (String c r)
          else if Ascii.eqb c dquote then scan_string r
          else if Ascii.eqb c "t" then strip_prefix "rue" r
          else if Ascii.eqb c "f" then strip_prefix "alse" r
          else if Ascii.eqb c "n" then strip_prefix "ull" r
          else if Ascii.eqb c "[" then
            match skip_ws r with
            | String c' r' =>
                if Ascii.eqb c' "]" then Some r' else scan_elements fuel r
            | "" => None
            end
          else if Ascii.eqb c "{" then
            match skip_ws r with
            | String c' r' =>
                if Ascii.eqb c' "}" then Some r' else scan_members fuel r
            | "" => None
            end
          else None
      | "" => None
      end
  end
with scan_elements (fuel : nat) (s : string) : option string :=
  match fuel with
  | O => None
  | S fuel =>
      match scan_value fuel s with
      | Some r =>
          match skip_ws r with
          | String c r' =>
              if Ascii.eqb c "," then scan_elements fuel r'
              else if Ascii.eqb c "]" then Some r'
              else None
          | "" => None
          end
      | None => None
      end
  end
with scan_members (fuel : nat) (s : string) : option string :=
  match fuel with
  | O => None
  | S fuel =>
      match skip_ws s with
      | String q r =>
          if Ascii.eqb q dquote then
            match scan_string r with
            | Some r1 =>
                match skip_ws r1 with
                | String c r2 =>
                    if Ascii.eqb c ":" then
                      match scan_value fuel r2 with
                      | Some r3 =>
                          match skip_ws r3 with
                          | String d r4 =>
                              if Ascii.eqb d "," then scan_members fuel r4
                              else if Ascii.eqb d "}" then Some r4
                              else None
                          | "" => None
                          end
                      | None => None
                      end
                    else None
                | "" => None
                end
            | None => None
            end
          else None
      | "" => None
      end
  end.

(** [s] is a JSON text: one value, white space around it allowed, and
    nothing else. *)
Definition is_json (s : string) : bool :=
  match scan_value (S (String.length s)) s with
  | Some r => String.eqb (skip_ws r) ""
  | None => false
  end.

End JSON.

(* ================================================================= *)
(** ** application/x-www-form-urlencoded *)

Module URL.

Definition hex_upper (n : N) : ascii :=
  ascii_of_N (if (n <? 10)%N then 48 + n else 55 + n)%N.

Definition hex_val (c : ascii) : option N :=
  let n := N_of_ascii c in
  if (48 <=? n)%N && (n <=? 57)%N then Some (n - 48)%N
  else if (65 <=? n)%N && (n <=? 70)%N then Some (n - 55)%N
  else if (97 <=? n)%N && (n <=? 102)%N then Some (n - 87)%N
  else None.

(** Bytes the serialiser leaves as they are: ASCII letters and digits and
    [*], [-], [.], [_]. *)
Definition unreserved (c : ascii) : bool :=
  let n := N_of_ascii c in
  ((48 <=? n)%N && (n <=? 57)%N) || ((65 <=? n)%N && (n <=? 90)%N)
  || ((97 <=? n)%N && (n <=? 122)%N)
  || (n =? 42)%N || (n =? 45)%N || (n =? 46)%N || (n =? 95)%N.

Definition encode_byte (c : ascii) : string :=
  let n := N_of_ascii c in
  if (n =? 32)%N then "+"
  else if unreserved c then String c ""
  else String "%" (String (hex_upper (n / 16))
                     (String (hex_upper (n mod 16)) "")).

Fixpoint encode (s : string) : string :=
  match s with
  | "" => ""
  | String c s => encode_byte c +:+ encode s
  end.

(** [new URLSearchParams(pairs).toString()] once the values are strings. *)
Definition serialize (l : list (string * string)) : string :=
  String.concat "&" (map (λ kv, encode kv.1 +:+ "=" +:+ encode kv.2) l).

(** The parser of the same format. *)
Fixpoint split_on (sep : ascii) (s : string) : list string :=
  match s with
  | "" => [""]
  | String c r =>
      if Ascii.eqb c sep then "" :: split_on sep r
      else match split_on sep r with
           | x :: xs => String c x :: xs
           | [] => [String c ""]
           end
  end.

Fixpoint split_first (sep : ascii) (s : string) : string * string :=
  match s with
  | "" => ("", "")
  | String c r =>
      if Ascii.eqb c sep then ("", r)
      else let '(a, b) := split_first sep r in (String c a, b)
  end.

Fixpoint plus_to_space (s : string) : string :=
  match s with
  | "" => ""
  | String c r =>
      String (if Ascii.eqb c "+" then " "%char else c) (plus_to_space r)
  end.

Fixpoint percent_decode (s : string) : string :=
  match s with
  | "" => ""
  | String c r =>
      if Ascii.eqb c "%" then
        match r with
        | String h1 (String h2 r') =>
            match hex_val h1, hex_val h2 with
            | Some a, Some b =>
                String (ascii_of_N (16 * a + b)) (percent_decode r')
            | _, _ => String c (percent_decode r)
            end
        | _ => String c (percent_decode r)
        end
      else String c (percent_decode r)
  end.

Definition decode (s : string) : string := percent_decode (plus_to_space s).

Definition parse (s : string) : list (string * string) :=
  map (λ seq, let '(k, v) := split_first "=" seq in (decode k, decode v))
      (filter (λ seq, seq ≠ "") (split_on "&" s)).

End URL.


(* ================================================================= *)
(** ** Pure helpers of the script *)

(** [pickToken] *)
Definition pickToken (data : value) : value :=
  js_or (js_or (js_or (get_opt data "access_token") (get_opt data "jwt"))
               (get_opt data "token"))
        VNull.

(** The object literal of [fetchUserProfile] that normalises the decoded
    body [data]. *)
Definition normalize (data : value) : result value :=
  rbind (rcoalesce (rcoalesce (rcoalesce (get data "user_id") (get data "id"))
                              (get data "userId"))
                   (Ok VNull)) (λ user_id,
  rbind (rcoalesce (rcoalesce (rcoalesce (get data "username") (get data "user"))
                              (get data "name"))
                   (Ok VNull)) (λ username,
  rbind (rcoalesce (get data "email") (Ok VNull)) (λ email,
    Ok (VObj (spread
                (set_prop (set_prop (set_prop [] "user_id" user_id)
                                    "username" username)
                          "email" email)
                data))))).

(* ================================================================= *)
(** ** The browser *)

Record request := {
  req_method : string;
  req_url : string;
  req_headers : list (string * string);
  req_body : option string
}.

(** What the script looks at in a response: the status, and the outcome of
    [res.json()], [None] when that promise rejects. *)
Record response := {
  status : N;
  json_body : option value
}.

Definition res_ok (r : response) : bool :=
  (200 <=? status r)%N && (status r <=? 299)%N.

(** What the script does to the browser, in order: calls of
    [preventDefault], [fetch], [localStorage.setItem] (accepted or not),
    writes of the text of the error box, alerts, navigations and console
    messages. *)
Inductive event :=
| EvPreventDefault
| EvFetch (r : request)
| EvSetItem (k v : string)
| EvSetText (msg : string)
| EvAlert (msg : string)
| EvNavigate (url : string)
| EvConsoleWarn (e : exn)
| EvConsoleError (e : exn).

(** [error_box] is the text of the element [#login-error], [None] when the
    page has no such element; [location] is the address of the last
    navigation, if any. *)
Record world := {
  storage : gmap string string;
  error_box : option string;
  location : option string;
  trace : list event
}.

(** The environment: the fields of the form, the answer of the network to
    a request given everything that happened before ([None]: the promise of
    [fetch] rejects), and whether [localStorage.setItem] refuses a write. *)
Record env := {
  form_data : list (string * string);
  network : list event → request → option response;
  quota_exceeded : gmap string string → string → string → bool
}.

Definition M (A : Type) : Type := world → result A * world.

Definition ret {A} (a : A) : M A := λ w, (Ok a, w).

Definition bind {A B} (m : M A) (k : A → M B) : M B :=
  λ w, match m w with
       | (Ok a, w') => k a w'
       | (Throw e, w') => (Throw e, w')
       end.

Definition lift {A} (r : result A) : M A := λ w, (r, w).

Definition try_catch {A} (m : M A) (h : exn → M A) : M A :=
  λ w, match m w with
       | (Ok a, w') => (Ok a, w')
       | (Throw e, w') => h e w'
       end.

#[global] Instance M_ret : MRet M := @ret.
#[global] Instance M_bind : MBind M := λ A B k m, bind m k.

(** World updates: more events in the trace, a stored item, a new text in
    the error box, a new address. *)
Definition extend (evs : list event) (w : world) : world :=
  {| storage := storage w; error_box := error_box w;
     location := location w; trace := trace w ++ evs |}.

Definition log (e : event) (w : world) : world := extend [e] w.

Definition put (k s : string) (w : world) : world :=
  {| storage := <[k := s]> (storage w); error_box := error_box w;
     location := location w; trace := trace w ++ [EvSetItem k s] |}.

Definition set_box (s : string) (w : world) : world :=
  {| storage := storage w; error_box := Some s;
     location := location w; trace := trace w ++ [EvSetText s] |}.

Definition go (url : string) (w : world) : world :=
  {| storage := storage w; error_box := error_box w;
     location := Some url; trace := trace w ++ [EvNavigate url] |}.

Definition emit (e : event) : M unit := λ w, (Ok tt, log e w).

Module Platform.

Definition preventDefault : M unit := emit EvPreventDefault.

Definition fetch (E : env) (r : request) : M response :=
  λ w, match network E (trace w) r with
       | Some res => (Ok res, log (EvFetch r) w)
       | None => (Throw NetworkError, log (EvFetch r) w)
       end.

Definition json (res : response) : M value :=
  match json_body res with
  | Some v => mret v
  | None => lift (Throw SyntaxError)
  end.

(** [localStorage.setItem(k, v)]: the value is converted to a string, then
    the write is tried. *)
Definition store (E : env) (k s : string) : M unit :=
  λ w, if quota_exceeded E (storage w) k s
       then (Throw QuotaExceededError, log (EvSetItem k s) w)
       else (Ok tt, put k s w).

Definition setItem (E : env) (k : string) (v : value) : M unit :=
  s ← lift (to_string v); store E k s.

Definition has_error_box : M bool :=
  λ w, (Ok (bool_decide (is_Some (error_box w))), w).

(** [errorBox.textContent = v] *)
Definition show_text (s : string) : M unit := λ w, (Ok tt, set_box s w).

Definition set_text (v : value) : M unit :=
  s ← lift (to_string v); show_text s.

Definition alert (v : value) : M unit :=
  s ← lift (to_string v); emit (EvAlert s).

(** [window.location.href = url] *)
Definition navigate (url : string) : M unit := λ w, (Ok tt, go url w).

Definition console_warn (e : exn) : M unit := emit (EvConsoleWarn e).
Definition console_error (e : exn) : M unit := emit (EvConsoleError e).

(** [new URLSearchParams(record).toString()]: each value is converted to a
    string, which on the well-formed strings of the model is already a
    USVString, and the pairs are serialised. *)
Definition url_search_params (record : list (string * value)) : M string :=
  (fix convert (l : list (string * value)) (acc : list (string * string))
     : M string :=
     match l with
     | [] => mret (URL.serialize (rev acc))
     | (k, v) :: l => s ← lift (to_string v); convert l ((k, s) :: acc)
     end) record [].

End Platform.
Import Platform.

(* ================================================================= *)
(** ** The script *)

Definition ENDPOINT_LOGIN : string := "/auth/login".
Definition PROFILE_CANDIDATES : list string :=
  ["/auth/me"; "/auth/user"; "/auth/profile"].
Definition FRONT_REDIRECT : string := "http://127.0.0.1:3000/".
Definition BROWSER_URL : string := "http://127.0.0.1:8000".

Definition showError (msg : value) : M unit :=
  box ← has_error_box;
  if (box : bool) then set_text (js_or msg (VStr "Error al iniciar sesión."))
  else alert (js_or msg (VStr "Error al iniciar sesión.")).

Definition clearError : M unit :=
  box ← has_error_box;
  if (box : bool) then set_text (VStr "") else mret tt.

(** [saveSession({ jwt, user })] *)
Definition saveSession (E : env) (jwt user : value) : M unit :=
  try_catch
    ((if truthy jwt then setItem E "jwt" jwt else mret tt);;
     (if truthy user then
        text ← lift (JSON.stringify user); setItem E "userdata" text
      else mret tt))
    (λ e, console_warn e).

Definition profile_request (path token : string) : request :=
  {| req_method := "GET";
     req_url := path;
     req_headers := [("Authorization", "Bearer " +:+ token);
                     ("Accept", "application/json")];
     req_body := None |}.

(** One turn of the loop of [fetchUserProfile]: [Some user] when the turn
    returns [user], [None] when the loop goes on to the next candidate. *)
Definition try_candidate (E : env) (jwt : value) (path : string)
  : M (option value) :=
  try_catch
    (token ← lift (to_string jwt);
     res ← fetch E (profile_request path token);
     if res_ok res then
       data ← json res;
       user ← lift (normalize data);
       mret (Some user)
     else mret None)
    (λ _, mret None).

Fixpoint fetch_first (E : env) (candidates : list string) (jwt : value)
  : M value :=
  match candidates with
  | [] => mret VNull
  | path :: rest =>
      r ← try_candidate E jwt path;
      match r with
      | Some user => mret user
      | None => fetch_first E rest jwt
      end
  end.

(** [fetchUserProfile(jwt)] *)
Definition fetchUserProfile (E : env) (jwt : value) : M value :=
  fetch_first E PROFILE_CANDIDATES jwt.

(** [redirectWithParams({ jwt, user })] *)
Definition redirectWithParams (jwt user : value) : M unit :=
  userString ← try_catch
                  (lift (JSON.stringify (js_coalesce user (VObj []))))
                  (λ _, mret (VStr "{}"));
  qs ← url_search_params [("jwt", jwt);
                          ("browser_url", VStr BROWSER_URL);
                          ("userdata", userString)];
  navigate (FRONT_REDIRECT +:+ "?" +:+ qs).

Definition login_request (E : env) : request :=
  {| req_method := "POST";
     req_url := ENDPOINT_LOGIN;
     req_headers := [("Content-Type", "application/x-www-form-urlencoded");
                     ("Accept", "application/json")];
     req_body := Some (URL.serialize (form_data E)) |}.

(** The [try] block of the listener of the form's [submit] event. *)
Definition attempt_login (E : env) : M unit :=
  res ← fetch E (login_request E);
  if negb (res_ok res) then
    message ← try_catch
                (err ← json res;
                 mret (js_or (get_opt err "detail")
                             (VStr "Credenciales inválidas.")))
                (λ _, mret (VStr "Credenciales inválidas."));
    showError message
  else
    data ← json res;
    let token := pickToken data in
    if negb (truthy token) then
      showError (VStr "No se recibió el token de acceso.")
    else
      saveSession E token VUndefined;;
      profile ← fetchUserProfile E token;
      (if truthy profile then saveSession E token profile else mret tt);;
      redirectWithParams token (js_or profile (VObj [])).

(** The listener: the [try] block and its [catch] clause. *)
Definition on_submit (E : env) : M unit :=
  preventDefault;;
  clearError;;
  try_catch
    (attempt_login E)
    (λ err,
       showError (VStr "No se pudo conectar con el servidor.");;
       console_error err).

Definition world0 : world :=
  {| storage := ∅; error_box := Some ""; location := None; trace := [] |}.

(* ================================================================= *)
(** ** Vocabulary of the specification *)

(** The value of the first alias that the raw object holds with a value
    other than [null] or [undefined]; [null] when there is none. *)
Fixpoint first_match (o : props) (aliases : list string) : value :=
  match aliases with
  | [] => VNull
  | a :: rest =>
      match lookup_prop a o with
      | Some v => if nullish v then first_match o rest else v
      | None => first_match o rest
      end
  end.

(** The canonical keys, each with its aliases in priority order. *)
Definition canonical_fields : list (string * list string) :=
  [("user_id", ["user_id"; "id"; "userId"]);
   ("username", ["username"; "user"; "name"]);
   ("email", ["email"])].

Definition canonical_keys : list string := canonical_fields.*1.

(** The keys of an object are pairwise distinct. *)
Definition distinct_keys (o : props) : Prop := NoDup o.*1.

(** The outcome of one candidate in the words of the specification: the
    call completes, the status is a success and the body is well formed,
    which for the script means that it decodes and is not [null]; the
    profile is then the normalised body. *)
Definition candidate_outcome (E : env) (token : string)
    (history : list event) (path : string) : option value :=
  match network E history (profile_request path token) with
  | None => None
  | Some res =>
      if res_ok res then
        match json_body res with
        | None => None
        | Some data =>
            match normalize data with
            | Ok user => Some user
            | Throw _ => None
            end
        end
      else None
  end.

(** The requests to the candidates [paths], in order. *)
Definition contacts (token : string) (paths : list string) : list event :=
  map (λ p, EvFetch (profile_request p token)) paths.

(** The outcome of the candidate at position [i], called after the
    candidates before it. *)
Definition outcome_at (E : env) (token : string) (w : world)
    (candidates : list string) (i : nat) (path : string) : option value :=
  candidate_outcome E token (trace w ++ contacts token (take i candidates)) path.

Definition all_fail (E : env) (token : string) (w : world)
    (candidates : list string) : Prop :=
  ∀ i p, candidates !! i = Some p → outcome_at E token w candidates i p = None.

(** The world once the listener has suppressed the default submission and
    cleared the error box. *)
Definition opened (w : world) : world :=
  match error_box w with
  | Some _ => set_box "" (log EvPreventDefault w)
  | None => log EvPreventDefault w
  end.

(** The event by which a message reaches the user: the text of the error
    box, or an alert on a page without that box. *)
Definition shown (w : world) (msg : string) : event :=
  match error_box w with
  | Some _ => EvSetText msg
  | None => EvAlert msg
  end.

Definition is_display (e : event) : Prop :=
  match e with
  | EvSetText _ | EvAlert _ | EvConsoleError _ => True
  | _ => False
  end.

Definition is_fetch (e : event) : Prop :=
  match e with EvFetch _ => True | _ => False end.

Definition is_storage_write (e : event) : Prop :=
  match e with EvSetItem _ _ => True | _ => False end.

Definition is_navigation (e : event) : Prop :=
  match e with EvNavigate _ => True | _ => False end.

(** The world once [msg] has been shown. *)
Definition display (msg : string) (w : world) : world :=
  match error_box w with
  | Some _ => set_box msg w
  | None => log (EvAlert msg) w
  end.

(** The message after a rejected login in the words of the specification:
    the [detail] string of the body when the body decodes to JSON that
    holds one, the generic fallback otherwise. *)
Definition claimed_rejection_message (res : response) : string :=
  match json_body res with
  | Some err =>
      match get_opt err "detail" with
      | VStr detail => detail
      | _ => "Credenciales inválidas."
      end
  | None => "Credenciales inválidas."
  end.

(** The text that [redirectWithParams] puts in the [userdata] parameter. *)
Definition userdata_text (user : value) : string :=
  match JSON.serialize (js_coalesce user (VObj [])) with
  | Ok (Some s) => s
  | _ => "{}"
  end.

(** The address to which [redirectWithParams] navigates for the token text
    [tok] and the profile [user]. *)
Definition redirect_url (tok : string) (user : value) : string :=
  FRONT_REDIRECT +:+ "?" +:+
  URL.serialize [("jwt", tok); ("browser_url", BROWSER_URL);
                 ("userdata", userdata_text user)].

(** The world once [saveSession] has been given the token alone. *)
Definition token_saved (E : env) (tok : string) (w : world) : world :=
  if quota_exceeded E (storage w) "jwt" tok
  then log (EvConsoleWarn QuotaExceededError) (log (EvSetItem "jwt" tok) w)
  else put "jwt" tok w.

(** [saveSession({ jwt, user })] may write [s] under the key [k]. *)
Definition written (jwt user : value) (k s : string) : Prop :=
  (k = "jwt" ∧ truthy jwt = true ∧ to_string jwt = Ok s)
  ∨ (k = "userdata" ∧ truthy user = true
     ∧ JSON.stringify user = Ok (VStr s)).

Definition is_warning (e : event) : Prop :=
  match e with EvConsoleWarn _ => True | _ => False end.

(** *** Predicates on texts *)

Definition head_is (P : ascii → bool) (s : string) : bool :=
  match s with
  | String c _ => P c
  | "" => false
  end.

Fixpoint all_chars (P : ascii → bool) (s : string) : bool :=
  match s with
  | String c s => P c && all_chars P s
  | "" => true
  end.

Definition digits_only (s : string) : bool := all_chars JSON.is_digit s.

(** A character that would prolong a number. *)
Definition number_char (c : ascii) : bool :=
  JSON.is_digit c || Ascii.eqb c "." || Ascii.eqb c "e" || Ascii.eqb c "E".

(** [rest] may follow a number: it does not prolong it. *)
Definition stops_number (rest : string) : bool :=
  negb (head_is number_char rest).

(** A character with which the text of a value may start. *)
Definition value_char (c : ascii) : bool :=
  JSON.is_digit c || Ascii.eqb c "-" || Ascii.eqb c JSON.dquote
  || Ascii.eqb c "t" || Ascii.eqb c "f" || Ascii.eqb c "n"
  || Ascii.eqb c "[" || Ascii.eqb c "{".

(** [t] is read as one value whatever follows it, given enough fuel. *)
Definition scannable (t : string) : Prop :=
  head_is value_char t = true
  ∧ ∀ fuel rest,
      (String.length t < fuel)%nat →
      stops_number rest = true →
      JSON.scan_value fuel (t +:+ rest) = Some rest.

(** The two loops of [JSON.serialize], named. *)
Fixpoint serialize_elements (l : list value) : result (list string) :=
  match l with
  | [] => Ok []
  | e :: l =>
      rbind (JSON.serialize e) (λ s,
      rbind (serialize_elements l) (λ ss, Ok (default "null" s :: ss)))
  end.

Fixpoint serialize_members (o : props) : result (list string) :=
  match o with
  | [] => Ok []
  | (k, v) :: o =>
      rbind (JSON.serialize v) (λ s,
      rbind (serialize_members o) (λ ms,
        Ok (match s with
            | Some t => (JSON.quote k +:+ ":" +:+ t) :: ms
            | None => ms
            end)))
  end.

(** The text of a member of an object: a quoted key, a colon and the text
    of a value. *)
Definition member_text (m : string) : Prop :=
  ∃ k t, m = JSON.quote k +:+ ":" +:+ t ∧ scannable t.

(** A character other than the two separators of a query string. *)
Definition not_separator (c : ascii) : bool :=
  negb (Ascii.eqb c "&" || Ascii.eqb c "=").

(** An environment for examples: the network answers by address, with a
    failure of the transport for an address that is not listed, and the
    storage refuses every write when [full]. *)
Definition scripted_env (form : list (string * string))
    (answers : list (string * response)) (full : bool) : env :=
  {| form_data := form;
     network := λ _ r,
       snd <$> find (λ a, String.eqb (fst a) (req_url r)) answers;
     quota_exceeded := λ _ _ _, full |}.

(** *** Scenarios *)

Definition answer (st : N) (body : value) : response :=
  {| status := st; json_body := Some body |}.

Definition answer_without_json (st : N) : response :=
  {| status := st; json_body := None |}.

Definition alice : list (string * string) :=
  [("username", "alice"); ("password", "x")].

Definition bob : value :=
  VObj [("id", VNum (Finite false 7 0)); ("name", VStr "Bob")].

(** The canonical profile of [bob]. *)
Definition bob_profile : value :=
  VObj [("user_id", VNum (Finite false 7 0)); ("username", VStr "Bob");
        ("email", VNull); ("id", VNum (Finite false 7 0));
        ("name", VStr "Bob")].

(** The token comes in [jwt] and the first candidate knows the profile. *)
Definition env_profile : env :=
  scripted_env alice
    [("/auth/login", answer 200 (VObj [("jwt", VStr "T2")]));
     ("/auth/me", answer 200 bob)]
    false.

(** The token comes in [access_token] and every candidate answers 404. *)
Definition env_no_profile : env :=
  scripted_env alice
    [("/auth/login", answer 200 (VObj [("access_token", VStr "T1")]));
     ("/auth/me", answer_without_json 404);
     ("/auth/user", answer_without_json 404);
     ("/auth/profile", answer_without_json 404)]
    false.

(** The credentials are rejected with a [detail]. *)
Definition env_rejected : env :=
  scripted_env alice
    [("/auth/login",
      answer 401 (VObj [("detail", VStr "Bad credentials")]))]
    false.

(** The authentication endpoint answers 200 with a body that is not JSON. *)
Definition env_not_json : env :=
  scripted_env alice [("/auth/login", answer_without_json 200)] false.

(** Three candidates: the transport fails for [A], [B] and [C] answer. *)
Definition env_abc : env :=
  scripted_env [] [("B", answer 200 bob); ("C", answer 200 bob)] false.

(** A browser in which an earlier login left a profile. *)
Definition world_returning : world :=
  {| storage := {["userdata" := "old"]}; error_box := Some "";
     location := None; trace := [] |}.

(** [ks] are array indices in ascending order, none below [lo]. *)
Fixpoint ascending_indices (lo : N) (ks : list string) : Prop :=
  match ks with
  | [] => True
  | k :: ks =>
      ∃ n, array_index k = Some n ∧ (lo ≤ n)%N ∧ ascending_indices (n + 1) ks
  end.

(** The key order of an object that the normaliser built: array indices,
    the three canonical keys, then pairwise distinct other keys. *)
Definition normal_layout (ks : list string) : Prop :=
  ∃ idx rest,
    ks = idx ++ canonical_keys ++ rest
    ∧ ascending_indices 0 idx
    ∧ NoDup rest
    ∧ Forall (λ k, array_index k = None ∧ k ∉ canonical_keys) rest.

(** *** Further vocabulary *)

(** The fields in which [pickToken] looks for a token, in priority
    order. *)
Definition token_fields : list string := ["access_token"; "jwt"; "token"].

(** The three entries that the normaliser computes from the own properties
    [o] of the body, in the order of the object literal; the body is spread
    over them. *)
Definition canonical_entries (o : props) : props :=
  (λ field, (field.1, first_match o field.2)) <$> canonical_fields.

(** The world once the listener has sent the authentication request. *)
Definition requested (E : env) (w : world) : world :=
  log (EvFetch (login_request E)) (opened w).

(** The message that the listener builds for a rejected login,
    [err?.detail || "Credenciales inválidas."], the fallback standing in
    also for a body that does not decode. *)
Definition rejection_message (res : response) : value :=
  match json_body res with
  | Some err => js_or (get_opt err "detail") (VStr "Credenciales inválidas.")
  | None => VStr "Credenciales inválidas."
  end.

Definition is_console_error (e : event) : Prop :=
  match e with EvConsoleError _ => True | _ => False end.

(** The world once the listener has reported [msg] to the user after the
    authentication request: [pre] are the events between the request and
    the message, [post] the events after the message. *)
Definition reported (E : env) (w : world) (pre : list event) (msg : string)
    (post : list event) : world :=
  extend post (display msg (extend pre (requested E w))).

(** A character of a serialised query string: a byte that the serialiser
    leaves as it is, the [+] of a space, the [%] of an escape, or one of the
    two separators. *)
Definition query_char (c : ascii) : bool :=
  URL.unreserved c || Ascii.eqb c "+" || Ascii.eqb c "%"
  || Ascii.eqb c "&" || Ascii.eqb c "=".

(** A value without [undefined] and without BigInt at any depth; every
    value that [JSON.parse] produces is one. *)
Fixpoint json_value (v : value) : bool :=
  match v with
  | VUndefined | VBigInt _ => false
  | VNull | VBool _ | VNum _ | VStr _ => true
  | VArr l => forallb json_value l
  | VObj o => forallb (λ kv, json_value kv.2) o
  end.

(* ================================================================= *)
(** * Proofs *)

(* ----------------------------------------------------------------- *)
(** ** The model at work *)

Example normalize_bob : normalize bob = Ok bob_profile.
Proof. reflexivity. Qed.

(** Array indices are enumerated first, whenever they were created. *)
Example normalize_index_keys :
  normalize (VObj [("b", VNull); ("10", VNull); ("9", VNull); ("01", VNull)])
  = Ok (VObj [("9", VNull); ("10", VNull); ("user_id", VNull);
              ("username", VNull); ("email", VNull); ("b", VNull);
              ("01", VNull)]).
Proof. reflexivity. Qed.

Example normalize_not_an_object :
  normalize VNull = Throw TypeError
  ∧ normalize (VNum (Finite false 5 0))
    = Ok (VObj [("user_id", VNull); ("username", VNull); ("email", VNull)])
  ∧ normalize (VStr "ab")
    = Ok (VObj [("0", VStr "a"); ("1", VStr "b"); ("user_id", VNull);
                ("username", VNull); ("email", VNull)]).
Proof. split_and!; reflexivity. Qed.

Example pickToken_examples :
  map pickToken
    [VObj [("access_token", VStr "A"); ("jwt", VStr "J")];
     VObj [("token", VStr "K"); ("jwt", VStr "J")];
     VObj [("token", VStr "K")];
     VObj [("access_token", VStr ""); ("token", VStr "K")];
     VObj [("other", VStr "x")];
     VNull]
  = [VStr "A"; VStr "J"; VStr "K"; VStr "K"; VNull; VNull].
Proof. reflexivity. Qed.

Example number_to_string_examples :
  map number_to_string
    [Finite false 7 0; Finite true 15 (-1); Finite false 1 21;
     Finite false 1 20; Finite false 123 (-9); Finite false 1 (-7);
     Finite false 12345 (-2); Finite false 5 (-6); Zero true; NaN]
  = ["7"; "-1.5"; "1e+21"; "100000000000000000000"; "1.23e-7"; "1e-7";
     "123.45"; "0.000005"; "0"; "NaN"].
Proof. reflexivity. Qed.

Example to_string_examples :
  map to_string
    [VStr "T"; VNum (Finite false 42 0); VBool true;
     VArr [VStr "a"; VNull; VNum (Finite false 1 0)];
     VObj [("a", VNull)]; VObj [("toString", VNull)]]
  = [Ok "T"; Ok "42"; Ok "true"; Ok "a,,1"; Ok "[object Object]";
     Throw TypeError].
Proof. reflexivity. Qed.

(** Serialised texts, shown percent-encoded. *)
Example serialize_examples :
  map (λ v, rbind (JSON.serialize v) (λ t, Ok (URL.encode <$> t)))
    [VObj []; VArr [VUndefined; VNum (Finite false 15 (-1))];
     VObj [("a", VStr "x\y"); ("u", VUndefined); ("b", VNum (Infinity true))];
     VUndefined; VBigInt 3; VObj [("n", VArr [VBigInt 1])]]
  = [Ok (Some "%7B%7D"); Ok (Some "%5Bnull%2C1.5%5D");
     Ok (Some "%7B%22a%22%3A%22x%5C%5Cy%22%2C%22b%22%3Anull%7D");
     Ok None; Throw TypeError; Throw TypeError].
Proof. reflexivity. Qed.

Example is_json_examples :
  map JSON.is_json
    ["{}"; " [1, 2.5e-3 ,null] "; "true"; "1.5"; "1e+21"; "[[[]]]";
     "{"; "[1,]"; "01"; "-"; "tru"; ""; "{} {}"]
  = [true; true; true; true; true; true;
     false; false; false; false; false; false; false].
Proof. reflexivity. Qed.

Example query_string_examples :
  URL.serialize [("jwt", "a b+c"); ("userdata", "{}")]
  = "jwt=a+b%2Bc&userdata=%7B%7D"
  ∧ URL.parse "jwt=a+b%2Bc&userdata=%7B%7D"
    = [("jwt", "a b+c"); ("userdata", "{}")].
Proof. split; reflexivity. Qed.

(** The token is stored and no profile is: the address carries the empty
    object. *)
Example login_without_profile :
  ∃ w, on_submit env_no_profile world0 = (Ok tt, w)
       ∧ storage w = {["jwt" := "T1"]}
       ∧ location w
         = Some ("http://127.0.0.1:3000/?jwt=T1"
                 +:+ "&browser_url=http%3A%2F%2F127.0.0.1%3A8000"
                 +:+ "&userdata=%7B%7D")
       ∧ error_box w = Some "".
Proof. eexists. split; [reflexivity|]. split_and!; reflexivity. Qed.

(** The first candidate answers: storage and address carry the canonical
    profile. *)
Example login_with_profile :
  ∃ w text,
    on_submit env_profile world0 = (Ok tt, w)
    ∧ JSON.serialize bob_profile = Ok (Some text)
    ∧ storage w = {["jwt" := "T2"; "userdata" := text]}
    ∧ location w = Some (redirect_url "T2" bob_profile)
    ∧ trace w
      = [EvPreventDefault; EvSetText "";
         EvFetch (login_request env_profile);
         EvSetItem "jwt" "T2";
         EvFetch (profile_request "/auth/me" "T2");
         EvSetItem "jwt" "T2"; EvSetItem "userdata" text;
         EvNavigate (redirect_url "T2" bob_profile)].
Proof.
  eexists _, _. split; [reflexivity|]. split; [reflexivity|].
  split_and!; [by apply map_eq; intros k; vm_compute|reflexivity..].
Qed.

(** Candidates [A], [B], [C]: the transport fails for [A] and [B] answers,
    so [C] is never called. *)
Example resolver_stops_at_B :
  fetch_first env_abc ["A"; "B"; "C"] (VStr "T") world0
  = (Ok bob_profile, extend (contacts "T" ["A"; "B"]) world0).
Proof. reflexivity. Qed.

(** Rejected credentials: the detail is shown and nothing else happens. *)
Example login_rejected :
  ∃ w, on_submit env_rejected world0 = (Ok tt, w)
       ∧ storage w = ∅ ∧ location w = None
       ∧ error_box w = Some "Bad credentials".
Proof. eexists. split; [reflexivity|]. split_and!; reflexivity. Qed.

(** The transport fails: the connectivity message is shown. *)
Example login_unreachable :
  ∃ w, on_submit (scripted_env alice [] false) world0 = (Ok tt, w)
       ∧ storage w = ∅ ∧ location w = None
       ∧ error_box w = Some "No se pudo conectar con el servidor.".
Proof. eexists. split; [reflexivity|]. split_and!; reflexivity. Qed.

(** No known token field in a successful answer. *)
Example login_without_token :
  ∃ w, on_submit
         (scripted_env alice
            [("/auth/login", answer 200 (VObj [("ok", VBool true)]))] false)
         world0 = (Ok tt, w)
       ∧ storage w = ∅ ∧ location w = None
       ∧ error_box w = Some "No se recibió el token de acceso.".
Proof. eexists. split; [reflexivity|]. split_and!; reflexivity. Qed.

(** A token that cannot be converted to a string: nothing is stored, no
    candidate is called and the [catch] clause reports a failure. *)
Example login_odd_token :
  ∃ w, on_submit
         (scripted_env alice
            [("/auth/login",
              answer 200 (VObj [("jwt", VObj [("toString", VNull)])]))]
            false)
         world0 = (Ok tt, w)
       ∧ storage w = ∅ ∧ location w = None
       ∧ trace w
         = [EvPreventDefault; EvSetText "";
            EvFetch (login_request (scripted_env alice [] false));
            EvConsoleWarn TypeError;
            EvSetText "No se pudo conectar con el servidor.";
            EvConsoleError TypeError].
Proof. eexists. split; [reflexivity|]. split_and!; reflexivity. Qed.

(* ----------------------------------------------------------------- *)
(** ** Own properties *)

Section props_facts.
Implicit Types (o l : props) (k : string) (v : value).

Lemma lookup_prop_app k o1 o2 :
  lookup_prop k (o1 ++ o2)
  = match lookup_prop k o1 with Some v => Some v | None => lookup_prop k o2 end.
Proof.
  induction o1 as [|[k' v'] o1 IH]; simpl; [done|].
  by destruct (String.eqb k k').
Qed.

Lemma lookup_prop_None k o : lookup_prop k o = None ↔ k ∉ o.*1.
Proof.
  induction o as [|[k' v'] o IH]; simpl.
  - split; [intros _; apply not_elem_of_nil | done].
  - destruct (String.eqb_spec k k') as [->|Hne].
    + split; [done|]. intros []. left.
    + rewrite IH, not_elem_of_cons. tauto.
Qed.

Lemma lookup_replace_prop_eq k v o :
  has_prop k o = true → lookup_prop k (replace_prop k v o) = Some v.
Proof.
  unfold has_prop. induction o as [|[k' v'] o IH]; simpl; [done|].
  destruct (String.eqb_spec k k') as [->|Hne]; simpl.
  - by rewrite String.eqb_refl.
  - destruct (String.eqb_spec k k'); [done|]. apply IH.
Qed.

Lemma lookup_replace_prop_ne k k' v o :
  k' ≠ k → lookup_prop k' (replace_prop k v o) = lookup_prop k' o.
Proof.
  intros Hne. induction o as [|[k1 v1] o IH]; simpl; [done|].
  destruct (String.eqb_spec k k1) as [->|Hne1]; simpl.
  - by destruct (String.eqb_spec k' k1).
  - by rewrite IH.
Qed.

Lemma lookup_insert_index_eq n k v o :
  lookup_prop k o = None → lookup_prop k (insert_index n k v o) = Some v.
Proof.
  induction o as [|[k1 v1] o IH]; simpl.
  - by rewrite String.eqb_refl.
  - destruct (String.eqb_spec k k1) as [->|Hne]; [done|]. intros Hk.
    destruct (array_index k1) as [m|]; [destruct (m <? n)%N|]; simpl;
      rewrite ?String.eqb_refl; try done.
    destruct (String.eqb_spec k k1); [done|]. by apply IH.
Qed.

Lemma lookup_insert_index_ne n k k' v o :
  k' ≠ k → lookup_prop k' (insert_index n k v o) = lookup_prop k' o.
Proof.
  intros Hne. induction o as [|[k1 v1] o IH]; simpl.
  - by destruct (String.eqb_spec k' k).
  - destruct (array_index k1) as [m|]; [destruct (m <? n)%N|]; simpl;
      try (by destruct (String.eqb_spec k' k)).
    by rewrite IH.
Qed.

Lemma lookup_set_prop_eq k v o : lookup_prop k (set_prop o k v) = Some v.
Proof.
  unfold set_prop. destruct (has_prop k o) eqn:Hk.
  - by apply lookup_replace_prop_eq.
  - unfold has_prop in Hk. destruct (lookup_prop k o) eqn:Hl; [done|].
    destruct (array_index k).
    + by apply lookup_insert_index_eq.
    + rewrite lookup_prop_app, Hl. simpl. by rewrite String.eqb_refl.
Qed.

Lemma lookup_set_prop_ne k k' v o :
  k' ≠ k → lookup_prop k' (set_prop o k v) = lookup_prop k' o.
Proof.
  intros Hne. unfold set_prop. destruct (has_prop k o).
  - by apply lookup_replace_prop_ne.
  - destruct (array_index k).
    + by apply lookup_insert_index_ne.
    + rewrite lookup_prop_app. destruct (lookup_prop k' o); [done|].
      simpl. by destruct (String.eqb_spec k' k).
Qed.

(** Copying the properties of an object with distinct keys: the copied
    value wins, the other keys stay. *)
Lemma lookup_fold_set_prop k l o :
  distinct_keys l →
  lookup_prop k (fold_left (λ acc kv, set_prop acc kv.1 kv.2) l o)
  = match lookup_prop k l with Some v => Some v | None => lookup_prop k o end.
Proof.
  unfold distinct_keys. revert o.
  induction l as [|[k1 v1] l IH]; intros o Hl; simpl in *; [done|].
  apply NoDup_cons in Hl as [Hk1 Hl]. rewrite IH by done.
  destruct (String.eqb_spec k k1) as [->|Hne].
  - apply lookup_prop_None in Hk1. by rewrite Hk1, lookup_set_prop_eq.
  - by rewrite lookup_set_prop_ne.
Qed.

End props_facts.

(* ----------------------------------------------------------------- *)
(** ** The token extractor *)

(** C2, as stated, fails: an [access_token] that is present but falsy (here
    the empty string) is passed over and the [jwt] field is returned. *)
Lemma pickToken_primary_any_value_fails :
  ¬ (∀ (o : props) (v : value),
       lookup_prop "access_token" o = Some v → pickToken (VObj o) = v).
Proof.
  intros H.
  specialize (H [("access_token", VStr ""); ("jwt", VStr "J")] (VStr "")).
  by specialize (H eq_refl).
Qed.

(** C2, amended: when the response object holds a truthy [access_token]
    (for a string: a non-empty one), [pickToken] returns exactly that value,
    whatever the other fields are. *)
Theorem pickToken_primary (o : props) (v : value) :
  lookup_prop "access_token" o = Some v →
  truthy v = true →
  pickToken (VObj o) = v.
Proof.
  intros Hv Ht. unfold pickToken, get_opt, own_props. rewrite Hv. simpl.
  unfold js_or. by rewrite Ht, Ht, Ht.
Qed.

Lemma pickToken_primary_witness :
  lookup_prop "access_token"
    [("token", VStr "K"); ("access_token", VStr "T1"); ("jwt", VStr "J")]
  = Some (VStr "T1")
  ∧ truthy (VStr "T1") = true
  ∧ pickToken (VObj [("token", VStr "K"); ("access_token", VStr "T1");
                     ("jwt", VStr "J")]) = VStr "T1".
Proof.
  split; [reflexivity|]. split; [reflexivity|].
  apply pickToken_primary; reflexivity.
Defined.

(* ----------------------------------------------------------------- *)
(** ** The profile normaliser *)

Ltac solve_distinct :=
  unfold distinct_keys; apply (bool_decide_unpack _); vm_compute; exact I.

Lemma coalesce_first_match (o : props) (a b c : string) :
  rcoalesce
    (rcoalesce
       (rcoalesce (Ok (default VUndefined (lookup_prop a o)))
                  (Ok (default VUndefined (lookup_prop b o))))
       (Ok (default VUndefined (lookup_prop c o))))
    (Ok VNull)
  = Ok (first_match o [a; b; c]).
Proof.
  simpl.
  destruct (lookup_prop a o) as [[]|], (lookup_prop b o) as [[]|],
    (lookup_prop c o) as [[]|]; reflexivity.
Qed.

Lemma coalesce_first_match1 (o : props) (a : string) :
  rcoalesce (Ok (default VUndefined (lookup_prop a o))) (Ok VNull)
  = Ok (first_match o [a]).
Proof. simpl. by destruct (lookup_prop a o) as [[]|]. Qed.

Lemma normalize_object (o : props) :
  normalize (VObj o)
  = Ok (VObj (fold_left (λ acc kv, set_prop acc kv.1 kv.2) o
                [("user_id", first_match o ["user_id"; "id"; "userId"]);
                 ("username", first_match o ["username"; "user"; "name"]);
                 ("email", first_match o ["email"])])).
Proof.
  unfold normalize, get, own_props.
  rewrite !coalesce_first_match, coalesce_first_match1. reflexivity.
Qed.

Lemma first_match_null (o : props) (aliases : list string) :
  (∀ a, a ∈ aliases → lookup_prop a o = None ∨ lookup_prop a o = Some VNull) →
  first_match o aliases = VNull.
Proof.
  induction aliases as [|a aliases IH]; intros H; simpl; [done|].
  destruct (H a) as [-> | ->]; [left| |]; apply IH; intros; apply H; by right.
Qed.

(** The claim C1 does not hold of the code: with [user_id] null and [id] 7
    in the raw object, first-match priority computes 7 for [user_id], and
    the output holds the raw null. *)
Lemma normalize_computed_override_fails :
  ¬ (∀ (o : props) (K : string) (aliases : list string) (raw : value),
       (K, aliases) ∈ canonical_fields →
       distinct_keys o →
       lookup_prop K o = Some raw →
       raw ≠ first_match o aliases →
       ∃ o', normalize (VObj o) = Ok (VObj o')
             ∧ lookup_prop K o' = Some (first_match o aliases)).
Proof.
  intros H.
  destruct (H [("user_id", VNull); ("id", VNum (Finite false 7 0))]
              "user_id" ["user_id"; "id"; "userId"] VNull)
    as (o' & Ho' & HK).
  - left.
  - solve_distinct.
  - reflexivity.
  - discriminate.
  - vm_compute in Ho'. injection Ho' as <-. discriminate HK.
Qed.

(** C1: the code sets out to do what the claim says and misses it.  At the
    body [{user_id: null, id: 7}] the chain
    [data.user_id ?? data.id ?? data.userId ?? null] of the object literal
    computes 7 for [user_id]; the spread [...data], which the source
    comments as keeping the rest, comes after the computed fields and
    writes the raw [null] over that 7, so the object that the code returns
    holds [null] at [user_id]. *)
Theorem normalize_collision_loses_computed_value :
  rcoalesce
    (rcoalesce
       (rcoalesce
          (get (VObj [("user_id", VNull); ("id", VNum (Finite false 7 0))])
             "user_id")
          (get (VObj [("user_id", VNull); ("id", VNum (Finite false 7 0))])
             "id"))
       (get (VObj [("user_id", VNull); ("id", VNum (Finite false 7 0))])
          "userId"))
    (Ok VNull)
  = Ok (VNum (Finite false 7 0))
  ∧ normalize (VObj [("user_id", VNull); ("id", VNum (Finite false 7 0))])
    = Ok (VObj [("user_id", VNull); ("username", VNull); ("email", VNull);
                ("id", VNum (Finite false 7 0))]).
Proof. split; reflexivity. Qed.

(** The extent of that loss: whenever the raw object itself holds a
    canonical key, the value of the output at that key is the raw one,
    whatever the chain of aliases computed; the computed value survives
    only for a canonical key that the raw object lacks. *)
Lemma normalize_raw_field_wins (o : props) (K : string) (aliases : list string) :
  (K, aliases) ∈ canonical_fields →
  distinct_keys o →
  ∃ o', normalize (VObj o) = Ok (VObj o')
        ∧ lookup_prop K o'
          = Some (match lookup_prop K o with
                  | Some raw => raw
                  | None => first_match o aliases
                  end).
Proof.
  intros HK Ho. eexists. split; [apply normalize_object|].
  rewrite lookup_fold_set_prop by done.
  destruct (lookup_prop K o); [done|].
  unfold canonical_fields in HK.
  rewrite !elem_of_cons, elem_of_nil in HK.
  destruct HK as [HK|[HK|[HK|[]]]]; injection HK as -> ->; reflexivity.
Qed.

(** C8: the output of the normaliser always holds the three canonical keys,
    with [null] where no alias matched; every key of the raw object is a key
    of the output, and the keys other than the three canonical names keep
    their raw values. *)
Theorem normalize_keeps_fields (o : props) :
  distinct_keys o →
  ∃ o', normalize (VObj o) = Ok (VObj o')
        ∧ (∀ K, K ∈ canonical_keys → is_Some (lookup_prop K o'))
        ∧ (∀ K aliases,
             (K, aliases) ∈ canonical_fields →
             (∀ a, a ∈ aliases →
                   lookup_prop a o = None ∨ lookup_prop a o = Some VNull) →
             lookup_prop K o' = Some VNull)
        ∧ (∀ k, is_Some (lookup_prop k o) → is_Some (lookup_prop k o'))
        ∧ (∀ k v, k ∉ canonical_keys →
                  lookup_prop k o = Some v → lookup_prop k o' = Some v).
Proof.
  intros Ho. eexists. split; [apply normalize_object|].
  repeat split.
  - intros K HK. rewrite lookup_fold_set_prop by done.
    destruct (lookup_prop K o); [by eexists|].
    unfold canonical_keys, canonical_fields in HK. simpl in HK.
    rewrite !elem_of_cons, elem_of_nil in HK.
    destruct HK as [->|[->|[->|[]]]]; by eexists.
  - intros K aliases HK Hnone. rewrite lookup_fold_set_prop by done.
    unfold canonical_fields in HK.
    rewrite !elem_of_cons, elem_of_nil in HK.
    assert (K ∈ aliases) as HKa
      by (destruct HK as [HK|[HK|[HK|[]]]]; injection HK as -> ->; left).
    destruct (Hnone K HKa) as [-> | ->]; [|done].
    rewrite <- (first_match_null o aliases Hnone).
    destruct HK as [HK|[HK|[HK|[]]]]; injection HK as -> ->; reflexivity.
  - intros k [v Hk]. rewrite lookup_fold_set_prop, Hk by done. by eexists.
  - intros k v _ Hk. by rewrite lookup_fold_set_prop, Hk.
Qed.

Lemma normalize_keeps_fields_witness :
  distinct_keys [("id", VNum (Finite false 7 0)); ("name", VStr "Bob");
                 ("role", VStr "admin")]
  ∧ ∃ o', normalize (VObj [("id", VNum (Finite false 7 0));
                           ("name", VStr "Bob"); ("role", VStr "admin")])
          = Ok (VObj o')
          ∧ lookup_prop "email" o' = Some VNull
          ∧ lookup_prop "role" o' = Some (VStr "admin").
Proof.
  split; [solve_distinct|].
  destruct (normalize_keeps_fields
              [("id", VNum (Finite false 7 0)); ("name", VStr "Bob");
               ("role", VStr "admin")])
    as (o' & Ho' & _ & Hnull & _ & Hraw); [solve_distinct|].
  exists o'. split; [exact Ho'|]. split.
  - apply (Hnull "email" ["email"]).
    + right; right; left.
    + intros a Ha. apply list_elem_of_singleton in Ha as ->. by left.
  - apply Hraw; [|reflexivity].
    unfold canonical_keys. simpl. rewrite !elem_of_cons, elem_of_nil.
    intros [?|[?|[?|[]]]]; discriminate.
Defined.

(** *** Idempotence *)

Section layout.
Implicit Types (o : props) (k : string) (v : value).

Local Abbreviation set_entry := (λ acc kv, set_prop acc kv.1 kv.2).

Lemma array_index_text k n : array_index k = Some n → k = N_to_string n.
Proof.
  unfold array_index. destruct (NilEmpty.uint_of_string k); [|done].
  destruct (String.eqb_spec (N_to_string (N.of_uint u)) k) as [<-|]; [|done].
  csimpl. destruct (_ <? _)%N; [|done]. by intros [= <-].
Qed.

Lemma array_index_inj k1 k2 n :
  array_index k1 = Some n → array_index k2 = Some n → k1 = k2.
Proof. intros ->%array_index_text ->%array_index_text. done. Qed.

Lemma ascending_indices_weaken lo lo' ks :
  (lo' ≤ lo)%N → ascending_indices lo ks → ascending_indices lo' ks.
Proof.
  destruct ks; csimpl; [done|]. intros ? (n & ? & ? & ?).
  exists n. split_and!; [done|lia|done].
Qed.

Lemma keys_replace_prop k v o : (replace_prop k v o).*1 = o.*1.
Proof.
  induction o as [|[k' v'] o IH]; csimpl; [done|].
  destruct (String.eqb_spec k k') as [->|]; csimpl; [done|]. by rewrite IH.
Qed.

Lemma has_prop_false k o : has_prop k o = false ↔ k ∉ o.*1.
Proof.
  unfold has_prop. rewrite <- lookup_prop_None.
  destruct (lookup_prop k o); naive_solver.
Qed.

Lemma has_prop_true k o : has_prop k o = true ↔ k ∈ o.*1.
Proof.
  destruct (has_prop k o) eqn:H.
  - split; [intros _|done]. destruct (decide (k ∈ o.*1)) as [|Hn]; [done|].
    apply has_prop_false in Hn. congruence.
  - apply has_prop_false in H. split; [done|]. intros; contradiction.
Qed.

(** A new index goes to its place among the indices. *)
Lemma keys_insert_index n k v o idx tail lo :
  o.*1 = idx ++ tail →
  ascending_indices lo idx →
  match tail with [] => True | t :: _ => array_index t = None end →
  array_index k = Some n → (lo ≤ n)%N → k ∉ idx →
  ∃ idx', (insert_index n k v o).*1 = idx' ++ tail
          ∧ ascending_indices lo idx'.
Proof.
  revert o lo. induction idx as [|k1 idx IH]; intros o lo Ho Hasc Htail Hk Hlo Hnin.
  - exists [k]. csimpl in Ho. split; [|csimpl; eauto].
    destruct o as [|[k' v'] o]; csimpl in *; [by subst|].
    subst tail. by rewrite Htail.
  - destruct o as [|[k' v'] o]; [done|]. csimpl in Ho. injection Ho as -> Ho.
    destruct Hasc as (m & Hm & Hlom & Hasc). csimpl. rewrite Hm.
    apply not_elem_of_cons in Hnin as [Hne Hnin].
    destruct (N.ltb_spec m n) as [Hlt|Hge].
    + destruct (IH o (m + 1)%N) as (idx' & Hidx' & Hasc'); [done..|lia|done|].
      exists (k1 :: idx'). csimpl. rewrite Hidx'. split; [done|].
      exists m. by split_and!.
    + assert (n ≠ m) by (intros ->; eauto using array_index_inj).
      exists (k :: k1 :: idx). csimpl. rewrite Ho. split; [done|].
      exists n. split_and!; [done..|]. exists m. split_and!; [done|lia|done].
Qed.

Lemma set_prop_layout o k v :
  normal_layout o.*1 → normal_layout (set_prop o k v).*1.
Proof.
  intros (idx & rest & Hks & Hasc & Hnd & Hrest). unfold set_prop.
  destruct (has_prop k o) eqn:Hhas.
  - rewrite keys_replace_prop. by exists idx, rest.
  - apply has_prop_false in Hhas. rewrite Hks in Hhas.
    rewrite !not_elem_of_app in Hhas. destruct Hhas as (Hidx & Hcan & Hr).
    destruct (array_index k) as [n|] eqn:Hk.
    + destruct (keys_insert_index n k v o idx (canonical_keys ++ rest) 0)
        as (idx' & Hidx' & Hasc'); [done..|lia|done|].
      by exists idx', rest.
    + exists idx, (rest ++ [k]). rewrite fmap_app, Hks. csimpl.
      split_and!; [by rewrite <- !app_assoc|done| |].
      * apply NoDup_app. split_and!; [done| |apply NoDup_singleton].
        intros x Hx ->%list_elem_of_singleton. done.
      * apply Forall_app. split; [done|]. by apply Forall_singleton.
Qed.

Lemma fold_set_prop_layout l o :
  normal_layout o.*1 → normal_layout (fold_left set_entry l o).*1.
Proof.
  revert o. induction l as [|[k v] l IH]; intros o Ho; csimpl; [done|].
  by apply IH, set_prop_layout.
Qed.

(** Copying indices that are all above the ones already there. *)
Lemma fold_set_prop_indices (oi1 oi2 b : props) lo :
  Forall (λ k, ∃ m, array_index k = Some m ∧ (m < lo)%N) oi1.*1 →
  ascending_indices lo oi2.*1 →
  Forall (λ k, array_index k = None) b.*1 →
  fold_left set_entry oi2 (oi1 ++ b) = oi1 ++ oi2 ++ b.
Proof.
  revert oi1 lo. induction oi2 as [|[k v] oi2 IH]; intros oi1 lo H1 H2 Hb; [done|].
  csimpl in H2. destruct H2 as (n & Hn & Hlo & H2).
  cbn [fold_left fst snd].
  assert (set_prop (oi1 ++ b) k v = (oi1 ++ [(k, v)]) ++ b) as ->.
  { unfold set_prop.
    assert (has_prop k (oi1 ++ b) = false) as ->.
    { apply has_prop_false. rewrite fmap_app, not_elem_of_app. split.
      - intros Hin. rewrite Forall_forall in H1.
        destruct (H1 _ Hin) as (m & Hm & Hlt). rewrite Hn in Hm.
        injection Hm as <-. lia.
      - intros Hin. rewrite Forall_forall in Hb.
        specialize (Hb _ Hin). congruence. }
    rewrite Hn. rewrite <- app_assoc. csimpl.
    clear IH H2. induction oi1 as [|[k1 v1] oi1 IH1]; csimpl.
    - destruct b as [|[kb vb] b]; [done|]. csimpl in Hb.
      apply Forall_cons in Hb as [Hkb _]. simpl. by rewrite Hkb.
    - csimpl in H1. apply Forall_cons in H1 as [(m & -> & Hm) H1].
      destruct (N.ltb_spec m n); [|lia]. by rewrite IH1. }
  rewrite (IH _ (n + 1)%N); [by rewrite <- app_assoc|..|done|done].
  rewrite fmap_app. apply Forall_app. split.
  - eapply Forall_impl; [exact H1|]. intros k' (m & ? & ?). exists m. split; [done|lia].
  - apply Forall_singleton. exists n. split; [done|lia].
Qed.

Lemma replace_prop_app_r k v o1 o2 :
  k ∉ o1.*1 → replace_prop k v (o1 ++ o2) = o1 ++ replace_prop k v o2.
Proof.
  induction o1 as [|[k1 v1] o1 IH]; csimpl; [done|].
  intros [Hne Hnin]%not_elem_of_cons.
  destruct (String.eqb_spec k k1); [done|]. by rewrite IH.
Qed.

(** Copying other keys that are new. *)
Lemma fold_set_prop_others (p r : props) :
  NoDup r.*1 →
  Forall (λ k, array_index k = None ∧ k ∉ p.*1) r.*1 →
  fold_left set_entry r p = p ++ r.
Proof.
  revert p. induction r as [|[k v] r IH]; intros p Hnd Hr; csimpl.
  - by rewrite app_nil_r.
  - csimpl in *. apply NoDup_cons in Hnd as [Hk Hnd].
    apply Forall_cons in Hr as [[Hidx Hp] Hr].
    assert (set_prop p k v = p ++ [(k, v)]) as ->.
    { unfold set_prop. apply has_prop_false in Hp. by rewrite Hp, Hidx. }
    rewrite IH, <- app_assoc; [done..|].
    rewrite Forall_forall in Hr |- *. intros k' Hk'.
    destruct (Hr k' Hk') as [? ?]. split; [done|].
    rewrite fmap_app, not_elem_of_app. split; [done|].
    csimpl. intros ->%list_elem_of_singleton. done.
Qed.

(** An object in normal layout is what copying it over three canonical
    entries gives back. *)
Lemma fold_set_prop_self o a b c :
  normal_layout o.*1 →
  fold_left set_entry o [("user_id", a); ("username", b); ("email", c)] = o.
Proof.
  intros (idx & rest & Hks & Hasc & Hnd & Hrest).
  apply fmap_app_inv in Hks as (oi & o' & -> & Ho' & ->).
  symmetry in Ho'. apply fmap_app_inv in Ho' as (oc & or & Hoc & -> & ->).
  destruct oc as [|[k1 x] [|[k2 y] [|[k3 z] [|]]]]; try done.
  csimpl in Hoc. injection Hoc as <- <- <-.
  assert (Forall (λ k, ∃ m, array_index k = Some m) oi.*1) as Hoi.
  { clear -Hasc. revert Hasc. generalize 0%N.
    induction (oi.*1) as [|k ks IH]; intros lo H; [done|].
    destruct H as (n & ? & ? & ?). constructor; eauto. }
  rewrite !fold_left_app.
  pose proof (fold_set_prop_indices []
                oi [("user_id", a); ("username", b); ("email", c)] 0) as Hi.
  cbn [app] in Hi. rewrite Hi; [|done|done|by repeat constructor]. clear Hi.
  assert (∀ k, k ∈ canonical_keys → k ∉ oi.*1) as Hcan.
  { intros k Hk Hin. rewrite Forall_forall in Hoi. destruct (Hoi _ Hin) as (m & Hm).
    unfold canonical_keys in Hk. csimpl in Hk. rewrite !elem_of_cons, elem_of_nil in Hk.
    destruct Hk as [->|[->|[->|[]]]]; vm_compute in Hm; discriminate. }
  assert (fold_left set_entry [("user_id", x); ("username", y); ("email", z)]
            (oi ++ [("user_id", a); ("username", b); ("email", c)])
          = oi ++ [("user_id", x); ("username", y); ("email", z)]) as ->.
  { cbn [fold_left fst snd]. unfold set_prop.
    assert (∀ k v (t : props), k ∈ canonical_keys → has_prop k t = true →
              (if has_prop k (oi ++ t) then replace_prop k v (oi ++ t)
               else match array_index k with
                    | Some n => insert_index n k v (oi ++ t)
                    | None => (oi ++ t) ++ [(k, v)]
                    end) = oi ++ replace_prop k v t) as Hstep.
    { intros k v t Hk Ht.
      assert (has_prop k (oi ++ t) = true) as ->.
      { apply has_prop_true. rewrite fmap_app, elem_of_app. right.
        by apply has_prop_true. }
      apply replace_prop_app_r. by apply Hcan. }
    rewrite Hstep; [|left|done]. cbn [replace_prop String.eqb Ascii.eqb Bool.eqb].
    rewrite Hstep; [|right; left|done]. cbn [replace_prop String.eqb Ascii.eqb Bool.eqb].
    rewrite Hstep; [|right; right; left|done]. reflexivity. }
  rewrite fold_set_prop_others; [by rewrite <- app_assoc|done|].
  rewrite Forall_forall in Hrest |- *. intros k Hk.
  destruct (Hrest k Hk) as [Hnone Hnc]. split; [done|].
  rewrite fmap_app, not_elem_of_app. split; [|done].
  intros Hin. rewrite Forall_forall in Hoi. destruct (Hoi _ Hin). congruence.
Qed.

End layout.

Lemma normalize_Ok (data r : value) :
  normalize data = Ok r →
  ∃ a b c,
    r = VObj (fold_left (λ acc kv, set_prop acc kv.1 kv.2) (own_props data)
                [("user_id", a); ("username", b); ("email", c)]).
Proof.
  unfold normalize.
  destruct (rcoalesce (rcoalesce (rcoalesce (get data "user_id") _) _) _)
    as [a|]; [|done].
  destruct (rcoalesce (rcoalesce (rcoalesce (get data "username") _) _) _)
    as [b|]; [|done].
  destruct (rcoalesce (get data "email") _) as [c|]; [|done].
  cbn [rbind]. intros [= <-]. by exists a, b, c.
Qed.

Lemma normalize_fixpoint (data r : value) :
  normalize data = Ok r → normalize r = Ok r.
Proof.
  intros (a & b & c & ->)%normalize_Ok.
  rewrite normalize_object. do 2 f_equal.
  apply fold_set_prop_self, fold_set_prop_layout.
  exists [], []. split_and!; [done|done|constructor|constructor].
Qed.

(** C3: the normaliser is idempotent.  Every raw profile object [r] has a
    normal form, and normalising that normal form returns it unchanged, the
    order of its keys included. *)
Theorem normalize_idempotent (r : props) :
  ∃ n, normalize (VObj r) = Ok n ∧ normalize n = Ok n.
Proof.
  eexists. split; [apply normalize_object|].
  eapply normalize_fixpoint, normalize_object.
Qed.

(* ----------------------------------------------------------------- *)
(** ** Running the script *)

Ltac run_unfold :=
  unfold fetch, json, setItem, store, has_error_box, set_text, show_text,
    alert, navigate, console_warn, console_error, preventDefault, emit,
    mbind, M_bind, bind, mret, M_ret, ret, lift, try_catch in *.

Lemma extend_nil w : extend [] w = w.
Proof. destruct w. unfold extend. simpl. by rewrite app_nil_r. Qed.

Lemma extend_extend a b w : extend b (extend a w) = extend (a ++ b) w.
Proof. unfold extend. simpl. by rewrite app_assoc. Qed.

Lemma extend_log e evs w : extend evs (log e w) = extend (e :: evs) w.
Proof. unfold log. by rewrite extend_extend. Qed.

(** *** The profile resolver *)

Lemma try_candidate_run E jwt tok path w :
  to_string jwt = Ok tok →
  try_candidate E jwt path w
  = (Ok (candidate_outcome E tok (trace w) path),
     log (EvFetch (profile_request path tok)) w).
Proof.
  intros Htok. unfold try_candidate, candidate_outcome. run_unfold.
  rewrite Htok.
  destruct (network E (trace w) (profile_request path tok)) as [res|]; [|done].
  destruct (res_ok res); [|done].
  destruct (json_body res) as [data|]; [|done].
  by destruct (normalize data).
Qed.

Lemma fetch_first_cons E jwt tok path rest w :
  to_string jwt = Ok tok →
  fetch_first E (path :: rest) jwt w
  = match candidate_outcome E tok (trace w) path with
    | Some user => (Ok user, log (EvFetch (profile_request path tok)) w)
    | None => fetch_first E rest jwt (log (EvFetch (profile_request path tok)) w)
    end.
Proof.
  intros Htok. cbn [fetch_first]. unfold mbind, M_bind, bind at 1.
  rewrite (try_candidate_run _ _ tok) by done.
  by destruct (candidate_outcome E tok (trace w) path).
Qed.




(** *** The login controller *)

Lemma showError_run msg s w :
  to_string (js_or msg (VStr "Error al iniciar sesión.")) = Ok s →
  showError msg w = (Ok tt, display s w).
Proof.
  intros Hs. unfold showError, display. run_unfold. rewrite Hs.
  destruct (error_box w); reflexivity.
Qed.

Lemma showError_text (s : string) w :
  s ≠ "" → showError (VStr s) w = (Ok tt, display s w).
Proof.
  intros Hs. apply showError_run. unfold js_or. simpl.
  by destruct (String.eqb_spec s "").
Qed.

Lemma open_run w : (preventDefault;; clearError) w = (Ok tt, opened w).
Proof.
  unfold clearError, opened. run_unfold. simpl.
  destruct (error_box w); reflexivity.
Qed.

Lemma on_submit_open E w :
  on_submit E w
  = try_catch
      (attempt_login E)
      (λ err,
         showError (VStr "No se pudo conectar con el servidor.");;
         console_error err) (opened w).
Proof.
  unfold on_submit.
  unfold mbind at 1 2, M_bind at 1 2, bind at 1 2.
  pose proof (open_run w) as Hopen.
  unfold mbind at 1, M_bind at 1, bind at 1 in Hopen.
  destruct (preventDefault w) as [[[]|e] w1]; simpl in Hopen.
  - destruct (clearError w1) as [[[]|e] w2]; by simplify_eq.
  - by simplify_eq.
Qed.

Lemma catch_run e w :
  (showError (VStr "No se pudo conectar con el servidor.");; console_error e) w
  = (Ok tt, log (EvConsoleError e)
              (display "No se pudo conectar con el servidor." w)).
Proof.
  unfold mbind, M_bind, bind. by rewrite showError_text.
Qed.

Lemma attempt_login_run E w :
  attempt_login E w
  = match network E (trace w) (login_request E) with
    | None => (Throw NetworkError, log (EvFetch (login_request E)) w)
    | Some res =>
        (if negb (res_ok res) then
           message ← try_catch
                       (err ← json res;
                        mret (js_or (get_opt err "detail")
                                    (VStr "Credenciales inválidas.")))
                       (λ _, mret (VStr "Credenciales inválidas."));
           showError message
         else
           data ← json res;
           let token := pickToken data in
           if negb (truthy token) then
             showError (VStr "No se recibió el token de acceso.")
           else
             saveSession E token VUndefined;;
             profile ← fetchUserProfile E token;
             (if truthy profile then saveSession E token profile else mret tt);;
             redirectWithParams token (js_or profile (VObj [])))
          (log (EvFetch (login_request E)) w)
    end.
Proof.
  unfold attempt_login. unfold mbind at 1, M_bind at 1, bind at 1, fetch.
  by destruct (network E (trace w) (login_request E)).
Qed.

Lemma shown_opened w e msg : shown (log e (opened w)) msg = shown w msg.
Proof. unfold shown, opened. destruct (error_box w) eqn:H; simpl; by rewrite ?H. Qed.

Lemma display_facts msg w :
  trace (display msg w) = trace w ++ [shown w msg]
  ∧ storage (display msg w) = storage w
  ∧ location (display msg w) = location w
  ∧ (is_Some (error_box w) → error_box (display msg w) = Some msg).
Proof.
  unfold display, shown. destruct (error_box w); simpl; split_and!; done.
Qed.

Lemma opened_facts w :
  storage (opened w) = storage w ∧ location (opened w) = location w
  ∧ (is_Some (error_box (opened w)) ↔ is_Some (error_box w)).
Proof.
  unfold opened. destruct (error_box w) eqn:H; simpl; rewrite ?H; split_and!; done.
Qed.

(** C9: a response of the authentication endpoint with a success status and
    a body that is not JSON ends in the [catch] clause of the listener, the
    one that a failure of the transport reaches too: the connectivity
    message is shown, the error is logged, nothing is stored, no candidate
    is called and the page does not navigate. *)
Theorem on_submit_invalid_body E w res :
  network E (trace (opened w)) (login_request E) = Some res →
  res_ok res = true →
  json_body res = None →
  (∃ w', on_submit E w = (Ok tt, w')
         ∧ trace w' = trace (opened w)
                      ++ [EvFetch (login_request E);
                          shown w "No se pudo conectar con el servidor.";
                          EvConsoleError SyntaxError]
         ∧ storage w' = storage w
         ∧ location w' = location w
         ∧ (is_Some (error_box w) →
            error_box w' = Some "No se pudo conectar con el servidor."))
  ∧ (∀ E0, network E0 (trace (opened w)) (login_request E0) = None →
       ∃ w0, on_submit E0 w = (Ok tt, w0)
             ∧ trace w0 = trace (opened w)
                          ++ [EvFetch (login_request E0);
                              shown w "No se pudo conectar con el servidor.";
                              EvConsoleError NetworkError]).
Proof.
  intros Hnet Hok Hbody. split.
  - eexists. split.
    { rewrite on_submit_open. unfold try_catch at 1.
      rewrite attempt_login_run, Hnet, Hok. cbn [negb].
      unfold mbind at 1, M_bind at 1, bind at 1, json. rewrite Hbody.
      unfold lift. apply catch_run. }
    destruct (opened_facts w) as (Hst & Hloc & Hbox).
    destruct (display_facts "No se pudo conectar con el servidor."
                (log (EvFetch (login_request E)) (opened w)))
      as (Htr & Hst' & Hloc' & Hbox').
    rewrite shown_opened in Htr.
    cbn [log extend trace storage location error_box] in *.
    rewrite Htr, Hst', Hloc', <- !app_assoc. split_and!; [done..|].
    intros Hw. apply Hbox', Hbox, Hw.
  - intros E0 Hnet0. eexists. split.
    { rewrite on_submit_open. unfold try_catch at 1.
      rewrite attempt_login_run, Hnet0. apply catch_run. }
    destruct (display_facts "No se pudo conectar con el servidor."
                (log (EvFetch (login_request E0)) (opened w)))
      as (Htr & _).
    rewrite shown_opened in Htr.
    cbn [log extend trace storage location error_box] in *.
    by rewrite Htr, <- !app_assoc.
Qed.

Lemma on_submit_invalid_body_witness :
  network env_not_json (trace (opened world0)) (login_request env_not_json)
  = Some (answer_without_json 200)
  ∧ res_ok (answer_without_json 200) = true
  ∧ json_body (answer_without_json 200) = None
  ∧ ∃ w', on_submit env_not_json world0 = (Ok tt, w')
          ∧ storage w' = storage world0
          ∧ location w' = location world0
          ∧ error_box w' = Some "No se pudo conectar con el servidor.".
Proof.
  split; [reflexivity|]. split; [reflexivity|]. split; [reflexivity|].
  destruct (on_submit_invalid_body env_not_json world0
              (answer_without_json 200) eq_refl eq_refl eq_refl)
    as [(w' & Hrun & _ & Hst & Hloc & Hbox) _].
  exists w'. split; [exact Hrun|]. split; [exact Hst|]. split; [exact Hloc|].
  apply Hbox. by eexists.
Defined.

Lemma showError_throw msg e w :
  to_string (js_or msg (VStr "Error al iniciar sesión.")) = Throw e →
  showError msg w = (Throw e, w).
Proof.
  intros Hs. unfold showError. run_unfold. rewrite Hs.
  destruct (error_box w); reflexivity.
Qed.

Lemma rejection_message_run res w :
  try_catch
    (err ← json res;
     mret (js_or (get_opt err "detail") (VStr "Credenciales inválidas.")))
    (λ _, mret (VStr "Credenciales inválidas.")) w
  = (Ok (match json_body res with
         | Some err => js_or (get_opt err "detail")
                             (VStr "Credenciales inválidas.")
         | None => VStr "Credenciales inválidas."
         end), w).
Proof. run_unfold. by destruct (json_body res). Qed.

(** C5, as stated, fails: a rejection whose body holds the empty string as
    [detail] shows the generic fallback, not that string. *)
Lemma rejection_shows_detail_string_fails :
  ¬ (∀ E w res,
       network E (trace (opened w)) (login_request E) = Some res →
       res_ok res = false →
       ∃ w', on_submit E w = (Ok tt, w')
             ∧ trace w' = trace (opened w)
                          ++ [EvFetch (login_request E);
                              shown w (claimed_rejection_message res)]).
Proof.
  intros H.
  destruct (H (scripted_env []
                 [("/auth/login",
                   {| status := 401;
                      json_body := Some (VObj [("detail", VStr "")]) |})]
                 false)
              world0
              {| status := 401;
                 json_body := Some (VObj [("detail", VStr "")]) |})
    as (w' & Hrun & Htrace); [reflexivity..|].
  vm_compute in Hrun. injection Hrun as <-.
  vm_compute in Htrace. discriminate Htrace.
Qed.

(** C5, amended: after a response with a non-success status the controller
    shows the [detail] of the body when the body decodes to JSON whose
    [detail] is a non-empty string, and the generic fallback when the body
    does not decode or its [detail] is missing or falsy (the empty string
    included).  Whatever the body, the controller then halts: what follows
    the authentication request in the trace only shows or logs a message,
    so no candidate is called, nothing is stored and the page does not
    navigate. *)
Theorem on_submit_rejected E w res :
  network E (trace (opened w)) (login_request E) = Some res →
  res_ok res = false →
  ∃ w' evs,
    on_submit E w = (Ok tt, w')
    ∧ trace w' = trace (opened w) ++ EvFetch (login_request E) :: evs
    ∧ Forall is_display evs
    ∧ Forall (λ e, ¬ is_fetch e ∧ ¬ is_storage_write e ∧ ¬ is_navigation e)
        evs
    ∧ storage w' = storage w
    ∧ location w' = location w
    ∧ (∀ err detail,
         json_body res = Some err →
         get_opt err "detail" = VStr detail → detail ≠ "" →
         evs = [shown w detail])
    ∧ (json_body res = None
       ∨ (∃ err, json_body res = Some err
                 ∧ truthy (get_opt err "detail") = false) →
       evs = [shown w "Credenciales inválidas."]).
Proof.
  intros Hnet Hok.
  assert (∀ evs, Forall is_display evs →
            Forall (λ e, ¬ is_fetch e ∧ ¬ is_storage_write e
                         ∧ ¬ is_navigation e) evs) as Hquiet.
  { intros evs Hd. eapply Forall_impl; [exact Hd|].
    intros [] He; simpl in *; tauto. }
  set (w1 := log (EvFetch (login_request E)) (opened w)).
  set (m := match json_body res with
            | Some err => js_or (get_opt err "detail")
                                (VStr "Credenciales inválidas.")
            | None => VStr "Credenciales inválidas."
            end).
  assert (attempt_login E (opened w) = showError m w1) as Hattempt.
  { rewrite attempt_login_run, Hnet, Hok. cbn [negb].
    unfold mbind at 1, M_bind at 1, bind at 1.
    by rewrite rejection_message_run. }
  assert (truthy m = true) as Hm.
  { unfold m, js_or. destruct (json_body res) as [err|]; [|done].
    by destruct (truthy (get_opt err "detail")) eqn:Hd. }
  assert (js_or m (VStr "Error al iniciar sesión.") = m) as Hmm
    by (unfold js_or at 1; by rewrite Hm).
  destruct (opened_facts w) as (Hst & Hloc & Hbox).
  destruct (to_string m) as [s|e] eqn:Hs.
  - destruct (display_facts s w1) as (Htr & Hst' & Hloc' & _).
    unfold w1 in Htr. rewrite shown_opened in Htr. fold w1 in Htr.
    exists (display s w1), [shown w s]. split_and!.
    + rewrite on_submit_open. unfold try_catch at 1. rewrite Hattempt.
      rewrite (showError_run m s); [done|by rewrite Hmm].
    + rewrite Htr. unfold w1. cbn [log extend trace]. by rewrite <- app_assoc.
    + repeat constructor. unfold shown. by destruct (error_box w).
    + apply Hquiet. repeat constructor. unfold shown. by destruct (error_box w).
    + by rewrite Hst'.
    + by rewrite Hloc'.
    + intros err d Herr Hd Hne. unfold m in Hs. rewrite Herr, Hd in Hs.
      unfold js_or in Hs. simpl in Hs.
      destruct (String.eqb_spec d ""); [done|]. simpl in Hs. by injection Hs as <-.
    + intros Hfall. assert (m = VStr "Credenciales inválidas.") as Hmv.
      { unfold m. destruct Hfall as [->|(err & -> & Hd)]; [done|].
        unfold js_or. by rewrite Hd. }
      rewrite Hmv in Hs. by injection Hs as <-.
  - set (c := "No se pudo conectar con el servidor.").
    destruct (display_facts c w1) as (Htr & Hst' & Hloc' & _).
    unfold w1 in Htr. rewrite shown_opened in Htr. fold w1 in Htr.
    exists (log (EvConsoleError e) (display c w1)),
           [shown w c; EvConsoleError e].
    split_and!.
    + rewrite on_submit_open. unfold try_catch at 1. rewrite Hattempt.
      rewrite (showError_throw m e); [apply catch_run|by rewrite Hmm].
    + cbn [log extend trace]. rewrite Htr. unfold w1. cbn [log extend trace].
      by rewrite <- !app_assoc.
    + repeat constructor. unfold shown. by destruct (error_box w).
    + apply Hquiet. repeat constructor. unfold shown. by destruct (error_box w).
    + cbn [log extend storage]. by rewrite Hst'.
    + cbn [log extend location]. by rewrite Hloc'.
    + intros err d Herr Hd Hne. unfold m in Hs. rewrite Herr, Hd in Hs.
      unfold js_or in Hs. simpl in Hs.
      destruct (String.eqb_spec d ""); [done|]. discriminate Hs.
    + intros Hfall. assert (m = VStr "Credenciales inválidas.") as Hmv.
      { unfold m. destruct Hfall as [->|(err & -> & Hd)]; [done|].
        unfold js_or. by rewrite Hd. }
      rewrite Hmv in Hs. discriminate Hs.
Qed.

Lemma on_submit_rejected_witness :
  network env_rejected (trace (opened world0)) (login_request env_rejected)
  = Some (answer 401 (VObj [("detail", VStr "Bad credentials")]))
  ∧ res_ok (answer 401 (VObj [("detail", VStr "Bad credentials")])) = false
  ∧ ∃ w', on_submit env_rejected world0 = (Ok tt, w')
          ∧ trace w' = trace (opened world0)
                       ++ [EvFetch (login_request env_rejected);
                           EvSetText "Bad credentials"]
          ∧ storage w' = storage world0
          ∧ location w' = location world0.
Proof.
  split; [reflexivity|]. split; [reflexivity|].
  destruct (on_submit_rejected env_rejected world0
              (answer 401 (VObj [("detail", VStr "Bad credentials")]))
              eq_refl eq_refl)
    as (w' & evs & Hrun & Htr & _ & _ & Hst & Hloc & Hdetail & _).
  exists w'. split; [exact Hrun|]. split; [|split; [exact Hst|exact Hloc]].
  rewrite Htr.
  rewrite (Hdetail (VObj [("detail", VStr "Bad credentials")])
             "Bad credentials" eq_refl eq_refl); [reflexivity|discriminate].
Defined.

(** *** Serialisation never gives [undefined] for a value that is not *)

Lemma serialize_None v : JSON.serialize v = Ok None → v = VUndefined.
Proof.
  destruct v as [| | | | | |l|o]; simpl; try done.
  - by destruct ((fix elements (l : list value) : result (list string) := _) l).
  - by destruct ((fix members (o : props) : result (list string) := _) o).
Qed.

Lemma stringify_result v r :
  JSON.stringify v = Ok r →
  (v = VUndefined ∧ r = VUndefined)
  ∨ (∃ s, JSON.serialize v = Ok (Some s) ∧ r = VStr s).
Proof.
  unfold JSON.stringify. destruct (JSON.serialize v) as [[s|]|e] eqn:Hs; simpl; [| |done].
  - intros [= <-]. right. by exists s.
  - intros [= <-]. left. by apply serialize_None in Hs.
Qed.

(** *** The redirect builder *)

Lemma redirectWithParams_run jwt user tok w :
  to_string jwt = Ok tok →
  redirectWithParams jwt user w = (Ok tt, go (redirect_url tok user) w).
Proof.
  intros Htok. unfold redirectWithParams, redirect_url, userdata_text, url_search_params.
  run_unfold. unfold JSON.stringify.
  destruct (JSON.serialize (js_coalesce user (VObj []))) as [[s|]|e] eqn:Hs; simpl.
  - by rewrite Htok.
  - apply serialize_None in Hs. by destruct user.
  - by rewrite Htok.
Qed.

Lemma redirectWithParams_throw jwt user e w :
  to_string jwt = Throw e →
  redirectWithParams jwt user w = (Throw e, w).
Proof.
  intros Htok. unfold redirectWithParams, url_search_params.
  run_unfold.
  destruct (JSON.stringify (js_coalesce user (VObj []))); simpl; by rewrite Htok.
Qed.

(** *** The session persister *)

Lemma saveSession_token E jwt tok w :
  truthy jwt = true → to_string jwt = Ok tok →
  saveSession E jwt VUndefined w = (Ok tt, token_saved E tok w).
Proof.
  intros Ht Htok. unfold saveSession, token_saved. run_unfold.
  rewrite Ht, Htok. cbn [truthy].
  by destruct (quota_exceeded E (storage w) "jwt" tok).
Qed.

Ltac world_simpl :=
  cbn [log extend put set_box go trace storage location error_box] in *.

Lemma saveSession_spec E jwt user w :
  ∃ w' evs,
    saveSession E jwt user w = (Ok tt, w')
    ∧ trace w' = trace w ++ evs
    ∧ Forall (λ e, is_storage_write e ∨ is_warning e) evs
    ∧ location w' = location w
    ∧ error_box w' = error_box w
    ∧ (∀ k, storage w' !! k = storage w !! k
            ∨ ∃ s, storage w' !! k = Some s ∧ written jwt user k s).
Proof.
  assert (∀ (w1 : world) evs1,
            trace w1 = trace w ++ evs1 →
            Forall (λ e, is_storage_write e ∨ is_warning e) evs1 →
            location w1 = location w → error_box w1 = error_box w →
            (∀ k, storage w1 !! k = storage w !! k
                  ∨ ∃ s, storage w1 !! k = Some s ∧ written jwt user k s) →
            ∀ r, (∃ w' evs,
              (let (r0, w'0) := (r, w1) : result unit * world in
               match r0 with
               | Ok a => (Ok a, w'0)
               | Throw e => (Ok tt, log (EvConsoleWarn e) w'0)
               end) = (Ok tt, w')
              ∧ trace w' = trace w ++ evs
              ∧ Forall (λ e, is_storage_write e ∨ is_warning e) evs
              ∧ location w' = location w
              ∧ error_box w' = error_box w
              ∧ (∀ k, storage w' !! k = storage w !! k
                      ∨ ∃ s, storage w' !! k = Some s ∧ written jwt user k s)))
    as Hfinish.
  { intros w1 evs1 Htr Hevs Hloc Hbox Hst [[]|e].
    - exists w1, evs1. by split_and!.
    - exists (log (EvConsoleWarn e) w1), (evs1 ++ [EvConsoleWarn e]).
      world_simpl. rewrite Htr, <- app_assoc. split_and!; try done.
      apply Forall_app. split; [done|]. apply Forall_singleton. by right. }
  assert (∀ (w1 : world) evs1 k s,
            trace w1 = trace w ++ evs1 →
            Forall (λ e, is_storage_write e ∨ is_warning e) evs1 →
            location w1 = location w → error_box w1 = error_box w →
            (∀ k, storage w1 !! k = storage w !! k
                  ∨ ∃ s, storage w1 !! k = Some s ∧ written jwt user k s) →
            written jwt user k s →
            ∃ r (w2 : world) evs2,
              store E k s w1 = (r, w2)
              ∧ trace w2 = trace w ++ evs2
              ∧ Forall (λ e, is_storage_write e ∨ is_warning e) evs2
              ∧ location w2 = location w ∧ error_box w2 = error_box w
              ∧ (∀ k, storage w2 !! k = storage w !! k
                      ∨ ∃ s, storage w2 !! k = Some s ∧ written jwt user k s))
    as Hstore.
  { intros w1 evs1 k s Htr Hevs Hloc Hbox Hst Hw. unfold store.
    assert (Forall (λ e, is_storage_write e ∨ is_warning e)
              (evs1 ++ [EvSetItem k s])) as Hevs'.
    { apply Forall_app. split; [done|]. apply Forall_singleton. by left. }
    destruct (quota_exceeded E (storage w1) k s).
    - eexists _, _, _. split; [reflexivity|]. world_simpl.
      rewrite Htr, <- app_assoc. by split_and!.
    - eexists _, _, _. split; [reflexivity|]. world_simpl.
      rewrite Htr, <- app_assoc. split_and!; try done.
      intros k'. rewrite lookup_insert. case_decide; [|apply Hst].
      subst k'. right. by exists s. }
  unfold saveSession. unfold try_catch, console_warn, emit.
  unfold mbind at 1, M_bind at 1, bind at 1.
  assert (∃ r1 (w1 : world) evs1,
            (if truthy jwt then setItem E "jwt" jwt else mret tt) w = (r1, w1)
            ∧ trace w1 = trace w ++ evs1
            ∧ Forall (λ e, is_storage_write e ∨ is_warning e) evs1
            ∧ location w1 = location w ∧ error_box w1 = error_box w
            ∧ (∀ k, storage w1 !! k = storage w !! k
                    ∨ ∃ s, storage w1 !! k = Some s ∧ written jwt user k s))
    as (r1 & w1 & evs1 & -> & Htr1 & Hevs1 & Hloc1 & Hbox1 & Hst1).
  { destruct (truthy jwt) eqn:Hj.
    - unfold setItem, lift. unfold mbind, M_bind, bind.
      destruct (to_string jwt) as [tok|e] eqn:Htok.
      + apply (Hstore w [] "jwt" tok); try done.
        * by rewrite app_nil_r.
        * by left.
        * left. by split_and!.
      + exists (Throw e), w, []. rewrite app_nil_r. by split_and!; try left.
    - exists (Ok tt), w, []. rewrite app_nil_r. by split_and!; try left. }
  pose proof (Hfinish w1 evs1 Htr1 Hevs1 Hloc1 Hbox1 Hst1) as Hfinish1.
  destruct r1 as [[]|e1]; [|apply (Hfinish1 (Throw e1))].
  destruct (truthy user) eqn:Hu; [|apply (Hfinish1 (Ok tt))].
  unfold lift. unfold mbind, M_bind, bind.
  destruct (JSON.stringify user) as [r|e] eqn:Hr; [|apply (Hfinish1 (Throw e))].
  destruct (stringify_result _ _ Hr) as [[-> _]|(s & Hs & ->)]; [done|].
  unfold setItem, lift. unfold mbind, M_bind, bind. cbn [to_string].
  destruct (Hstore w1 evs1 "userdata" s)
    as (r2 & w2 & evs2 & -> & Htr2 & Hevs2 & Hloc2 & Hbox2 & Hst2); try done.
  { right. by split_and!. }
  apply (Hfinish w2 evs2 Htr2 Hevs2 Hloc2 Hbox2 Hst2 r2).
Qed.

Lemma fetch_first_frame E candidates jwt tok w :
  to_string jwt = Ok tok →
  ∃ profile n,
    fetch_first E candidates jwt w
    = (Ok profile, extend (contacts tok (take n candidates)) w).
Proof.
  intros Htok. revert w. induction candidates as [|p rest IH]; intros w.
  - exists VNull, 0%nat. simpl. by rewrite extend_nil.
  - rewrite (fetch_first_cons _ _ tok) by done.
    destruct (candidate_outcome E tok (trace w) p) as [user|].
    + by exists user, 1%nat.
    + destruct (IH (log (EvFetch (profile_request p tok)) w)) as (profile & n & ->).
      exists profile, (S n). by rewrite extend_log.
Qed.

Lemma fetch_first_all_fail E candidates jwt tok w :
  to_string jwt = Ok tok →
  all_fail E tok w candidates →
  fetch_first E candidates jwt w
  = (Ok VNull, extend (contacts tok candidates) w).
Proof.
  intros Htok. revert w. induction candidates as [|p rest IH]; intros w Hall.
  - simpl. by rewrite extend_nil.
  - rewrite (fetch_first_cons _ _ tok) by done.
    pose proof (Hall 0%nat p eq_refl) as H0. unfold outcome_at in H0.
    simpl in H0. rewrite app_nil_r in H0. rewrite H0.
    rewrite IH, extend_log; [done|].
    intros i q Hq. specialize (Hall (S i) q Hq). unfold outcome_at in *.
    simpl in *. by rewrite <- app_assoc.
Qed.

Lemma save_user_extends E user w :
  ∃ r w' evs,
    (if truthy user then
       text ← lift (JSON.stringify user); setItem E "userdata" text
     else mret tt) w = (r, w')
    ∧ trace w' = trace w ++ evs.
Proof.
  destruct (truthy user); [|exists (Ok tt), w, []; by rewrite app_nil_r].
  run_unfold.
  destruct (JSON.stringify user) as [text|e];
    [|exists (Throw e), w, []; by rewrite app_nil_r].
  destruct (to_string text) as [s|e];
    [|exists (Throw e), w, []; by rewrite app_nil_r].
  destruct (quota_exceeded E (storage w) "userdata" s); by eexists _, _, _.
Qed.

Lemma saveSession_first_event E jwt user tok w w' :
  truthy jwt = true → to_string jwt = Ok tok →
  saveSession E jwt user w = (Ok tt, w') →
  ∃ rest, trace w' = trace w ++ EvSetItem "jwt" tok :: rest.
Proof.
  intros Ht Htok. unfold saveSession, try_catch.
  unfold mbind at 1, M_bind at 1, bind at 1. rewrite Ht.
  unfold setItem at 1, lift at 1. unfold mbind at 1, M_bind at 1, bind at 1.
  rewrite Htok. unfold store.
  destruct (quota_exceeded E (storage w) "jwt" tok).
  - unfold console_warn, emit. intros [= <-]. world_simpl.
    rewrite <- app_assoc. by eexists.
  - destruct (save_user_extends E user (put "jwt" tok w))
      as (r & w4 & evs4 & -> & Htr4).
    destruct r as [[]|e]; unfold console_warn, emit; intros [= <-]; world_simpl;
      rewrite Htr4; world_simpl; rewrite <- !app_assoc; by eexists.
Qed.

Lemma token_saved_facts E tok w :
  ∃ warn,
    trace (token_saved E tok w) = trace w ++ EvSetItem "jwt" tok :: warn
    ∧ Forall is_warning warn
    ∧ location (token_saved E tok w) = location w
    ∧ error_box (token_saved E tok w) = error_box w
    ∧ storage (token_saved E tok w)
      = (if quota_exceeded E (storage w) "jwt" tok then storage w
         else <["jwt" := tok]> (storage w)).
Proof.
  unfold token_saved. destruct (quota_exceeded E (storage w) "jwt" tok).
  - exists [EvConsoleWarn QuotaExceededError]. world_simpl.
    rewrite <- app_assoc. split_and!; try done. by repeat constructor.
  - exists []. world_simpl. by split_and!.
Qed.

(** The success branch of the [try] block, once the token is known. *)
Lemma attempt_login_success E w res data :
  network E (trace w) (login_request E) = Some res →
  res_ok res = true →
  json_body res = Some data →
  truthy (pickToken data) = true →
  attempt_login E w
  = (saveSession E (pickToken data) VUndefined;;
     profile ← fetchUserProfile E (pickToken data);
     (if truthy profile then saveSession E (pickToken data) profile
      else mret tt);;
     redirectWithParams (pickToken data) (js_or profile (VObj [])))
      (log (EvFetch (login_request E)) w).
Proof.
  intros Hnet Hok Hbody Ht. rewrite attempt_login_run, Hnet, Hok. cbn [negb].
  unfold mbind at 1, M_bind at 1, bind at 1, json. rewrite Hbody.
  unfold mret at 1, M_ret at 1, ret at 1. cbv zeta. by rewrite Ht.
Qed.

(** The persister given a token and a profile that serialises, with a
    storage that accepts both writes. *)
Lemma saveSession_accepted E jwt user tok text w :
  truthy jwt = true →
  to_string jwt = Ok tok →
  truthy user = true →
  JSON.stringify user = Ok (VStr text) →
  quota_exceeded E (storage w) "jwt" tok = false →
  quota_exceeded E (<["jwt" := tok]> (storage w)) "userdata" text = false →
  saveSession E jwt user w = (Ok tt, put "userdata" text (put "jwt" tok w)).
Proof.
  intros Ht Htok Hu Htext Hq1 Hq2. unfold saveSession. run_unfold.
  rewrite Ht, Htok, Hq1, Hu, Htext. cbn [to_string].
  world_simpl. by rewrite Hq2.
Qed.

(** C6: once a token has been extracted the controller, in this order,
    gives the token alone to the persister, before any candidate is called;
    resolves the profile; gives token and profile to the persister, only if
    a profile was found; and navigates to the address built from the token
    and from the profile, or from the empty object when none was found.  The
    trace shows the same order, and the token written first is still stored
    at the end when the storage accepted it.  The second call of the
    persister writes token and profile together: when the profile
    serialises and the storage accepts both writes, what this call does is
    exactly the write of the token under [jwt] followed by the write of the
    JSON text of the profile under [userdata], and both entries are in the
    storage at the end. *)
Theorem on_submit_success_order E w res data tok :
  network E (trace (opened w)) (login_request E) = Some res →
  res_ok res = true →
  json_body res = Some data →
  truthy (pickToken data) = true →
  to_string (pickToken data) = Ok tok →
  let token := pickToken data in
  let w0 := log (EvFetch (login_request E)) (opened w) in
  let w1 := token_saved E tok w0 in
  ∃ profile n w3 warn save2,
    let w2 := extend (contacts tok (take n PROFILE_CANDIDATES)) w1 in
    let user := if truthy profile then profile else VObj [] in
    saveSession E token VUndefined w0 = (Ok tt, w1)
    ∧ fetchUserProfile E token w1 = (Ok profile, w2)
    ∧ (if truthy profile then saveSession E token profile else mret tt) w2
      = (Ok tt, w3)
    ∧ redirectWithParams token user w3 = (Ok tt, go (redirect_url tok user) w3)
    ∧ on_submit E w = (Ok tt, go (redirect_url tok user) w3)
    ∧ trace (go (redirect_url tok user) w3)
      = trace (opened w)
        ++ EvFetch (login_request E) :: EvSetItem "jwt" tok :: warn
        ++ contacts tok (take n PROFILE_CANDIDATES)
        ++ save2
        ++ [EvNavigate (redirect_url tok user)]
    ∧ Forall is_warning warn
    ∧ Forall (λ e, is_storage_write e ∨ is_warning e) save2
    ∧ (truthy profile = false → save2 = [])
    ∧ (truthy profile = true → ∃ rest, save2 = EvSetItem "jwt" tok :: rest)
    ∧ (quota_exceeded E (storage w) "jwt" tok = false →
       storage (go (redirect_url tok user) w3) !! "jwt" = Some tok)
    ∧ (truthy profile = false → w3 = w2)
    ∧ (truthy profile = true →
       ∀ text,
         JSON.stringify profile = Ok (VStr text) →
         quota_exceeded E (storage w2) "jwt" tok = false →
         quota_exceeded E (<["jwt" := tok]> (storage w2)) "userdata" text
         = false →
         w3 = put "userdata" text (put "jwt" tok w2)
         ∧ save2 = [EvSetItem "jwt" tok; EvSetItem "userdata" text]
         ∧ storage (go (redirect_url tok user) w3) !! "jwt" = Some tok
         ∧ storage (go (redirect_url tok user) w3) !! "userdata" = Some text).
Proof.
  intros Hnet Hok Hbody Ht Htok token w0 w1. subst token.
  destruct (fetch_first_frame E PROFILE_CANDIDATES (pickToken data) tok w1 Htok)
    as (profile & n & Hfetch).
  set (w2 := extend (contacts tok (take n PROFILE_CANDIDATES)) w1) in *.
  destruct (token_saved_facts E tok w0) as (warn & Htr1 & Hwarn & Hloc1 & Hbox1 & Hst1).
  fold w1 in Htr1, Hloc1, Hbox1, Hst1.
  assert (∃ w3 save2,
            (if truthy profile then saveSession E (pickToken data) profile
             else mret tt) w2
            = (Ok tt, w3)
            ∧ trace w3 = trace w2 ++ save2
            ∧ Forall (λ e, is_storage_write e ∨ is_warning e) save2
            ∧ (truthy profile = false → save2 = [])
            ∧ (truthy profile = true → ∃ rest, save2 = EvSetItem "jwt" tok :: rest)
            ∧ (storage w2 !! "jwt" = Some tok → storage w3 !! "jwt" = Some tok)
            ∧ (truthy profile = false → w3 = w2)
            ∧ (truthy profile = true →
               ∀ text,
                 JSON.stringify profile = Ok (VStr text) →
                 quota_exceeded E (storage w2) "jwt" tok = false →
                 quota_exceeded E (<["jwt" := tok]> (storage w2)) "userdata" text
                 = false →
                 w3 = put "userdata" text (put "jwt" tok w2)
                 ∧ save2 = [EvSetItem "jwt" tok; EvSetItem "userdata" text]))
    as (w3 & save2 & Hsave & Htr3 & Hsave2 & Hnone & Hsome & Hjwt & Hskip & Hboth).
  { destruct (truthy profile) eqn:Hp.
    - destruct (saveSession_spec E (pickToken data) profile w2)
        as (w3 & evs & Hrun & Htr & Hevs & _ & _ & Hst).
      exists w3, evs. split_and!; [done..| | |done|].
      + intros _.
        destruct (saveSession_first_event E _ profile tok w2 w3 Ht Htok Hrun)
          as [rest Hrest].
        rewrite Hrest in Htr. apply app_inv_head in Htr. by exists rest.
      + intros Hw2. destruct (Hst "jwt") as [->|(s & -> & Hw)]; [done|].
        destruct Hw as [(_ & _ & Hs)|(? & _)]; [|done].
        rewrite Htok in Hs. by injection Hs as <-.
      + intros _ text Htext Hq1 Hq2.
        rewrite (saveSession_accepted E _ profile tok text w2) in Hrun by done.
        injection Hrun as <-. split; [done|].
        world_simpl. rewrite <- app_assoc in Htr. by apply app_inv_head in Htr.
    - exists w2, []. rewrite app_nil_r. by split_and!. }
  exists profile, n, w3, warn, save2. cbv zeta.
  assert (js_or profile (VObj []) = if truthy profile then profile else VObj []) as Hor
    by done.
  split_and!; try done.
  - by apply saveSession_token.
  - by apply redirectWithParams_run.
  - rewrite on_submit_open. unfold try_catch at 1.
    rewrite (attempt_login_success E (opened w) res data) by done.
    fold w0.
    unfold mbind at 1, M_bind at 1, bind at 1.
    rewrite (saveSession_token E (pickToken data) tok) by done. fold w1.
    unfold mbind at 1, M_bind at 1, bind at 1.
    unfold fetchUserProfile in Hfetch |- *. rewrite Hfetch.
    unfold mbind at 1, M_bind at 1, bind at 1.
    rewrite Hsave, Hor.
    by rewrite (redirectWithParams_run _ _ tok).
  - world_simpl. rewrite Htr3. unfold w2. world_simpl. rewrite Htr1.
    unfold w0. world_simpl. by rewrite <- !app_assoc.
  - intros Hq. world_simpl. apply Hjwt. unfold w2. world_simpl.
    rewrite Hst1. unfold w0. world_simpl.
    destruct (opened_facts w) as (-> & _). rewrite Hq.
    apply lookup_insert_eq.
  - intros Hp text Htext Hq1 Hq2.
    destruct (Hboth Hp text Htext Hq1 Hq2) as [-> ->].
    split_and!; [done..| |]; world_simpl.
    + by rewrite lookup_insert_ne, lookup_insert_eq.
    + by rewrite lookup_insert_eq.
Qed.

Lemma on_submit_success_order_witness :
  network env_profile (trace (opened world0)) (login_request env_profile)
  = Some (answer 200 (VObj [("jwt", VStr "T2")]))
  ∧ res_ok (answer 200 (VObj [("jwt", VStr "T2")])) = true
  ∧ json_body (answer 200 (VObj [("jwt", VStr "T2")]))
    = Some (VObj [("jwt", VStr "T2")])
  ∧ truthy (pickToken (VObj [("jwt", VStr "T2")])) = true
  ∧ to_string (pickToken (VObj [("jwt", VStr "T2")])) = Ok "T2"
  ∧ ∃ w' text,
      on_submit env_profile world0 = (Ok tt, w')
      ∧ JSON.stringify bob_profile = Ok (VStr text)
      ∧ storage w' !! "jwt" = Some "T2"
      ∧ storage w' !! "userdata" = Some text.
Proof.
  do 5 (split; [reflexivity|]).
  destruct (on_submit_success_order env_profile world0
              (answer 200 (VObj [("jwt", VStr "T2")]))
              (VObj [("jwt", VStr "T2")]) "T2"
              eq_refl eq_refl eq_refl eq_refl eq_refl)
    as (profile & n & w3 & warn & save2 & _ & Hfetch & _ & _ & Hrun & _ & _ & _
        & _ & _ & _ & _ & Hboth).
  apply (f_equal fst) in Hfetch. vm_compute in Hfetch.
  injection Hfetch as <-.
  eexists _, _. split; [exact Hrun|]. split; [reflexivity|].
  destruct (Hboth eq_refl _ eq_refl eq_refl eq_refl) as (_ & _ & Hjwt & Huser).
  split; [exact Hjwt|exact Huser].
Defined.

(** C10: [saveSession] only adds or overwrites entries of the storage.  No
    key is lost, keys other than [jwt] and [userdata] keep their values,
    [jwt] is left alone unless a truthy token is passed and [userdata] unless
    a truthy profile is passed.  Hence a login whose profile resolution
    fails overwrites the stored [jwt], when the storage accepts the write,
    and leaves the [userdata] entry as an earlier login left it. *)
Theorem saveSession_only_adds E w :
  (∀ jwt user,
     ∃ w', saveSession E jwt user w = (Ok tt, w')
           ∧ (∀ k, is_Some (storage w !! k) → is_Some (storage w' !! k))
           ∧ (∀ k, k ≠ "jwt" → k ≠ "userdata" →
                   storage w' !! k = storage w !! k)
           ∧ (truthy jwt = false → storage w' !! "jwt" = storage w !! "jwt")
           ∧ (truthy user = false →
              storage w' !! "userdata" = storage w !! "userdata"))
  ∧ (∀ res data tok,
       network E (trace (opened w)) (login_request E) = Some res →
       res_ok res = true →
       json_body res = Some data →
       truthy (pickToken data) = true →
       to_string (pickToken data) = Ok tok →
       all_fail E tok
         (token_saved E tok (log (EvFetch (login_request E)) (opened w)))
         PROFILE_CANDIDATES →
       ∃ w', on_submit E w = (Ok tt, w')
             ∧ storage w' !! "userdata" = storage w !! "userdata"
             ∧ storage w' !! "jwt"
               = (if quota_exceeded E (storage w) "jwt" tok
                  then storage w !! "jwt" else Some tok)).
Proof.
  split.
  - intros jwt user.
    destruct (saveSession_spec E jwt user w) as (w' & evs & Hrun & _ & _ & _ & _ & Hst).
    exists w'. split_and!; [done|..].
    + intros k Hk. destruct (Hst k) as [->|(s & -> & _)]; [done|by eexists].
    + intros k Hj Hu. destruct (Hst k) as [->|(s & _ & [(? & _)|(? & _)])]; done.
    + intros Hj. destruct (Hst "jwt") as [->|(s & _ & [(_ & ? & _)|(? & _)])];
        [done|congruence|done].
    + intros Hu.
      destruct (Hst "userdata") as [->|(s & _ & [(? & _)|(_ & ? & _)])];
        [done|done|congruence].
  - intros res data tok Hnet Hok Hbody Ht Htok Hall.
    set (w0 := log (EvFetch (login_request E)) (opened w)) in *.
    set (w1 := token_saved E tok w0) in *.
    eexists. split.
    { rewrite on_submit_open. unfold try_catch at 1.
      rewrite (attempt_login_success E (opened w) res data) by done.
      fold w0. unfold mbind at 1, M_bind at 1, bind at 1.
      rewrite (saveSession_token E _ tok) by done. fold w1.
      unfold mbind at 1, M_bind at 1, bind at 1.
      unfold fetchUserProfile.
      rewrite (fetch_first_all_fail E _ _ tok) by done.
      unfold mbind at 1, M_bind at 1, bind at 1. cbn [truthy].
      unfold mret at 1, M_ret at 1, ret at 1.
      by rewrite (redirectWithParams_run _ _ tok). }
    destruct (token_saved_facts E tok w0) as (_ & _ & _ & _ & _ & Hst1).
    fold w1 in Hst1. world_simpl. rewrite Hst1. unfold w0. world_simpl.
    destruct (opened_facts w) as (-> & _).
    destruct (quota_exceeded E (storage w) "jwt" tok); [done|].
    by rewrite lookup_insert_eq, lookup_insert_ne.
Qed.

Lemma saveSession_only_adds_witness :
  network env_no_profile (trace (opened world_returning))
    (login_request env_no_profile)
  = Some (answer 200 (VObj [("access_token", VStr "T1")]))
  ∧ all_fail env_no_profile "T1"
      (token_saved env_no_profile "T1"
         (log (EvFetch (login_request env_no_profile))
            (opened world_returning)))
      PROFILE_CANDIDATES
  ∧ ∃ w', on_submit env_no_profile world_returning = (Ok tt, w')
          ∧ storage w' !! "userdata" = Some "old"
          ∧ storage w' !! "jwt" = Some "T1".
Proof.
  assert (all_fail env_no_profile "T1"
            (token_saved env_no_profile "T1"
               (log (EvFetch (login_request env_no_profile))
                  (opened world_returning)))
            PROFILE_CANDIDATES) as Hall.
  { intros [|[|[|i]]] p Hp; [injection Hp as <-; reflexivity..|discriminate]. }
  split; [reflexivity|]. split; [exact Hall|].
  destruct (proj2 (saveSession_only_adds env_no_profile world_returning)
              (answer 200 (VObj [("access_token", VStr "T1")]))
              (VObj [("access_token", VStr "T1")]) "T1"
              eq_refl eq_refl eq_refl eq_refl eq_refl Hall)
    as (w' & Hrun & Huser & Hjwt).
  exists w'. split; [exact Hrun|]. split; [|exact Hjwt].
  rewrite Huser. reflexivity.
Defined.

(* ----------------------------------------------------------------- *)
(** ** Texts *)

#[local] Arguments String.append : simpl nomatch.

Section string_facts.
Implicit Types (s t : string) (c : ascii).

Lemma string_app_nil_r s : s +:+ "" = s.
Proof. induction s; simpl; congruence. Qed.

Lemma string_app_assoc s t u : (s +:+ t) +:+ u = s +:+ t +:+ u.
Proof. induction s; simpl; congruence. Qed.

Lemma string_app_length s t :
  String.length (s +:+ t) = (String.length s + String.length t)%nat.
Proof. induction s; simpl; congruence. Qed.

Lemma all_chars_app P s t :
  all_chars P (s +:+ t) = all_chars P s && all_chars P t.
Proof.
  induction s as [|c s IH]; simpl; [done|]. rewrite IH. by destruct (P c).
Qed.

Lemma string_take_drop n s : string_take n s +:+ string_drop n s = s.
Proof.
  revert s. induction n as [|n IH]; intros [|c s]; simpl; try done.
  by rewrite IH.
Qed.

Lemma all_chars_take P n s :
  all_chars P s = true → all_chars P (string_take n s) = true.
Proof.
  revert s. induction n as [|n IH]; intros [|c s]; simpl; try done.
  intros [-> ?]%andb_prop. simpl. by apply IH.
Qed.

Lemma all_chars_drop P n s :
  all_chars P s = true → all_chars P (string_drop n s) = true.
Proof.
  revert s. induction n as [|n IH]; intros [|c s]; simpl; try done.
  intros [_ ?]%andb_prop. by apply IH.
Qed.

Lemma string_drop_nonempty n s :
  (n < String.length s)%nat → string_drop n s ≠ "".
Proof.
  revert s. induction n as [|n IH]; intros [|c s]; simpl; try done; try lia.
  intros ?. apply IH. lia.
Qed.

Lemma digits_only_zeros n : digits_only (zeros n) = true.
Proof. induction n; simpl; done. Qed.

End string_facts.

(* ----------------------------------------------------------------- *)
(** ** Numbers are JSON numbers *)

Section number_facts.
Implicit Types (s t rest : string) (c : ascii).

Lemma is_digit_facts c :
  JSON.is_digit c = true →
  Ascii.eqb c "-" = false ∧ Ascii.eqb c "." = false
  ∧ Ascii.eqb c "e" = false ∧ Ascii.eqb c "E" = false
  ∧ JSON.is_ws c = false ∧ value_char c = true.
Proof.
  destruct c as [[] [] [] [] [] [] [] []]; try discriminate; by intros _.
Qed.

Lemma skip_digits_app s rest :
  digits_only s = true → head_is JSON.is_digit rest = false →
  JSON.skip_digits (s +:+ rest) = rest.
Proof.
  intros Hs Hrest. induction s as [|c s IH]; simpl.
  - destruct rest as [|c r]; [done|]. simpl in *. by rewrite Hrest.
  - unfold digits_only in Hs. simpl in Hs. apply andb_prop in Hs as [-> Hs].
    by apply IH.
Qed.

Lemma scan_digits1_app s rest :
  s ≠ "" → digits_only s = true → head_is JSON.is_digit rest = false →
  JSON.scan_digits1 (s +:+ rest) = Some rest.
Proof.
  destruct s as [|c s]; [done|]. intros _ Hs Hrest. simpl in *.
  apply andb_prop in Hs as [-> Hs]. by rewrite skip_digits_app.
Qed.

Lemma stops_number_digit rest :
  stops_number rest = true → head_is JSON.is_digit rest = false.
Proof.
  destruct rest as [|c r]; [done|]. unfold stops_number, number_char. simpl.
  by destruct (JSON.is_digit c).
Qed.

Lemma scan_exp_stop rest :
  stops_number rest = true → JSON.scan_exp rest = Some rest.
Proof.
  destruct rest as [|c r]; [done|]. unfold stops_number, number_char. simpl.
  destruct (JSON.is_digit c), (Ascii.eqb c "."), (Ascii.eqb c "e"),
    (Ascii.eqb c "E"); simpl; done.
Qed.

Lemma scan_frac_stop rest :
  stops_number rest = true → JSON.scan_frac rest = Some rest.
Proof.
  intros H. pose proof (scan_exp_stop rest H) as He.
  destruct rest as [|c r]; [done|]. revert H.
  unfold stops_number, number_char, JSON.scan_frac. simpl.
  destruct (JSON.is_digit c), (Ascii.eqb c "."); simpl; done.
Qed.

Lemma string_of_uint_digits d : digits_only (NilEmpty.string_of_uint d) = true.
Proof. induction d; simpl; done. Qed.

Lemma N_to_string_digits n : digits_only (N_to_string n) = true.
Proof. apply string_of_uint_digits. Qed.

Lemma string_of_uint_nonempty d : d ≠ Decimal.Nil → NilEmpty.string_of_uint d ≠ "".
Proof. by destruct d. Qed.

Lemma N_to_string_nonempty n : N_to_string n ≠ "".
Proof.
  apply string_of_uint_nonempty. destruct n as [|p]; [done|].
  apply DecimalPos.Unsigned.to_uint_nonnil.
Qed.

Lemma nzhead_not_D0 d d' : Decimal.nzhead d ≠ Decimal.D0 d'.
Proof. induction d; simpl; done. Qed.

Lemma pos_to_uint_head p d : Pos.to_uint p ≠ Decimal.D0 d.
Proof.
  intros H.
  pose proof (DecimalPos.Unsigned.to_of (Pos.to_uint p)) as Hn.
  rewrite DecimalPos.Unsigned.of_to in Hn. simpl in Hn.
  rewrite H in Hn. unfold Decimal.unorm in Hn. simpl in Hn.
  destruct (Decimal.nzhead d) eqn:Hd; try discriminate Hn.
  - injection Hn as ->. by apply (DecimalPos.Unsigned.to_uint_nonzero p).
  - by apply nzhead_not_D0 in Hd.
Qed.

(** The digits of a positive number: a first digit that is not zero, then
    digits. *)
Lemma pos_to_string_head p :
  ∃ c t, N_to_string (Npos p) = String c t
         ∧ JSON.is_digit c = true ∧ Ascii.eqb c "0" = false
         ∧ digits_only t = true.
Proof.
  unfold N_to_string. simpl.
  pose proof (string_of_uint_digits (Pos.to_uint p)) as Hd.
  pose proof (pos_to_uint_head p) as H0.
  pose proof (DecimalPos.Unsigned.to_uint_nonnil p) as Hnil.
  destruct (Pos.to_uint p) as [|d|d|d|d|d|d|d|d|d|d]; simpl in *;
    try done; try (by eexists _, _); by destruct (H0 d).
Qed.

End number_facts.

Section number_texts.
Implicit Types (s t rest : string) (c : ascii).

Ltac norm_app :=
  repeat first [rewrite string_app_assoc
               |progress cbn [String.append string_take string_drop]].

Lemma scan_int_digits c t rest :
  JSON.is_digit c = true → Ascii.eqb c "0" = false →
  digits_only t = true → head_is JSON.is_digit rest = false →
  JSON.scan_int (String c (t +:+ rest)) = JSON.scan_frac rest.
Proof.
  intros Hc H0 Ht Hrest. simpl. rewrite H0, Hc. by rewrite skip_digits_app.
Qed.

Lemma scan_frac_point s rest :
  s ≠ "" → digits_only s = true → head_is JSON.is_digit rest = false →
  JSON.scan_frac (String "." (s +:+ rest)) = JSON.scan_exp rest.
Proof. intros. simpl. by rewrite scan_digits1_app. Qed.

Lemma scan_exp_sign (plus : bool) s rest :
  s ≠ "" → digits_only s = true → stops_number rest = true →
  JSON.scan_exp (String "e" ((if plus then "+" else "-") +:+ s +:+ rest))
  = Some rest.
Proof.
  intros Hne Hs Hrest. apply stops_number_digit in Hrest.
  destruct plus; simpl; by apply scan_digits1_app.
Qed.

Lemma scan_int_finite c t n rest :
  JSON.is_digit c = true → Ascii.eqb c "0" = false →
  digits_only t = true → stops_number rest = true →
  JSON.scan_int (finite_to_string (String c t) n +:+ rest) = Some rest.
Proof.
  intros Hc H0 Ht Hrest.
  pose proof (stops_number_digit rest Hrest) as Hrd.
  unfold finite_to_string.
  set (k := Z.of_nat (String.length (String c t))).
  assert (k = Z.of_nat (S (String.length t))) as Hk by done.
  destruct ((-5 <=? n) && (n <=? 21)) eqn:Hrange.
  - destruct (Z.leb_spec k n) as [Hkn|Hkn].
    + (* digits, then zeros *)
      cbn [String.append].
      rewrite scan_int_digits; [by apply scan_frac_stop|done..| |done].
      unfold digits_only in *. by rewrite all_chars_app, Ht, (digits_only_zeros _).
    + destruct (Z.ltb_spec 0 n) as [Hn|Hn].
      * (* a point inside the digits *)
        destruct (Z.to_nat n) as [|m] eqn:Hm; [lia|]. norm_app.
        rewrite scan_int_digits; [|done|done|by apply all_chars_take|done].
        rewrite scan_frac_point; [by apply scan_exp_stop| | |done].
        -- apply string_drop_nonempty. lia.
        -- by apply all_chars_drop.
      * (* zeros after the point, then the digits *)
        norm_app. cbn [JSON.scan_int Ascii.eqb Bool.eqb].
        change (String c (t +:+ rest)) with (String c t +:+ rest).
        rewrite <- string_app_assoc.
        rewrite scan_frac_point; [by apply scan_exp_stop| | |done].
        -- by destruct (zeros _).
        -- unfold digits_only in *. rewrite all_chars_app, (digits_only_zeros _). simpl.
           by rewrite Hc, Ht.
  - set (e := N_to_string (Z.abs_N (n - 1))).
    assert (e ≠ "") as He by apply N_to_string_nonempty.
    assert (digits_only e = true) as Hed by apply N_to_string_digits.
    destruct (Z.eqb_spec k 1) as [Hk1|Hk1].
    + (* one digit and an exponent *)
      assert (t = "") as -> by (destruct t; [done|simpl in Hk; lia]).
      norm_app. change (String "e" ?x) with ("" +:+ String "e" x).
      rewrite scan_int_digits; [|done|done|done|done].
      change (JSON.scan_frac (String "e" ?x)) with (JSON.scan_exp (String "e" x)).
      destruct (0 <=? n - 1);
        [by apply (scan_exp_sign true e)|by apply (scan_exp_sign false e)].
    + (* a digit, a point, digits and an exponent *)
      norm_app. change (String "." ?x) with ("" +:+ String "." x).
      rewrite scan_int_digits; [|done|done|done|done].
      rewrite scan_frac_point; [|by destruct t; [simpl in Hk; lia|]|done|done].
      destruct (0 <=? n - 1);
        [by apply (scan_exp_sign true e)|by apply (scan_exp_sign false e)].
Qed.

Lemma scan_number_text x rest :
  JSON.is_finite x = true → stops_number rest = true →
  JSON.scan_number (number_to_string x +:+ rest) = Some rest.
Proof.
  intros Hx Hrest. destruct x as [| |neg|neg mant e]; try done.
  - simpl. by apply scan_frac_stop.
  - unfold number_to_string.
    destruct (pos_to_string_head mant) as (c & t & -> & Hc & H0 & Ht).
    pose proof (scan_int_finite c t (e + Z.of_nat (String.length (String c t)))
                  rest Hc H0 Ht Hrest) as Hscan.
    destruct neg.
    + rewrite string_app_assoc. exact Hscan.
    + change ("" +:+ ?x) with x.
      destruct (finite_to_string (String c t) _ +:+ rest) as [|a r] eqn:Htxt;
        [done|].
      unfold JSON.scan_number.
      destruct (Ascii.eqb_spec a "-") as [->|]; [|done].
      simpl in Hscan. done.
Qed.

Lemma number_text_head x :
  JSON.is_finite x = true →
  head_is (λ c, JSON.is_digit c || Ascii.eqb c "-") (number_to_string x) = true.
Proof.
  destruct x as [| |neg|neg mant e]; try done. intros _.
  unfold number_to_string.
  destruct (pos_to_string_head mant) as (c & t & -> & Hc & H0 & Ht).
  destruct neg; [done|]. change ("" +:+ ?x) with x.
  unfold finite_to_string.
  set (n := e + Z.of_nat (String.length (String c t))).
  destruct (_ && _).
  - destruct (_ <=? n); [by simpl; rewrite Hc|].
    destruct (Z.ltb_spec 0 n); [|done].
    destruct (Z.to_nat n) eqn:Hn; [lia|by simpl; rewrite Hc].
  - destruct (_ =? 1); by simpl; rewrite Hc.
Qed.

End number_texts.

(* ----------------------------------------------------------------- *)
(** ** Serialised values are JSON texts *)

Section json_texts.
Implicit Types (s t rest : string) (c : ascii) (v : value).

Lemma scan_string_escape_char c rest :
  JSON.scan_string (JSON.escape_char c +:+ rest) = JSON.scan_string rest.
Proof. destruct c as [[] [] [] [] [] [] [] []]; reflexivity. Qed.

Lemma scan_string_escape s rest :
  JSON.scan_string (JSON.escape s +:+ String JSON.dquote rest) = Some rest.
Proof.
  induction s as [|c s IH]; [done|]. cbn [JSON.escape].
  by rewrite string_app_assoc, scan_string_escape_char.
Qed.

Lemma value_char_facts c :
  value_char c = true →
  JSON.is_ws c = false ∧ Ascii.eqb c "]" = false ∧ Ascii.eqb c "}" = false.
Proof.
  destruct c as [[] [] [] [] [] [] [] []]; try discriminate; by intros _.
Qed.

Lemma number_char_start c :
  JSON.is_digit c || Ascii.eqb c "-" = true →
  JSON.is_ws c = false ∧ value_char c = true.
Proof.
  destruct c as [[] [] [] [] [] [] [] []]; try discriminate; by intros _.
Qed.

Lemma scan_value_S fuel s :
  JSON.scan_value (S fuel) s
  = match JSON.skip_ws s with
    | String c r =>
        if JSON.is_digit c || Ascii.eqb c "-" then JSON.scan_number (String c r)
        else if Ascii.eqb c JSON.dquote then JSON.scan_string r
        else if Ascii.eqb c "t" then JSON.strip_prefix "rue" r
        else if Ascii.eqb c "f" then JSON.strip_prefix "alse" r
        else if Ascii.eqb c "n" then JSON.strip_prefix "ull" r
        else if Ascii.eqb c "[" then
          match JSON.skip_ws r with
          | String c' r' =>
              if Ascii.eqb c' "]" then Some r' else JSON.scan_elements fuel r
          | "" => None
          end
        else if Ascii.eqb c "{" then
          match JSON.skip_ws r with
          | String c' r' =>
              if Ascii.eqb c' "}" then Some r' else JSON.scan_members fuel r
          | "" => None
          end
        else None
    | "" => None
    end.
Proof. reflexivity. Qed.

Lemma scan_elements_S fuel s :
  JSON.scan_elements (S fuel) s
  = match JSON.scan_value fuel s with
    | Some r =>
        match JSON.skip_ws r with
        | String c r' =>
            if Ascii.eqb c "," then JSON.scan_elements fuel r'
            else if Ascii.eqb c "]" then Some r'
            else None
        | "" => None
        end
    | None => None
    end.
Proof. reflexivity. Qed.

Lemma scan_members_S fuel s :
  JSON.scan_members (S fuel) s
  = match JSON.skip_ws s with
    | String q r =>
        if Ascii.eqb q JSON.dquote then
          match JSON.scan_string r with
          | Some r1 =>
              match JSON.skip_ws r1 with
              | String c r2 =>
                  if Ascii.eqb c ":" then
                    match JSON.scan_value fuel r2 with
                    | Some r3 =>
                        match JSON.skip_ws r3 with
                        | String d r4 =>
                            if Ascii.eqb d "," then JSON.scan_members fuel r4
                            else if Ascii.eqb d "}" then Some r4
                            else None
                        | "" => None
                        end
                    | None => None
                    end
                  else None
              | "" => None
              end
          | None => None
          end
        else None
    | "" => None
    end.
Proof. reflexivity. Qed.

Lemma scannable_literal t :
  t = "null" ∨ t = "true" ∨ t = "false" → scannable t.
Proof.
  intros Ht. split; [by destruct Ht as [->|[->| ->]]|].
  intros [|fuel] rest Hf _; [lia|].
  by destruct Ht as [->|[->| ->]].
Qed.

Lemma scannable_number x :
  JSON.is_finite x = true → scannable (number_to_string x).
Proof.
  intros Hx. pose proof (number_text_head x Hx) as Hhead.
  destruct (number_to_string x) as [|c t] eqn:Htext; [done|].
  simpl in Hhead. destruct (number_char_start c Hhead) as [Hws Hv].
  split; [done|]. intros [|fuel] rest Hf Hrest; [simpl in Hf; lia|].
  rewrite scan_value_S. cbn [String.append JSON.skip_ws]. rewrite Hws, Hhead.
  change (String c (t +:+ rest)) with (String c t +:+ rest).
  rewrite <- Htext. by apply scan_number_text.
Qed.

Lemma scannable_quote s : scannable (JSON.quote s).
Proof.
  split; [done|]. intros [|fuel] rest Hf _; [simpl in Hf; lia|].
  rewrite scan_value_S. unfold JSON.quote. cbn [String.append].
  rewrite string_app_assoc. cbn [String.append].
  change (JSON.skip_ws (String JSON.dquote ?x)) with (String JSON.dquote x).
  cbv beta iota.
  change (JSON.is_digit JSON.dquote || Ascii.eqb JSON.dquote "-") with false.
  change (Ascii.eqb JSON.dquote JSON.dquote) with true. cbv iota.
  apply scan_string_escape.
Qed.

Lemma skip_ws_value t rest :
  head_is value_char t = true →
  ∃ c r, t +:+ rest = String c r ∧ JSON.skip_ws (t +:+ rest) = String c r
         ∧ value_char c = true.
Proof.
  destruct t as [|c t]; [done|]. simpl. intros Hc.
  exists c, (t +:+ rest). destruct (value_char_facts c Hc) as (-> & _). done.
Qed.

Lemma concat_cons sep t t' ss :
  String.concat sep (t :: t' :: ss) = t +:+ sep +:+ String.concat sep (t' :: ss).
Proof. reflexivity. Qed.

Lemma skip_ws_cons c r : JSON.is_ws c = false → JSON.skip_ws (String c r) = String c r.
Proof. intros H. simpl. by rewrite H. Qed.

Lemma scan_elements_texts ss :
  ss ≠ [] → Forall scannable ss →
  ∀ fuel rest,
    (String.length (String.concat "," ss) + 1 < fuel)%nat →
    JSON.scan_elements fuel (String.concat "," ss +:+ "]" +:+ rest)
    = Some rest.
Proof.
  induction ss as [|t ss IH]; [done|]. intros _ Hss [|fuel] rest Hf; [lia|].
  apply Forall_cons in Hss as [[Hhead Ht] Hss].
  rewrite scan_elements_S. destruct ss as [|t' ss].
  - change (String.concat "," [t]) with t in *. rewrite Ht; [done|lia|done].
  - rewrite concat_cons in *. rewrite !string_app_length in Hf.
    rewrite !string_app_assoc. rewrite Ht; [|lia|done].
    change ("," +:+ ?x) with (String "," x). rewrite skip_ws_cons by done.
    change (Ascii.eqb "," ",") with true. cbv iota.
    apply IH; [done|done|]. change (String.length ",") with 1%nat in Hf. lia.
Qed.

Lemma scannable_array ss :
  Forall scannable ss → scannable ("[" +:+ String.concat "," ss +:+ "]").
Proof.
  intros Hss. split; [done|]. intros [|fuel] rest Hf _; [lia|].
  rewrite scan_value_S, !string_app_assoc. cbn [String.append JSON.skip_ws].
  change (JSON.is_ws "[") with false. cbv iota.
  change (JSON.is_digit "[" || Ascii.eqb "[" "-") with false.
  change (Ascii.eqb "[" JSON.dquote) with false.
  change (Ascii.eqb "[" "t") with false. change (Ascii.eqb "[" "f") with false.
  change (Ascii.eqb "[" "n") with false. change (Ascii.eqb "[" "[") with true.
  cbv iota.
  destruct ss as [|t ss]; [done|].
  assert (head_is value_char (String.concat "," (t :: ss)) = true) as Hhead.
  { apply Forall_cons in Hss as [[Hhead _] _].
    destruct ss; cbn [String.concat]; [done|]. by destruct t. }
  destruct (skip_ws_value _ (String "]" rest) Hhead) as (c & r & Heq & -> & Hc).
  destruct (value_char_facts c Hc) as (_ & -> & _).
  apply (scan_elements_texts (t :: ss)); [done|done|].
  rewrite !string_app_length in Hf.
  change (String.length "[") with 1%nat in Hf.
  change (String.length "]") with 1%nat in Hf. lia.
Qed.

Lemma scan_members_texts ms :
  ms ≠ [] → Forall member_text ms →
  ∀ fuel rest,
    (String.length (String.concat "," ms) + 1 < fuel)%nat →
    JSON.scan_members fuel (String.concat "," ms +:+ "}" +:+ rest)
    = Some rest.
Proof.
  induction ms as [|m ms IH]; [done|]. intros _ Hms [|fuel] rest Hf; [lia|].
  apply Forall_cons in Hms as [(k & t & -> & Hhead & Ht) Hms].
  rewrite scan_members_S.
  assert (∀ x, (JSON.quote k +:+ ":" +:+ t) +:+ x
               = String JSON.dquote
                   (JSON.escape k +:+ String JSON.dquote (String ":" (t +:+ x))))
    as Hmember.
  { intros x. unfold JSON.quote.
    by repeat first [rewrite string_app_assoc|progress cbn [String.append]]. }
  destruct ms as [|m' ms].
  - change (String.concat "," [?m]) with m in *.
    rewrite !string_app_length in Hf.
    rewrite Hmember, skip_ws_cons by done.
    change (Ascii.eqb JSON.dquote JSON.dquote) with true. cbv iota.
    rewrite scan_string_escape, skip_ws_cons by done.
    change (Ascii.eqb ":" ":") with true. cbv iota.
    rewrite Ht; [done|lia|done].
  - rewrite concat_cons in *. rewrite !string_app_length in Hf.
    rewrite (string_app_assoc (JSON.quote k +:+ ":" +:+ t)).
    rewrite Hmember, skip_ws_cons by done.
    change (Ascii.eqb JSON.dquote JSON.dquote) with true. cbv iota.
    rewrite scan_string_escape, skip_ws_cons by done.
    change (Ascii.eqb ":" ":") with true. cbv iota.
    rewrite !string_app_assoc. rewrite Ht; [|lia|done].
    change ("," +:+ ?x) with (String "," x). rewrite skip_ws_cons by done.
    change (Ascii.eqb "," ",") with true. cbv iota.
    apply IH; [done|done|]. change (String.length ",") with 1%nat in Hf. lia.
Qed.

Lemma scannable_object ms :
  Forall member_text ms → scannable ("{" +:+ String.concat "," ms +:+ "}").
Proof.
  intros Hms. split; [done|]. intros [|fuel] rest Hf _; [lia|].
  rewrite scan_value_S, !string_app_assoc. cbn [String.append JSON.skip_ws].
  change (JSON.is_ws "{") with false. cbv iota.
  change (JSON.is_digit "{" || Ascii.eqb "{" "-") with false.
  change (Ascii.eqb "{" JSON.dquote) with false.
  change (Ascii.eqb "{" "t") with false. change (Ascii.eqb "{" "f") with false.
  change (Ascii.eqb "{" "n") with false. change (Ascii.eqb "{" "[") with false.
  change (Ascii.eqb "{" "{") with true. cbv iota.
  destruct ms as [|m ms]; [done|].
  assert (∃ r, String.concat "," (m :: ms) +:+ String "}" rest
               = String JSON.dquote r) as [r Hr].
  { apply Forall_cons in Hms as [(k & t & -> & _) _].
    destruct ms; cbn [String.concat]; unfold JSON.quote; by eexists. }
  rewrite Hr at 1. cbn [JSON.skip_ws]. change (JSON.is_ws JSON.dquote) with false.
  cbv iota. change (Ascii.eqb JSON.dquote "}") with false. cbv iota.
  apply (scan_members_texts (m :: ms)); [done|done|].
  rewrite !string_app_length in Hf.
  change (String.length "{") with 1%nat in Hf.
  change (String.length "}") with 1%nat in Hf. lia.
Qed.

Lemma value_ind_nested (P : value → Prop) :
  P VUndefined → P VNull → (∀ b, P (VBool b)) → (∀ n, P (VNum n)) →
  (∀ z, P (VBigInt z)) → (∀ s, P (VStr s)) →
  (∀ l, Forall P l → P (VArr l)) →
  (∀ o, Forall (λ kv, P kv.2) o → P (VObj o)) →
  ∀ v, P v.
Proof.
  intros Hu Hn Hb Hnum Hz Hs Harr Hobj. fix IH 1.
  intros [| |b|n|z|s|l|o];
    [exact Hu|exact Hn|apply Hb|apply Hnum|apply Hz|apply Hs| |].
  - apply Harr. induction l as [|e l IHl]; constructor; [apply IH|apply IHl].
  - apply Hobj. induction o as [|[k e] o IHo]; constructor; [apply IH|apply IHo].
Qed.

Lemma serialize_array l :
  JSON.serialize (VArr l)
  = rbind (serialize_elements l)
          (λ ss, Ok (Some ("[" +:+ String.concat "," ss +:+ "]"))).
Proof.
  reflexivity.
Qed.

Lemma serialize_object o :
  JSON.serialize (VObj o)
  = rbind (serialize_members o)
          (λ ms, Ok (Some ("{" +:+ String.concat "," ms +:+ "}"))).
Proof.
  reflexivity.
Qed.

(** Whatever [JSON.serialize] returns is the text of one JSON value. *)
Lemma serialize_scannable v t : JSON.serialize v = Ok (Some t) → scannable t.
Proof.
  revert t. induction v as [| |b|n|z|s|l IH|o IH] using value_ind_nested;
    intros t.
  - done.
  - intros [= <-]. apply scannable_literal. by left.
  - intros [= <-]. apply scannable_literal. destruct b; auto.
  - intros [= <-]. destruct (JSON.is_finite n) eqn:Hn.
    + by apply scannable_number.
    + apply scannable_literal. by left.
  - done.
  - intros [= <-]. apply scannable_quote.
  - rewrite serialize_array.
    destruct (serialize_elements l) as [ss|] eqn:Hss; [|done].
    intros [= <-]. apply scannable_array.
    revert ss Hss. induction IH as [|e l He _ IHl]; intros ss.
    + intros [= <-]. constructor.
    + cbn [serialize_elements].
      destruct (JSON.serialize e) as [s|] eqn:Hs; [|done].
      destruct (serialize_elements l) as [ss'|]; [|done].
      intros [= <-]. constructor; [|by apply IHl].
      destruct s as [t|]; [by apply He|]. apply scannable_literal. by left.
  - rewrite serialize_object.
    destruct (serialize_members o) as [ms|] eqn:Hms; [|done].
    intros [= <-]. apply scannable_object.
    revert ms Hms. induction IH as [|[k e] o He _ IHo]; intros ms.
    + intros [= <-]. constructor.
    + cbn [serialize_members].
      destruct (JSON.serialize e) as [s|] eqn:Hs; [|done].
      destruct (serialize_members o) as [ms'|]; [|done].
      destruct s as [t|]; intros [= <-]; [|by apply IHo].
      constructor; [|by apply IHo]. exists k, t. split; [done|by apply He].
Qed.

Lemma scannable_is_json t : scannable t → JSON.is_json t = true.
Proof.
  intros [_ Ht]. unfold JSON.is_json.
  pose proof (Ht (S (String.length t)) "") as H.
  rewrite string_app_nil_r in H. rewrite H; [done|lia|done].
Qed.

(** The text of the [userdata] parameter is a JSON text. *)
Lemma userdata_text_json user : JSON.is_json (userdata_text user) = true.
Proof.
  unfold userdata_text.
  destruct (JSON.serialize (js_coalesce user (VObj []))) as [[t|]|] eqn:Ht;
    try done.
  by apply scannable_is_json, (serialize_scannable _ _ Ht).
Qed.

End json_texts.

(* ----------------------------------------------------------------- *)
(** ** Query strings *)

Section query_strings.
Implicit Types (s t : string) (c : ascii) (l : list (string * string)).

Lemma encode_byte_safe c : all_chars not_separator (URL.encode_byte c) = true.
Proof. destruct c as [[] [] [] [] [] [] [] []]; reflexivity. Qed.

Lemma encode_safe s : all_chars not_separator (URL.encode s) = true.
Proof.
  induction s as [|c s IH]; [done|]. cbn [URL.encode].
  by rewrite all_chars_app, encode_byte_safe, IH.
Qed.

Lemma decode_encode_byte c t :
  URL.decode (URL.encode_byte c +:+ t) = String c (URL.decode t).
Proof. destruct c as [[] [] [] [] [] [] [] []]; reflexivity. Qed.

Lemma decode_encode s : URL.decode (URL.encode s) = s.
Proof.
  induction s as [|c s IH]; [done|]. cbn [URL.encode].
  by rewrite decode_encode_byte, IH.
Qed.

Lemma all_chars_impl (P Q : ascii → bool) s :
  (∀ c, P c = true → Q c = true) →
  all_chars P s = true → all_chars Q s = true.
Proof.
  intros HPQ. induction s as [|c s IH]; [done|]. simpl.
  intros [Hc Hs]%andb_prop. by rewrite (HPQ c Hc), IH.
Qed.

Lemma encode_without sep s :
  sep = "&"%char ∨ sep = "="%char →
  all_chars (λ c, negb (Ascii.eqb c sep)) (URL.encode s) = true.
Proof.
  intros Hsep. apply (all_chars_impl not_separator); [|apply encode_safe].
  intros c. unfold not_separator.
  destruct Hsep as [-> | ->];
    by destruct (Ascii.eqb c "&"), (Ascii.eqb c "=").
Qed.

Lemma split_first_without sep s t :
  all_chars (λ c, negb (Ascii.eqb c sep)) s = true →
  URL.split_first sep (s +:+ String sep t) = (s, t).
Proof.
  induction s as [|c s IH]; simpl.
  - by rewrite Ascii.eqb_refl.
  - intros [Hc Hs]%andb_prop. apply negb_true_iff in Hc as ->. by rewrite IH.
Qed.

Lemma split_on_without sep s :
  all_chars (λ c, negb (Ascii.eqb c sep)) s = true →
  URL.split_on sep s = [s].
Proof.
  induction s as [|c s IH]; [done|]. simpl.
  intros [Hc Hs]%andb_prop. apply negb_true_iff in Hc as ->. by rewrite IH.
Qed.

Lemma split_on_without_app sep s t :
  all_chars (λ c, negb (Ascii.eqb c sep)) s = true →
  URL.split_on sep (s +:+ String sep t) = s :: URL.split_on sep t.
Proof.
  induction s as [|c s IH]; simpl.
  - by rewrite Ascii.eqb_refl.
  - intros [Hc Hs]%andb_prop. apply negb_true_iff in Hc as ->. by rewrite IH.
Qed.

(** A sequence of the query string: an encoded name, [=] and an encoded
    value.  It is not empty, holds no [&], and splits at its [=]. *)
Lemma sequence_facts (k v : string) :
  URL.encode k +:+ "=" +:+ URL.encode v ≠ ""
  ∧ all_chars (λ c, negb (Ascii.eqb c "&"))
      (URL.encode k +:+ "=" +:+ URL.encode v) = true
  ∧ URL.split_first "=" (URL.encode k +:+ "=" +:+ URL.encode v)
    = (URL.encode k, URL.encode v).
Proof.
  split_and!.
  - by destruct (URL.encode k).
  - rewrite !all_chars_app, !encode_without by auto. done.
  - apply split_first_without, encode_without. by right.
Qed.

(** Parsing what the serialiser wrote gives the pairs back. *)
Lemma parse_serialize l : URL.parse (URL.serialize l) = l.
Proof.
  unfold URL.parse, URL.serialize.
  assert (∀ l, l ≠ [] →
            URL.split_on "&"
              (String.concat "&"
                 (map (λ kv, URL.encode kv.1 +:+ "=" +:+ URL.encode kv.2) l))
            = map (λ kv, URL.encode kv.1 +:+ "=" +:+ URL.encode kv.2) l)
    as Hsplit.
  { clear l. induction l as [|[k v] l IH]; [done|]. intros _.
    destruct (sequence_facts k v) as (_ & Hamp & _).
    destruct l as [|kv' l].
    - simpl. by apply split_on_without.
    - cbn [map]. rewrite concat_cons. cbn [fst snd].
      change ("&" +:+ ?x) with (String "&" x).
      rewrite split_on_without_app by done. f_equal. by apply IH. }
  destruct l as [|kv l]; [done|]. rewrite Hsplit by done.
  generalize (kv :: l). clear. intros l.
  induction l as [|[k v] l IH]; [done|].
  destruct (sequence_facts k v) as (Hne & _ & Hsplit).
  cbn [map fst snd]. rewrite filter_cons_True by done.
  cbn [map]. rewrite Hsplit, !decode_encode. f_equal. apply IH.
Qed.

End query_strings.

(* ----------------------------------------------------------------- *)
(** ** The redirect builder *)

(** C7: for a token that converts to the string [tok] and for any profile,
    the redirect builder navigates to the destination followed by a query
    string with exactly the three parameters [jwt], [browser_url] and
    [userdata].  The value of [userdata] is always a JSON text: the
    serialisation of the profile when the profile is present and serialises,
    and the text of the empty object when the profile is absent or its
    serialisation throws. *)
Theorem redirect_query_and_userdata jwt tok user w :
  to_string jwt = Ok tok →
  ∃ userdata qs,
    redirectWithParams jwt user w
    = (Ok tt, go (FRONT_REDIRECT +:+ "?" +:+ qs) w)
    ∧ URL.parse qs = [("jwt", tok); ("browser_url", BROWSER_URL);
                      ("userdata", userdata)]
    ∧ JSON.is_json userdata = true
    ∧ (nullish user = false →
       ∀ s, JSON.stringify user = Ok (VStr s) → userdata = s)
    ∧ (nullish user = true → userdata = "{}")
    ∧ (∀ e, JSON.stringify user = Throw e → userdata = "{}").
Proof.
  intros Htok.
  exists (userdata_text user),
         (URL.serialize [("jwt", tok); ("browser_url", BROWSER_URL);
                         ("userdata", userdata_text user)]).
  split_and!.
  - by apply redirectWithParams_run.
  - apply parse_serialize.
  - apply userdata_text_json.
  - intros Hn s Hs. unfold userdata_text, js_coalesce. rewrite Hn.
    destruct (stringify_result _ _ Hs) as [[_ ?]|(s' & -> & [= ->])]; done.
  - intros Hn. unfold userdata_text, js_coalesce. by rewrite Hn.
  - intros e He. unfold userdata_text, js_coalesce.
    destruct (nullish user) eqn:Hn; [by destruct user|].
    revert He. unfold JSON.stringify.
    by destruct (JSON.serialize user) as [[?|]|].
Qed.

Lemma redirect_query_and_userdata_witness :
  to_string (VStr "T1") = Ok "T1"
  ∧ ∃ userdata qs,
      redirectWithParams (VStr "T1") VNull world0
      = (Ok tt, go (FRONT_REDIRECT +:+ "?" +:+ qs) world0)
      ∧ URL.parse qs = [("jwt", "T1"); ("browser_url", BROWSER_URL);
                        ("userdata", userdata)]
      ∧ JSON.is_json userdata = true
      ∧ userdata = "{}".
Proof.
  split; [reflexivity|].
  destruct (redirect_query_and_userdata (VStr "T1") "T1" VNull world0 eq_refl)
    as (userdata & qs & Hrun & Hparse & Hjson & _ & Hnull & _).
  exists userdata, qs. split; [exact Hrun|]. split; [exact Hparse|].
  split; [exact Hjson|]. apply Hnull. reflexivity.
Defined.

(* ================================================================= *)
(** * Further properties of the script *)

(* ----------------------------------------------------------------- *)
(** ** The token extractor *)

(** A value other than an object has only index keys, if any: it holds no
    key that is not made of digits. *)
Lemma own_props_index_keys (data : value) (k : string) :
  (∀ o, data ≠ VObj o) →
  digits_only k = false →
  lookup_prop k (own_props data) = None.
Proof.
  intros Hdata Hk.
  assert (∀ i, k ≠ index_key i) as Hindex.
  { intros i ->. unfold index_key in Hk. by rewrite N_to_string_digits in Hk. }
  destruct data as [| | | | |s|l|o]; simpl; try done.
  - apply lookup_prop_None. intros ([k' v] & -> & Hin)%list_elem_of_fmap.
    apply elem_of_lookup_imap in Hin as (i & c & [= -> _] & _).
    by apply (Hindex i).
  - apply lookup_prop_None. intros ([k' v] & -> & Hin)%list_elem_of_fmap.
    apply elem_of_lookup_imap in Hin as (i & e & [= -> _] & _).
    by apply (Hindex i).
  - by destruct (Hdata o).
Qed.

(** X1: [pickToken] never returns a falsy value other than [null].  Its
    result is [null], or a truthy value that the response holds in one of
    the fields [access_token], [jwt], [token].  For a response that is not
    an object ([null] and [undefined], for which the optional chaining
    avoids a throw, a boolean, a number, a string, an array) the result is
    [null]. *)
Theorem pickToken_null_or_truthy (data : value) :
  (pickToken data = VNull
   ∨ (truthy (pickToken data) = true
      ∧ ∃ k, k ∈ token_fields ∧ get_opt data k = pickToken data))
  ∧ ((∀ o, data ≠ VObj o) → pickToken data = VNull).
Proof.
  split.
  - unfold pickToken, js_or, token_fields.
    destruct (truthy (get_opt data "access_token")) eqn:Ha; rewrite ?Ha.
    { right. split; [done|]. exists "access_token". split; [left|done]. }
    destruct (truthy (get_opt data "jwt")) eqn:Hj; rewrite ?Hj.
    { right. split; [done|]. exists "jwt". split; [right; left|done]. }
    destruct (truthy (get_opt data "token")) eqn:Hk; rewrite ?Hk.
    { right. split; [done|]. exists "token".
      split; [right; right; left|done]. }
    by left.
  - intros Hdata.
    assert (∀ k, digits_only k = false → get_opt data k = VUndefined) as Hget.
    { intros k Hk. unfold get_opt.
      rewrite (own_props_index_keys data k Hdata Hk). by destruct data. }
    unfold pickToken. by rewrite !Hget.
Qed.

(** X2: the fallbacks of [pickToken].  When [access_token] is missing or
    falsy, a truthy [jwt] is returned; when [jwt] is missing or falsy too, a
    truthy [token] is returned; and when that one is missing or falsy as
    well the result is [null]. *)
Theorem pickToken_fallback (o : props) :
  truthy (get_opt (VObj o) "access_token") = false →
  (∀ j, lookup_prop "jwt" o = Some j → truthy j = true →
        pickToken (VObj o) = j)
  ∧ (truthy (get_opt (VObj o) "jwt") = false →
     (∀ t, lookup_prop "token" o = Some t → truthy t = true →
           pickToken (VObj o) = t)
     ∧ (truthy (get_opt (VObj o) "token") = false →
        pickToken (VObj o) = VNull)).
Proof.
  intros Ha. unfold pickToken, js_or. rewrite Ha. split.
  - intros j Hj Ht. unfold get_opt, own_props. rewrite Hj. simpl.
    by rewrite Ht, Ht.
  - intros Hj. rewrite Hj. split.
    + intros t Hk Ht. unfold get_opt, own_props. rewrite Hk. simpl.
      by rewrite Ht.
    + intros Hk. by rewrite Hk.
Qed.

Lemma pickToken_fallback_witness :
  truthy (get_opt (VObj [("access_token", VStr ""); ("token", VStr "K");
                         ("jwt", VStr "J")]) "access_token") = false
  ∧ pickToken (VObj [("access_token", VStr ""); ("token", VStr "K");
                     ("jwt", VStr "J")]) = VStr "J".
Proof.
  split; [reflexivity|].
  exact (proj1 (pickToken_fallback
                  [("access_token", VStr ""); ("token", VStr "K");
                   ("jwt", VStr "J")] eq_refl)
           (VStr "J") eq_refl eq_refl).
Defined.

(* ----------------------------------------------------------------- *)
(** ** The profile normaliser *)

Lemma get_own_props (data : value) (k : string) :
  nullish data = false →
  get data k = Ok (default VUndefined (lookup_prop k (own_props data))).
Proof. by destruct data. Qed.

(** The normaliser on any body other than [null] and [undefined]. *)
Lemma normalize_own_props (data : value) :
  nullish data = false →
  normalize data
  = Ok (VObj (spread (canonical_entries (own_props data)) data)).
Proof.
  intros Hn. unfold normalize. rewrite !get_own_props by done.
  rewrite !coalesce_first_match, coalesce_first_match1. reflexivity.
Qed.

(** X3: the normaliser throws a [TypeError] exactly on the bodies [null]
    and [undefined], of which no field can be read, and returns an object
    for every other body, a string or a number included. *)
Theorem normalize_defined (data : value) :
  (normalize data = Throw TypeError ↔ nullish data = true)
  ∧ ((∃ o, normalize data = Ok (VObj o)) ↔ nullish data = false).
Proof.
  destruct (nullish data) eqn:Hn.
  - assert (normalize data = Throw TypeError) as -> by by destruct data.
    split; [done|]. split; [by intros [o ?]|done].
  - rewrite normalize_own_props by done. split; [done|].
    split; [done|]. intros _. by eexists.
Qed.

Section keys.
Implicit Types (o l : props) (k : string) (v : value).

Local Abbreviation set_entry := (λ acc kv, set_prop acc kv.1 kv.2).

Lemma keys_set_prop k k' v o :
  k' ∈ (set_prop o k v).*1 ↔ k' = k ∨ k' ∈ o.*1.
Proof.
  rewrite <- !has_prop_true. unfold has_prop.
  destruct (decide (k' = k)) as [->|Hne].
  - rewrite lookup_set_prop_eq. split; [intros _; by left|done].
  - rewrite lookup_set_prop_ne by done. split; [by right|by intros [?|?]].
Qed.

Lemma keys_insert_index_perm n k v o :
  (insert_index n k v o).*1 ≡ₚ k :: o.*1.
Proof.
  induction o as [|[k1 v1] o IH]; csimpl; [done|].
  destruct (array_index k1) as [m|]; [destruct (m <? n)%N|]; csimpl;
    try done.
  rewrite IH. apply Permutation_swap.
Qed.

Lemma NoDup_set_prop k v o : NoDup o.*1 → NoDup (set_prop o k v).*1.
Proof.
  intros Ho. unfold set_prop. destruct (has_prop k o) eqn:Hk.
  - by rewrite keys_replace_prop.
  - apply has_prop_false in Hk. destruct (array_index k).
    + rewrite keys_insert_index_perm. by apply NoDup_cons.
    + rewrite fmap_app. apply NoDup_app.
      split_and!; [done| |apply NoDup_singleton].
      intros x Hx ->%list_elem_of_singleton. done.
Qed.

Lemma keys_fold_set_prop k l o :
  k ∈ (fold_left set_entry l o).*1 ↔ k ∈ o.*1 ∨ k ∈ l.*1.
Proof.
  revert o. induction l as [|[k1 v1] l IH]; intros o; csimpl.
  - rewrite elem_of_nil. tauto.
  - rewrite IH, keys_set_prop, elem_of_cons. tauto.
Qed.

Lemma NoDup_fold_set_prop l o :
  NoDup o.*1 → NoDup (fold_left set_entry l o).*1.
Proof.
  revert o. induction l as [|[k1 v1] l IH]; intros o Ho; csimpl; [done|].
  by apply IH, NoDup_set_prop.
Qed.

Lemma lookup_fold_set_prop_is_Some k l o :
  is_Some (lookup_prop k o) →
  is_Some (lookup_prop k (fold_left set_entry l o)).
Proof.
  revert o. induction l as [|[k1 v1] l IH]; intros o Ho; [done|].
  cbn [fold_left fst snd]. apply IH.
  destruct (decide (k = k1)) as [->|Hne].
  - rewrite lookup_set_prop_eq. by eexists.
  - by rewrite lookup_set_prop_ne.
Qed.

End keys.

(** X4: the keys of a normalised object.  They are pairwise distinct; they
    are the three canonical keys and the keys of the raw object, and no
    other; and they are enumerated in this order: the array indices
    ascending, the canonical keys [user_id], [username], [email], then the
    other raw keys. *)
Theorem normalize_keys (o : props) :
  ∃ o', normalize (VObj o) = Ok (VObj o')
        ∧ NoDup o'.*1
        ∧ (∀ k, k ∈ o'.*1 ↔ k ∈ canonical_keys ∨ k ∈ o.*1)
        ∧ normal_layout o'.*1.
Proof.
  eexists. split; [apply normalize_object|]. split_and!.
  - apply NoDup_fold_set_prop. solve_distinct.
  - intros k. apply keys_fold_set_prop.
  - apply fold_set_prop_layout.
    exists [], []. split_and!; [done|done|constructor|constructor].
Qed.

(** X5: the whole output for a plain raw object, one with pairwise distinct
    keys none of which is a canonical key or an array index: the three
    computed canonical entries, followed by the raw entries unchanged and in
    their order. *)
Theorem normalize_plain_object (o : props) :
  NoDup o.*1 →
  Forall (λ k, array_index k = None ∧ k ∉ canonical_keys) o.*1 →
  normalize (VObj o) = Ok (VObj (canonical_entries o ++ o)).
Proof.
  intros Hnd Ho. rewrite normalize_object. do 2 f_equal.
  by apply (fold_set_prop_others (canonical_entries o)).
Qed.

Lemma normalize_plain_object_witness :
  NoDup [("id", VNum (Finite false 7 0)); ("name", VStr "Bob")].*1
  ∧ Forall (λ k, array_index k = None ∧ k ∉ canonical_keys)
      [("id", VNum (Finite false 7 0)); ("name", VStr "Bob")].*1
  ∧ normalize bob = Ok bob_profile.
Proof.
  assert (NoDup [("id", VNum (Finite false 7 0)); ("name", VStr "Bob")].*1)
    as Hnd by solve_distinct.
  assert (Forall (λ k, array_index k = None ∧ k ∉ canonical_keys)
            [("id", VNum (Finite false 7 0)); ("name", VStr "Bob")].*1)
    as Hplain by (apply (bool_decide_unpack _); vm_compute; exact I).
  split; [exact Hnd|]. split; [exact Hplain|].
  exact (normalize_plain_object _ Hnd Hplain).
Defined.

(** Every normalised body is an object that holds the canonical keys. *)
Lemma normalize_canonical_keys (data profile : value) :
  normalize data = Ok profile →
  ∃ o, profile = VObj o
       ∧ ∀ K, K ∈ canonical_keys → is_Some (lookup_prop K o).
Proof.
  intros Hn. destruct (nullish data) eqn:Hd; [by destruct data|].
  rewrite normalize_own_props in Hn by done. injection Hn as <-.
  eexists. split; [done|]. intros K HK.
  apply lookup_fold_set_prop_is_Some.
  unfold canonical_keys, canonical_fields in HK. simpl in HK.
  rewrite !elem_of_cons, elem_of_nil in HK.
  destruct HK as [->|[->|[->|[]]]]; by eexists.
Qed.

(** *** Bodies that [JSON.parse] produces *)

Section parsed_values.
Implicit Types (o : props) (k : string) (v : value).

Local Abbreviation set_entry := (λ acc kv, set_prop acc kv.1 kv.2).
Local Abbreviation json_entry :=
  (λ kv : string * value, json_value kv.2 = true).

Lemma forallb_Forall {A} (f : A → bool) (l : list A) :
  forallb f l = true ↔ Forall (λ x, f x = true) l.
Proof.
  induction l as [|x l IH]; simpl.
  - split; [constructor|done].
  - rewrite andb_true_iff, Forall_cons, IH. done.
Qed.

Lemma own_props_json v :
  json_value v = true → Forall json_entry (own_props v).
Proof.
  destruct v as [| | | | |s|l|o]; simpl; try (intros; by constructor).
  - intros _. apply Forall_lookup. intros i [k x].
    rewrite list_lookup_imap. destruct (_ !! i); [|done]. by intros [= <- <-].
  - intros Hl%forallb_Forall. apply Forall_lookup. intros i [k x].
    rewrite list_lookup_imap. destruct (l !! i) as [e|] eqn:He; [|done].
    intros [= <- <-]. rewrite Forall_lookup in Hl. by apply (Hl i).
  - by intros Ho%forallb_Forall.
Qed.

Lemma replace_prop_json k v o :
  json_value v = true → Forall json_entry o →
  Forall json_entry (replace_prop k v o).
Proof.
  intros Hv. induction 1 as [|[k1 v1] o H1 Ho IH]; simpl; [constructor|].
  destruct (String.eqb k k1); by constructor.
Qed.

Lemma insert_index_json n k v o :
  json_value v = true → Forall json_entry o →
  Forall json_entry (insert_index n k v o).
Proof.
  intros Hv. induction 1 as [|[k1 v1] o H1 Ho IH]; simpl.
  - by repeat constructor.
  - destruct (array_index k1) as [m|]; [destruct (m <? n)%N|];
      by repeat constructor.
Qed.

Lemma set_prop_json k v o :
  json_value v = true → Forall json_entry o →
  Forall json_entry (set_prop o k v).
Proof.
  intros Hv Ho. unfold set_prop. destruct (has_prop k o).
  - by apply replace_prop_json.
  - destruct (array_index k).
    + by apply insert_index_json.
    + apply Forall_app. split; [done|]. by apply Forall_singleton.
Qed.

Lemma fold_set_prop_json (l o : props) :
  Forall json_entry l → Forall json_entry o →
  Forall json_entry (fold_left set_entry l o).
Proof.
  intros Hl. revert o.
  induction Hl as [|[k v] l Hv Hl IH]; intros o Ho; [done|].
  cbn [fold_left fst snd]. by apply IH, set_prop_json.
Qed.

Lemma lookup_prop_elem k v o : lookup_prop k o = Some v → (k, v) ∈ o.
Proof.
  induction o as [|[k1 v1] o IH]; simpl; [done|].
  destruct (String.eqb_spec k k1) as [->|Hne].
  - intros [= ->]. left.
  - intros H. right. by apply IH.
Qed.

Lemma first_match_json o aliases :
  Forall json_entry o → json_value (first_match o aliases) = true.
Proof.
  intros Ho. induction aliases as [|a aliases IH]; simpl; [done|].
  destruct (lookup_prop a o) as [v|] eqn:Hv; [|done].
  destruct (nullish v) eqn:Hn; [done|].
  apply lookup_prop_elem in Hv. rewrite Forall_forall in Ho.
  by apply (Ho _ Hv).
Qed.

(** The normaliser brings in neither [undefined] nor a BigInt. *)
Lemma normalize_json data user :
  json_value data = true → normalize data = Ok user → json_value user = true.
Proof.
  intros Hd Hn. destruct (nullish data) eqn:Hnull; [by destruct data|].
  rewrite normalize_own_props in Hn by done. injection Hn as <-.
  pose proof (own_props_json _ Hd) as Ho.
  cbn [json_value]. apply forallb_Forall. unfold spread.
  apply fold_set_prop_json; [done|].
  unfold canonical_entries. repeat constructor; by apply first_match_json.
Qed.

(** Serialisation neither throws nor gives [undefined] on such a value. *)
Lemma serialize_json v :
  json_value v = true → ∃ t, JSON.serialize v = Ok (Some t).
Proof.
  induction v as [| |b|n|z|s|l IH|o IH] using value_ind_nested;
    try done; try (intros _; by eexists).
  - intros Hl%forallb_Forall. rewrite serialize_array.
    assert (∃ ss, serialize_elements l = Ok ss) as [ss ->]; [|by eexists].
    induction IH as [|e l He _ IHl]; [by eexists|].
    apply Forall_cons in Hl as [Hj Hl].
    destruct (He Hj) as [t Ht]. destruct (IHl Hl) as [ss Hss].
    cbn [serialize_elements]. rewrite Ht, Hss. by eexists.
  - intros Ho%forallb_Forall. rewrite serialize_object.
    assert (∃ ms, serialize_members o = Ok ms) as [ms ->]; [|by eexists].
    induction IH as [|[k e] o He _ IHo]; [by eexists|].
    apply Forall_cons in Ho as [Hj Ho]. cbn [snd] in He, Hj.
    destruct (He Hj) as [t Ht]. destruct (IHo Ho) as [ms Hms].
    cbn [serialize_members]. rewrite Ht, Hms. by eexists.
Qed.

End parsed_values.

(** X6: normalising and serialising compose on every body that [JSON.parse]
    can produce, [null] apart.  The body normalises to a profile, and
    [JSON.stringify] of that profile neither throws nor gives [undefined]:
    it gives a JSON text, which is also the text that the redirect builder
    puts in [userdata].  So for a decoded body neither [saveSession] nor
    [redirectWithParams] reaches its [catch] clause because of the
    profile. *)
Theorem parsed_profile_serialises (data : value) :
  json_value data = true →
  nullish data = false →
  ∃ user text,
    normalize data = Ok user
    ∧ JSON.stringify user = Ok (VStr text)
    ∧ userdata_text user = text
    ∧ JSON.is_json text = true.
Proof.
  intros Hd Hnull.
  pose proof (normalize_own_props data Hnull) as Ho.
  destruct (serialize_json _ (normalize_json _ _ Hd Ho)) as [t Ht].
  eexists _, t. split_and!.
  - done.
  - unfold JSON.stringify. by rewrite Ht.
  - unfold userdata_text, js_coalesce. cbn [nullish]. by rewrite Ht.
  - by apply scannable_is_json, (serialize_scannable _ _ Ht).
Qed.

Lemma parsed_profile_serialises_witness :
  json_value bob = true
  ∧ nullish bob = false
  ∧ ∃ user text,
      normalize bob = Ok user
      ∧ JSON.stringify user = Ok (VStr text)
      ∧ userdata_text user = text
      ∧ JSON.is_json text = true.
Proof.
  split; [reflexivity|]. split; [reflexivity|].
  exact (parsed_profile_serialises bob eq_refl eq_refl).
Defined.

(* ----------------------------------------------------------------- *)
(** ** The profile resolver *)

(** A token that cannot be converted to a string: the template literal of
    the [Authorization] header throws before [fetch] is called. *)
Lemma try_candidate_unconvertible E jwt e path w :
  to_string jwt = Throw e → try_candidate E jwt path w = (Ok None, w).
Proof. intros H. unfold try_candidate. run_unfold. by rewrite H. Qed.

Lemma fetch_first_unconvertible E candidates jwt e w :
  to_string jwt = Throw e → fetch_first E candidates jwt w = (Ok VNull, w).
Proof.
  intros H. induction candidates as [|p rest IH]; [done|].
  cbn [fetch_first]. unfold mbind, M_bind, bind.
  by rewrite (try_candidate_unconvertible _ _ e).
Qed.

Lemma fetch_first_result E candidates jwt tok w profile w' :
  to_string jwt = Ok tok →
  fetch_first E candidates jwt w = (Ok profile, w') →
  profile = VNull ∨ ∃ data, normalize data = Ok profile.
Proof.
  intros Htok. revert w. induction candidates as [|p rest IH]; intros w.
  - intros [= <- <-]. by left.
  - rewrite (fetch_first_cons _ _ tok) by done.
    destruct (candidate_outcome E tok (trace w) p) as [user|] eqn:Hp;
      [|apply IH].
    intros [= <- <-]. right. unfold candidate_outcome in Hp.
    destruct (network _ _ _) as [res|]; [|done].
    destruct (res_ok res); [|done].
    destruct (json_body res) as [data|]; [|done].
    destruct (normalize data) eqn:Hn; [|done]. injection Hp as <-.
    by exists data.
Qed.

(** X7: [fetchUserProfile] never throws, whatever the token, the network
    and the bodies are.  All it does is send requests, no more of them than
    there are candidates: storage, error box and address stay as they are.
    Its result is [null] or an object that holds the three canonical keys.
    For a token that cannot be converted to a string no request is sent at
    all and the result is [null]. *)
Theorem fetchUserProfile_never_throws E jwt w :
  ∃ profile evs,
    fetchUserProfile E jwt w = (Ok profile, extend evs w)
    ∧ Forall is_fetch evs
    ∧ (length evs ≤ length PROFILE_CANDIDATES)%nat
    ∧ (profile = VNull
       ∨ ∃ o, profile = VObj o
              ∧ ∀ K, K ∈ canonical_keys → is_Some (lookup_prop K o))
    ∧ (∀ e, to_string jwt = Throw e → profile = VNull ∧ evs = []).
Proof.
  unfold fetchUserProfile. destruct (to_string jwt) as [tok|e] eqn:Htok.
  - destruct (fetch_first_frame E PROFILE_CANDIDATES jwt tok w Htok)
      as (profile & n & Hrun).
    exists profile, (contacts tok (take n PROFILE_CANDIDATES)).
    split_and!; [done| | | |done].
    + unfold contacts. apply Forall_fmap, Forall_true. done.
    + unfold contacts. rewrite length_fmap, length_take. lia.
    + destruct (fetch_first_result _ _ _ _ _ _ _ Htok Hrun)
        as [->|[data Hdata]]; [by left|right].
      by apply (normalize_canonical_keys data).
  - exists VNull, []. rewrite extend_nil.
    split_and!; [|done|simpl; lia|by left|done].
    by apply (fetch_first_unconvertible _ _ _ e).
Qed.

(* ----------------------------------------------------------------- *)
(** ** The session persister *)

(** X8: what [saveSession] leaves in the storage.  The entry [jwt] is the
    one that was there or the text of the token; the entry [userdata] is
    the one that was there or the text that [JSON.stringify] gives for the
    profile, which is a JSON text. *)
Theorem saveSession_written_values E jwt user w :
  ∃ w', saveSession E jwt user w = (Ok tt, w')
    ∧ (storage w' !! "jwt" = storage w !! "jwt"
       ∨ ∃ tok, storage w' !! "jwt" = Some tok ∧ to_string jwt = Ok tok)
    ∧ (storage w' !! "userdata" = storage w !! "userdata"
       ∨ ∃ text, storage w' !! "userdata" = Some text
                 ∧ JSON.stringify user = Ok (VStr text)
                 ∧ JSON.is_json text = true).
Proof.
  destruct (saveSession_spec E jwt user w)
    as (w' & evs & Hrun & _ & _ & _ & _ & Hst).
  exists w'. split_and!; [done| |].
  - destruct (Hst "jwt") as [->|(s & -> & [(_ & _ & Hs)|(? & _)])];
      [by left| |done].
    right. by exists s.
  - destruct (Hst "userdata") as [->|(s & -> & [(? & _)|(_ & _ & Hs)])];
      [by left|done|].
    right. exists s. split_and!; [done..|].
    destruct (stringify_result _ _ Hs) as [[_ ?]|(s' & Hser & [= <-])];
      [done|].
    by apply scannable_is_json, (serialize_scannable _ _ Hser).
Qed.

Lemma save_user_frame E user w :
  ∃ r w',
    (if truthy user then
       text ← lift (JSON.stringify user); setItem E "userdata" text
     else mret tt) w = (r, w')
    ∧ ∀ k, k ≠ "userdata" → storage w' !! k = storage w !! k.
Proof.
  destruct (truthy user); [|by exists (Ok tt), w].
  run_unfold.
  destruct (JSON.stringify user) as [text|e]; [|by exists (Throw e), w].
  destruct (to_string text) as [s|e]; [|by exists (Throw e), w].
  destruct (quota_exceeded E (storage w) "userdata" s);
    eexists _, _; (split; [reflexivity|]); intros k Hk; [done|].
  world_simpl. by rewrite lookup_insert_ne.
Qed.

(** X9: [saveSession] writes the token first.  When the storage refuses
    the token, the failure is logged as a warning and nothing else happens:
    the profile is not written, whatever it is.  When the storage accepts
    the token, the token stays stored even if the profile cannot be
    serialised or the storage refuses it. *)
Theorem saveSession_token_first E jwt user tok w :
  truthy jwt = true →
  to_string jwt = Ok tok →
  ∃ w', saveSession E jwt user w = (Ok tt, w')
    ∧ (if quota_exceeded E (storage w) "jwt" tok
       then w' = extend [EvSetItem "jwt" tok;
                         EvConsoleWarn QuotaExceededError] w
       else storage w' !! "jwt" = Some tok).
Proof.
  intros Ht Htok. unfold saveSession, try_catch.
  unfold mbind at 1, M_bind at 1, bind at 1. rewrite Ht.
  unfold setItem at 1, lift at 1. unfold mbind at 1, M_bind at 1, bind at 1.
  rewrite Htok. unfold store at 1.
  destruct (quota_exceeded E (storage w) "jwt" tok) eqn:Hq.
  - eexists. split; [reflexivity|]. unfold log. by rewrite extend_extend.
  - destruct (save_user_frame E user (put "jwt" tok w))
      as (r & w4 & -> & Hst).
    assert (storage w4 !! "jwt" = Some tok) as Hjwt.
    { rewrite Hst by done. world_simpl. apply lookup_insert_eq. }
    destruct r as [[]|e]; eexists; (split; [reflexivity|]); done.
Qed.

Lemma saveSession_token_first_witness :
  truthy (VStr "T") = true
  ∧ to_string (VStr "T") = Ok "T"
  ∧ ∃ w', saveSession (scripted_env [] [] true) (VStr "T") bob world0
          = (Ok tt, w')
          ∧ storage w' = ∅
          ∧ trace w' = [EvSetItem "jwt" "T";
                        EvConsoleWarn QuotaExceededError].
Proof.
  split; [reflexivity|]. split; [reflexivity|].
  destruct (saveSession_token_first (scripted_env [] [] true) (VStr "T") bob
              "T" world0 eq_refl eq_refl) as (w' & Hrun & Hw').
  exists w'. split; [exact Hrun|]. simpl in Hw'. rewrite Hw'.
  split; reflexivity.
Defined.

(** X10: with a truthy token and a truthy profile that serialises, and a
    storage that accepts both writes, [saveSession] stores the text of the
    token under [jwt] and then the JSON text of the profile under
    [userdata], with no other effect; reading the two keys back gives the
    two texts. *)
Theorem saveSession_stores_both E jwt user tok text w :
  truthy jwt = true →
  to_string jwt = Ok tok →
  truthy user = true →
  JSON.stringify user = Ok (VStr text) →
  quota_exceeded E (storage w) "jwt" tok = false →
  quota_exceeded E (<["jwt" := tok]> (storage w)) "userdata" text = false →
  saveSession E jwt user w = (Ok tt, put "userdata" text (put "jwt" tok w))
  ∧ storage (put "userdata" text (put "jwt" tok w)) !! "jwt" = Some tok
  ∧ storage (put "userdata" text (put "jwt" tok w)) !! "userdata"
    = Some text.
Proof.
  intros Ht Htok Hu Htext Hq1 Hq2. split_and!.
  - unfold saveSession. run_unfold.
    rewrite Ht, Htok, Hq1, Hu, Htext. cbn [to_string].
    world_simpl. by rewrite Hq2.
  - world_simpl. by rewrite lookup_insert_ne, lookup_insert_eq.
  - world_simpl. by rewrite lookup_insert_eq.
Qed.

Lemma saveSession_stores_both_witness :
  ∃ text,
    JSON.stringify bob_profile = Ok (VStr text)
    ∧ saveSession env_profile (VStr "T2") bob_profile world0
      = (Ok tt, put "userdata" text (put "jwt" "T2" world0)).
Proof.
  eexists. split; [reflexivity|].
  apply (saveSession_stores_both env_profile (VStr "T2") bob_profile "T2");
    reflexivity.
Defined.

(* ----------------------------------------------------------------- *)
(** ** The error display *)

(** X11: [showError] shows its message through exactly one channel: as the
    text of the error box when the page has one, in an alert otherwise.  A
    falsy message ([undefined], the empty string) is replaced by the default
    text.  Storage and address are not touched. *)
Theorem showError_one_channel (msg : value) (s : string) (w : world) :
  to_string (js_or msg (VStr "Error al iniciar sesión.")) = Ok s →
  ∃ w', showError msg w = (Ok tt, w')
    ∧ trace w' = trace w ++ [match error_box w with
                             | Some _ => EvSetText s
                             | None => EvAlert s
                             end]
    ∧ error_box w' = (match error_box w with
                      | Some _ => Some s
                      | None => None
                      end)
    ∧ storage w' = storage w
    ∧ location w' = location w
    ∧ (truthy msg = false → s = "Error al iniciar sesión.").
Proof.
  intros Hs. exists (display s w). split; [by apply showError_run|].
  unfold display.
  destruct (error_box w) eqn:Hb; simpl; rewrite ?Hb; split_and!; try done.
  all: intros Hm; unfold js_or in Hs; rewrite Hm in Hs; by injection Hs.
Qed.

Lemma showError_one_channel_witness :
  to_string (js_or VUndefined (VStr "Error al iniciar sesión."))
  = Ok "Error al iniciar sesión."
  ∧ ∃ w', showError VUndefined world0 = (Ok tt, w')
          ∧ trace w' = [EvSetText "Error al iniciar sesión."]
          ∧ error_box w' = Some "Error al iniciar sesión.".
Proof.
  split; [reflexivity|].
  destruct (showError_one_channel VUndefined "Error al iniciar sesión." world0
              eq_refl) as (w' & Hrun & Htr & Hbox & _).
  exists w'. split; [exact Hrun|]. split; [exact Htr|exact Hbox].
Defined.

(* ----------------------------------------------------------------- *)
(** ** The address of the redirect *)

Section query_chars.
Implicit Types (s t : string) (c : ascii) (l : list (string * string)).

Lemma encode_byte_query c : all_chars query_char (URL.encode_byte c) = true.
Proof. destruct c as [[] [] [] [] [] [] [] []]; reflexivity. Qed.

Lemma encode_query s : all_chars query_char (URL.encode s) = true.
Proof.
  induction s as [|c s IH]; [done|]. cbn [URL.encode].
  by rewrite all_chars_app, encode_byte_query, IH.
Qed.

Lemma serialize_query l : all_chars query_char (URL.serialize l) = true.
Proof.
  unfold URL.serialize. induction l as [|[k v] l IH]; [done|].
  cbn [map fst snd]. destruct l as [|kv l].
  - cbn [map String.concat]. by rewrite !all_chars_app, !encode_query.
  - cbn [map] in *. rewrite concat_cons.
    by rewrite !all_chars_app, !encode_query, IH.
Qed.

End query_chars.

(** X12: the address to which [redirectWithParams] navigates is the fixed
    destination, a question mark and a query string made only of ASCII
    letters and digits and of the characters [*], [-], [.], [_], [+], [%],
    [&] and [=].  Whatever the token and the profile hold, they cannot put
    a [#], a [/], a [?] or a space into the address. *)
Theorem redirect_address_chars jwt tok user w :
  to_string jwt = Ok tok →
  ∃ qs,
    redirectWithParams jwt user w
    = (Ok tt, go ("http://127.0.0.1:3000/?" +:+ qs) w)
    ∧ all_chars query_char qs = true.
Proof.
  intros Htok. eexists. split.
  - by apply redirectWithParams_run.
  - apply serialize_query.
Qed.

Lemma redirect_address_chars_witness :
  to_string (VStr "a#b c") = Ok "a#b c"
  ∧ ∃ qs,
      redirectWithParams (VStr "a#b c") VNull world0
      = (Ok tt, go ("http://127.0.0.1:3000/?" +:+ qs) world0)
      ∧ all_chars query_char qs = true.
Proof.
  split; [reflexivity|].
  exact (redirect_address_chars (VStr "a#b c") "a#b c" VNull world0 eq_refl).
Defined.

(* ----------------------------------------------------------------- *)
(** ** The listener, branch by branch *)

Section listener.
Context (E : env) (w : world).

Local Abbreviation connection := "No se pudo conectar con el servidor.".

Lemma reported_facts pre msg post :
  trace (reported E w pre msg post)
  = trace (opened w) ++ EvFetch (login_request E) :: pre ++ shown w msg :: post
  ∧ storage (reported E w pre msg post) = storage w
  ∧ location (reported E w pre msg post) = location w
  ∧ error_box (reported E w pre msg post)
    = match error_box w with Some _ => Some msg | None => None end.
Proof.
  unfold reported, requested, display, shown, opened.
  destruct (error_box w) eqn:Hb; world_simpl; rewrite ?Hb; world_simpl;
    rewrite <- ?app_assoc; by split_and!.
Qed.

Lemma error_box_opened :
  error_box (opened w)
  = match error_box w with Some _ => Some "" | None => None end.
Proof.
  unfold opened. by destruct (error_box w) eqn:Hb; simpl; rewrite ?Hb.
Qed.

Lemma trace_opened :
  trace (opened w)
  = trace w ++ EvPreventDefault
      :: match error_box w with Some _ => [EvSetText ""] | None => [] end.
Proof.
  unfold opened. destruct (error_box w); world_simpl; by rewrite <- ?app_assoc.
Qed.

(** An exception of the [try] block reaches the [catch] clause. *)
Lemma on_submit_caught e pre :
  attempt_login E (opened w) = (Throw e, extend pre (requested E w)) →
  on_submit E w = (Ok tt, reported E w pre connection [EvConsoleError e]).
Proof.
  intros Hrun. rewrite on_submit_open. unfold try_catch at 1. rewrite Hrun.
  apply catch_run.
Qed.

Lemma on_submit_unreachable :
  network E (trace (opened w)) (login_request E) = None →
  on_submit E w
  = (Ok tt, reported E w [] connection [EvConsoleError NetworkError]).
Proof.
  intros Hnet. apply on_submit_caught.
  by rewrite attempt_login_run, Hnet, extend_nil.
Qed.

Lemma on_submit_undecodable res :
  network E (trace (opened w)) (login_request E) = Some res →
  res_ok res = true →
  json_body res = None →
  on_submit E w
  = (Ok tt, reported E w [] connection [EvConsoleError SyntaxError]).
Proof.
  intros Hnet Hok Hbody. apply on_submit_caught.
  rewrite attempt_login_run, Hnet, Hok, extend_nil. cbn [negb].
  unfold mbind at 1, M_bind at 1, bind at 1, json. by rewrite Hbody.
Qed.

Lemma rejection_message_truthy res : truthy (rejection_message res) = true.
Proof.
  unfold rejection_message, js_or. destruct (json_body res) as [err|]; [|done].
  by destruct (truthy (get_opt err "detail")) eqn:Hd.
Qed.

Lemma on_submit_refused res :
  network E (trace (opened w)) (login_request E) = Some res →
  res_ok res = false →
  on_submit E w
  = match to_string (rejection_message res) with
    | Ok s => (Ok tt, reported E w [] s [])
    | Throw e => (Ok tt, reported E w [] connection [EvConsoleError e])
    end.
Proof.
  intros Hnet Hok.
  assert (attempt_login E (opened w)
          = showError (rejection_message res) (requested E w)) as Hattempt.
  { rewrite attempt_login_run, Hnet, Hok. cbn [negb].
    unfold mbind at 1, M_bind at 1, bind at 1.
    by rewrite rejection_message_run. }
  assert (js_or (rejection_message res) (VStr "Error al iniciar sesión.")
          = rejection_message res) as Hor
    by (unfold js_or at 1; by rewrite rejection_message_truthy).
  destruct (to_string (rejection_message res)) as [s|e] eqn:Hs.
  - rewrite on_submit_open. unfold try_catch at 1. rewrite Hattempt.
    rewrite (showError_run _ s) by (by rewrite Hor).
    unfold reported. by rewrite extend_nil, extend_nil.
  - apply on_submit_caught. rewrite Hattempt, extend_nil.
    apply showError_throw. by rewrite Hor.
Qed.

Lemma on_submit_tokenless res data :
  network E (trace (opened w)) (login_request E) = Some res →
  res_ok res = true →
  json_body res = Some data →
  truthy (pickToken data) = false →
  on_submit E w
  = (Ok tt, reported E w [] "No se recibió el token de acceso." []).
Proof.
  intros Hnet Hok Hbody Ht.
  rewrite on_submit_open. unfold try_catch at 1.
  rewrite attempt_login_run, Hnet, Hok. cbn [negb].
  unfold mbind at 1, M_bind at 1, bind at 1, json. rewrite Hbody.
  unfold mret at 1, M_ret at 1, ret at 1. cbv zeta. rewrite Ht. cbn [negb].
  rewrite showError_text by done.
  unfold reported. by rewrite extend_nil, extend_nil.
Qed.

(** A truthy token that cannot be converted to a string: the first use
    that is not guarded by a [try] of its own is the one of the redirect
    builder. *)
Lemma on_submit_odd_token res data e :
  network E (trace (opened w)) (login_request E) = Some res →
  res_ok res = true →
  json_body res = Some data →
  truthy (pickToken data) = true →
  to_string (pickToken data) = Throw e →
  on_submit E w
  = (Ok tt, reported E w [EvConsoleWarn e] connection [EvConsoleError e]).
Proof.
  intros Hnet Hok Hbody Ht Htok. apply on_submit_caught.
  rewrite (attempt_login_success E (opened w) res data) by done.
  fold (requested E w).
  assert (saveSession E (pickToken data) VUndefined (requested E w)
          = (Ok tt, extend [EvConsoleWarn e] (requested E w))) as Hsave.
  { unfold saveSession. run_unfold. by rewrite Ht, Htok. }
  unfold mbind at 1, M_bind at 1, bind at 1. rewrite Hsave.
  unfold mbind at 1, M_bind at 1, bind at 1. unfold fetchUserProfile.
  rewrite (fetch_first_unconvertible _ _ _ e) by done.
  unfold mbind at 1, M_bind at 1, bind at 1. cbn [truthy].
  unfold mret at 1, M_ret at 1, ret at 1.
  by apply redirectWithParams_throw.
Qed.

(** The branch in which the login succeeds, with what it leaves behind. *)
Lemma on_submit_success res data tok :
  network E (trace (opened w)) (login_request E) = Some res →
  res_ok res = true →
  json_body res = Some data →
  truthy (pickToken data) = true →
  to_string (pickToken data) = Ok tok →
  ∃ profile n w3 warn save2,
    on_submit E w
    = (Ok tt, go (redirect_url tok (js_or profile (VObj []))) w3)
    ∧ trace w3
      = trace (opened w)
        ++ EvFetch (login_request E) :: EvSetItem "jwt" tok :: warn
        ++ contacts tok (take n PROFILE_CANDIDATES) ++ save2
    ∧ Forall is_warning warn
    ∧ Forall (λ e, is_storage_write e ∨ is_warning e) save2
    ∧ location w3 = location w
    ∧ error_box w3 = error_box (opened w)
    ∧ (∀ k, storage w3 !! k = storage w !! k
            ∨ (k = "jwt" ∧ storage w3 !! k = Some tok)
            ∨ (k = "userdata" ∧ truthy profile = true
               ∧ ∃ text, storage w3 !! k = Some text
                         ∧ JSON.stringify profile = Ok (VStr text))).
Proof.
  intros Hnet Hok Hbody Ht Htok.
  set (w0 := requested E w).
  set (w1 := token_saved E tok w0).
  destruct (fetch_first_frame E PROFILE_CANDIDATES (pickToken data) tok w1 Htok)
    as (profile & n & Hfetch).
  set (w2 := extend (contacts tok (take n PROFILE_CANDIDATES)) w1) in *.
  destruct (token_saved_facts E tok w0)
    as (warn & Htr1 & Hwarn & Hloc1 & Hbox1 & Hst1).
  fold w1 in Htr1, Hloc1, Hbox1, Hst1.
  assert (∀ k, storage w2 !! k = storage w !! k
               ∨ (k = "jwt" ∧ storage w2 !! k = Some tok)) as Hst2.
  { intros k. unfold w2. world_simpl. rewrite Hst1. unfold w0, requested.
    world_simpl. destruct (opened_facts w) as (-> & _).
    destruct (quota_exceeded E (storage w) "jwt" tok); [by left|].
    destruct (decide (k = "jwt")) as [->|Hne].
    - right. by rewrite lookup_insert_eq.
    - left. by rewrite lookup_insert_ne. }
  assert (∃ w3 save2,
            (if truthy profile then saveSession E (pickToken data) profile
             else mret tt) w2 = (Ok tt, w3)
            ∧ trace w3 = trace w2 ++ save2
            ∧ Forall (λ e, is_storage_write e ∨ is_warning e) save2
            ∧ location w3 = location w2
            ∧ error_box w3 = error_box w2
            ∧ (∀ k, storage w3 !! k = storage w2 !! k
                    ∨ ∃ s, storage w3 !! k = Some s
                           ∧ truthy profile = true
                           ∧ written (pickToken data) profile k s))
    as (w3 & save2 & Hsave & Htr3 & Hsave2 & Hloc3 & Hbox3 & Hst3).
  { destruct (truthy profile) eqn:Hp.
    - destruct (saveSession_spec E (pickToken data) profile w2)
        as (w3 & evs & Hrun & Htr & Hevs & Hloc & Hbox & Hst).
      exists w3, evs. split_and!; [done..|].
      intros k. destruct (Hst k) as [?|(s & ? & ?)]; [by left|right].
      by exists s.
    - exists w2, []. rewrite app_nil_r. split_and!; [done..|]. by left. }
  exists profile, n, w3, warn, save2. split_and!.
  - rewrite on_submit_open. unfold try_catch at 1.
    rewrite (attempt_login_success E (opened w) res data) by done.
    fold (requested E w). fold w0.
    unfold mbind at 1, M_bind at 1, bind at 1.
    rewrite (saveSession_token E (pickToken data) tok) by done. fold w1.
    unfold mbind at 1, M_bind at 1, bind at 1.
    unfold fetchUserProfile. rewrite Hfetch.
    unfold mbind at 1, M_bind at 1, bind at 1.
    rewrite Hsave.
    by rewrite (redirectWithParams_run _ _ tok).
  - rewrite Htr3. unfold w2. world_simpl. rewrite Htr1.
    unfold w0, requested. world_simpl. by rewrite <- !app_assoc.
  - done.
  - done.
  - rewrite Hloc3. unfold w2. world_simpl. rewrite Hloc1.
    unfold w0, requested. world_simpl.
    by destruct (opened_facts w) as (_ & -> & _).
  - rewrite Hbox3. unfold w2. world_simpl. by rewrite Hbox1.
  - intros k. destruct (Hst3 k) as [->|(s & Hs & Hp & Hw)]; [|right].
    + destruct (Hst2 k) as [?|?]; [by left|right; by left].
    + destruct Hw as [(-> & _ & Hs')|(-> & _ & Hs')].
      * left. split; [done|]. rewrite Htok in Hs'. by injection Hs' as <-.
      * right. split_and!; [done..|]. by exists s.
Qed.

(** Every run of the listener: either it reports a message and leaves
    storage and address alone, or the login answered with a token that
    converts to a string. *)
Lemma on_submit_summary :
  (∃ pre msg post,
     on_submit E w = (Ok tt, reported E w pre msg post)
     ∧ Forall is_warning pre ∧ Forall is_console_error post)
  ∨ (∃ res data tok,
       network E (trace (opened w)) (login_request E) = Some res
       ∧ res_ok res = true
       ∧ json_body res = Some data
       ∧ truthy (pickToken data) = true
       ∧ to_string (pickToken data) = Ok tok).
Proof.
  destruct (network E (trace (opened w)) (login_request E)) as [res|] eqn:Hnet.
  2: { left. eexists _, _, _. split; [by apply on_submit_unreachable|].
       split; by repeat constructor. }
  destruct (res_ok res) eqn:Hok.
  2: { left. rewrite (on_submit_refused res) by done.
       destruct (to_string (rejection_message res));
         eexists _, _, _; (split; [reflexivity|]);
         split; by repeat constructor. }
  destruct (json_body res) as [data|] eqn:Hbody.
  2: { left. eexists _, _, _. split; [by apply (on_submit_undecodable res)|].
       split; by repeat constructor. }
  destruct (truthy (pickToken data)) eqn:Ht.
  2: { left. eexists _, _, _.
       split; [by apply (on_submit_tokenless res data)|].
       split; by repeat constructor. }
  destruct (to_string (pickToken data)) as [tok|e] eqn:Htok.
  - right. by exists res, data, tok.
  - left. eexists _, _, _.
    split; [by apply (on_submit_odd_token res data e)|].
    split; by repeat constructor.
Qed.

(** The listener returns, and its trace goes on from the authentication
    request. *)
Lemma on_submit_trace :
  ∃ w' evs,
    on_submit E w = (Ok tt, w')
    ∧ trace w' = trace (opened w) ++ EvFetch (login_request E) :: evs.
Proof.
  destruct on_submit_summary
    as [(pre & msg & post & Hrun & _)
       |(res & data & tok & Hnet & Hok & Hbody & Ht & Htok)].
  - eexists _, _. split; [exact Hrun|]. apply reported_facts.
  - destruct (on_submit_success res data tok Hnet Hok Hbody Ht Htok)
      as (profile & n & w3 & warn & save2 & Hrun & Htr & _).
    eexists _, _. split; [exact Hrun|]. world_simpl.
    rewrite Htr, <- app_assoc. cbn [app]. reflexivity.
Qed.

End listener.

(* ----------------------------------------------------------------- *)
(** ** The listener as a whole *)

(** X13: how every submission starts.  The listener suppresses the default
    submission, empties the error box if the page has one, and then posts
    the form to [/auth/login] as [application/x-www-form-urlencoded]; the
    body of that request decodes to the fields of the form, names and
    values unchanged and in their order.  The listener never throws. *)
Theorem on_submit_posts_form E w :
  ∃ w' body evs,
    on_submit E w = (Ok tt, w')
    ∧ trace w'
      = trace w
        ++ EvPreventDefault
           :: match error_box w with Some _ => [EvSetText ""] | None => [] end
        ++ EvFetch {| req_method := "POST";
                      req_url := "/auth/login";
                      req_headers :=
                        [("Content-Type", "application/x-www-form-urlencoded");
                         ("Accept", "application/json")];
                      req_body := Some body |} :: evs
    ∧ URL.parse body = form_data E.
Proof.
  destruct (on_submit_trace E w) as (w' & evs & Hrun & Htr).
  exists w', (URL.serialize (form_data E)), evs.
  split; [done|]. split; [|apply parse_serialize].
  rewrite Htr, trace_opened, <- app_assoc. reflexivity.
Qed.

(** X14: how every submission ends.  Whatever the network, the bodies and
    the storage do, the listener returns normally and ends in exactly one
    of two ways.  Either its last act is one navigation, before which no
    message was shown, and which leaves the error box empty; or it shows
    exactly one message, preceded by nothing but warnings and followed by
    nothing but the log of the error, and it leaves the address and the
    storage as they were. *)
Theorem on_submit_one_outcome E w :
  ∃ w' evs,
    on_submit E w = (Ok tt, w')
    ∧ trace w' = trace (opened w) ++ EvFetch (login_request E) :: evs
    ∧ ((∃ pre url,
          evs = pre ++ [EvNavigate url]
          ∧ Forall (λ e, ¬ is_display e ∧ ¬ is_navigation e) pre
          ∧ location w' = Some url
          ∧ error_box w'
            = match error_box w with Some _ => Some "" | None => None end)
       ∨ (∃ pre msg post,
            evs = pre ++ shown w msg :: post
            ∧ Forall is_warning pre
            ∧ Forall is_console_error post
            ∧ location w' = location w
            ∧ storage w' = storage w
            ∧ error_box w'
              = match error_box w with Some _ => Some msg | None => None end)).
Proof.
  destruct (on_submit_summary E w)
    as [(pre & msg & post & Hrun & Hpre & Hpost)
       |(res & data & tok & Hnet & Hok & Hbody & Ht & Htok)].
  - destruct (reported_facts E w pre msg post) as (Htr & Hst & Hloc & Hbox).
    eexists _, _. split; [exact Hrun|]. split; [exact Htr|].
    right. exists pre, msg, post. by split_and!.
  - destruct (on_submit_success E w res data tok Hnet Hok Hbody Ht Htok)
      as (profile & n & w3 & warn & save2 & Hrun & Htr & Hwarn & Hsave
          & Hloc & Hbox & _).
    set (url := redirect_url tok (js_or profile (VObj []))) in *.
    set (pre := EvSetItem "jwt" tok :: warn
                ++ contacts tok (take n PROFILE_CANDIDATES) ++ save2).
    exists (go url w3), (pre ++ [EvNavigate url]).
    split; [exact Hrun|]. split.
    { world_simpl. rewrite Htr. unfold pre. by rewrite <- !app_assoc. }
    left. exists pre, url. split_and!.
    + done.
    + unfold pre. constructor; [simpl; tauto|].
      rewrite !Forall_app. split_and!.
      * eapply Forall_impl; [exact Hwarn|]. intros []; simpl; tauto.
      * unfold contacts. apply Forall_fmap, Forall_true. simpl. tauto.
      * eapply Forall_impl; [exact Hsave|]. intros []; simpl; tauto.
    + done.
    + world_simpl. by rewrite Hbox, error_box_opened.
Qed.

(** X15: nothing happens without a token.  If, after the authentication
    request, the listener calls a profile candidate, writes to the storage
    or navigates, then the authentication endpoint answered with a success
    status and a body that decodes, and [pickToken] found a truthy token in
    it. *)
Theorem on_submit_needs_token E w :
  ∃ w' evs,
    on_submit E w = (Ok tt, w')
    ∧ trace w' = trace (opened w) ++ EvFetch (login_request E) :: evs
    ∧ (Exists (λ e, is_fetch e ∨ is_storage_write e ∨ is_navigation e) evs →
       ∃ res data,
         network E (trace (opened w)) (login_request E) = Some res
         ∧ res_ok res = true
         ∧ json_body res = Some data
         ∧ truthy (pickToken data) = true).
Proof.
  destruct (on_submit_summary E w)
    as [(pre & msg & post & Hrun & Hpre & Hpost)
       |(res & data & tok & Hnet & Hok & Hbody & Ht & Htok)].
  - destruct (reported_facts E w pre msg post) as (Htr & _).
    eexists _, _. split; [exact Hrun|]. split; [exact Htr|].
    rewrite Exists_exists. intros (e & He & Hkind). exfalso.
    rewrite elem_of_app, elem_of_cons in He. destruct He as [Hin|[->|Hin]].
    + rewrite Forall_forall in Hpre. apply Hpre in Hin.
      destruct e; simpl in *; tauto.
    + unfold shown in Hkind. destruct (error_box w); simpl in *; tauto.
    + rewrite Forall_forall in Hpost. apply Hpost in Hin.
      destruct e; simpl in *; tauto.
  - destruct (on_submit_success E w res data tok Hnet Hok Hbody Ht Htok)
      as (profile & n & w3 & warn & save2 & Hrun & Htr & _).
    eexists _, _. split; [exact Hrun|]. split.
    { world_simpl. rewrite Htr, <- !app_assoc. cbn [app]. reflexivity. }
    intros _. by exists res, data.
Qed.

(** X16: whom the listener talks to.  The credentials are posted once, in
    the first request.  Every later request is a [GET] without body to one
    of the three profile candidates, and it carries the text of the token
    that [pickToken] extracted from the answer to the login, as
    [Authorization: Bearer <token>]. *)
Theorem on_submit_requests_confined E w :
  ∃ w' evs,
    on_submit E w = (Ok tt, w')
    ∧ trace w' = trace (opened w) ++ EvFetch (login_request E) :: evs
    ∧ (EvFetch (login_request E) ∉ evs)
    ∧ (∀ r, EvFetch r ∈ evs →
         ∃ res data tok path,
           network E (trace (opened w)) (login_request E) = Some res
           ∧ json_body res = Some data
           ∧ to_string (pickToken data) = Ok tok
           ∧ path ∈ PROFILE_CANDIDATES
           ∧ r = {| req_method := "GET";
                    req_url := path;
                    req_headers := [("Authorization", "Bearer " +:+ tok);
                                    ("Accept", "application/json")];
                    req_body := None |}).
Proof.
  destruct (on_submit_summary E w)
    as [(pre & msg & post & Hrun & Hpre & Hpost)
       |(res & data & tok & Hnet & Hok & Hbody & Ht & Htok)].
  - destruct (reported_facts E w pre msg post) as (Htr & _).
    assert (∀ r, EvFetch r ∉ pre ++ shown w msg :: post) as Hnone.
    { intros r. rewrite elem_of_app, elem_of_cons. intros [Hin|[Heq|Hin]].
      - rewrite Forall_forall in Hpre. by apply Hpre in Hin.
      - unfold shown in Heq. by destruct (error_box w).
      - rewrite Forall_forall in Hpost. by apply Hpost in Hin. }
    eexists _, _. split; [exact Hrun|]. split; [exact Htr|]. split.
    + apply Hnone.
    + intros r Hr. by apply Hnone in Hr.
  - destruct (on_submit_success E w res data tok Hnet Hok Hbody Ht Htok)
      as (profile & n & w3 & warn & save2 & Hrun & Htr & Hwarn & Hsave & _).
    set (url := redirect_url tok (js_or profile (VObj []))) in *.
    set (evs := EvSetItem "jwt" tok :: warn
                ++ contacts tok (take n PROFILE_CANDIDATES)
                ++ save2 ++ [EvNavigate url]).
    assert (∀ r, EvFetch r ∈ evs →
                 ∃ path, path ∈ PROFILE_CANDIDATES
                         ∧ r = profile_request path tok) as Hin.
    { intros r. unfold evs.
      rewrite elem_of_cons, !elem_of_app, list_elem_of_singleton.
      intros [?|[Hr|[Hr|[Hr|?]]]]; try done.
      - rewrite Forall_forall in Hwarn. by apply Hwarn in Hr.
      - unfold contacts in Hr.
        apply list_elem_of_fmap in Hr as (path & [= ->] & Hp).
        exists path. split; [|done].
        rewrite <- (take_drop n PROFILE_CANDIDATES). apply elem_of_app.
        by left.
      - rewrite Forall_forall in Hsave. by apply Hsave in Hr as [?|?]. }
    exists (go url w3), evs. split; [exact Hrun|]. split.
    { world_simpl. rewrite Htr. unfold evs. rewrite <- app_assoc. cbn [app].
      by rewrite <- !app_assoc. }
    split.
    + intros Hl. by apply Hin in Hl as (path & _ & ?).
    + intros r Hr. apply Hin in Hr as (path & Hp & ->).
      by exists res, data, tok, path.
Qed.

(** X17: what the listener does to the storage, in every run: no entry is
    removed, and the entries other than [jwt] and [userdata] keep their
    values. *)
Theorem on_submit_storage_confined E w :
  ∃ w', on_submit E w = (Ok tt, w')
    ∧ (∀ k, is_Some (storage w !! k) → is_Some (storage w' !! k))
    ∧ (∀ k, k ≠ "jwt" → k ≠ "userdata" → storage w' !! k = storage w !! k).
Proof.
  destruct (on_submit_summary E w)
    as [(pre & msg & post & Hrun & _)
       |(res & data & tok & Hnet & Hok & Hbody & Ht & Htok)].
  - destruct (reported_facts E w pre msg post) as (_ & Hst & _).
    eexists. split; [exact Hrun|]. rewrite Hst. by split.
  - destruct (on_submit_success E w res data tok Hnet Hok Hbody Ht Htok)
      as (profile & n & w3 & warn & save2 & Hrun & _ & _ & _ & _ & _ & Hst).
    eexists. split; [exact Hrun|]. world_simpl. split.
    + intros k Hk.
      destruct (Hst k) as [->|[(_ & ->)|(_ & _ & text & -> & _)]];
        [done|by eexists..].
    + intros k Hj Hu. by destruct (Hst k) as [?|[(? & _)|(? & _)]].
Qed.

(** X18: a successful answer without a token.  When the authentication
    endpoint answers with a success status and a body that decodes, the
    body [null] included, but [pickToken] finds no truthy token in it, the
    listener shows the message about the missing token and stops: nothing
    is stored, no candidate is called and the page does not navigate. *)
Theorem on_submit_no_token E w res data :
  network E (trace (opened w)) (login_request E) = Some res →
  res_ok res = true →
  json_body res = Some data →
  truthy (pickToken data) = false →
  ∃ w', on_submit E w = (Ok tt, w')
    ∧ trace w' = trace (opened w)
                 ++ [EvFetch (login_request E);
                     shown w "No se recibió el token de acceso."]
    ∧ storage w' = storage w
    ∧ location w' = location w
    ∧ (is_Some (error_box w) →
       error_box w' = Some "No se recibió el token de acceso.").
Proof.
  intros Hnet Hok Hbody Ht. eexists.
  split; [by apply (on_submit_tokenless E w res data)|].
  destruct (reported_facts E w [] "No se recibió el token de acceso." [])
    as (Htr & Hst & Hloc & Hbox).
  split_and!; [done..|]. intros [old Hold]. by rewrite Hbox, Hold.
Qed.

Lemma on_submit_no_token_witness :
  truthy (pickToken VNull) = false
  ∧ ∃ w', on_submit
            (scripted_env alice [("/auth/login", answer 200 VNull)] false)
            world0 = (Ok tt, w')
          ∧ storage w' = ∅
          ∧ location w' = None
          ∧ error_box w' = Some "No se recibió el token de acceso.".
Proof.
  split; [reflexivity|].
  destruct (on_submit_no_token
              (scripted_env alice [("/auth/login", answer 200 VNull)] false)
              world0 (answer 200 VNull) VNull eq_refl eq_refl eq_refl eq_refl)
    as (w' & Hrun & _ & Hst & Hloc & Hbox).
  exists w'. split; [exact Hrun|]. split; [exact Hst|]. split; [exact Hloc|].
  apply Hbox. by eexists.
Defined.

(** X19: a rejection whose [detail] is truthy but not a string, such as the
    list of objects of a validation error, shows the text to which
    JavaScript converts that value, for a list of objects
    [[object Object]], and then stops like every rejection. *)
Theorem on_submit_rejected_detail_text E w res err s :
  network E (trace (opened w)) (login_request E) = Some res →
  res_ok res = false →
  json_body res = Some err →
  truthy (get_opt err "detail") = true →
  to_string (get_opt err "detail") = Ok s →
  ∃ w', on_submit E w = (Ok tt, w')
    ∧ trace w' = trace (opened w) ++ [EvFetch (login_request E); shown w s]
    ∧ storage w' = storage w
    ∧ location w' = location w
    ∧ (is_Some (error_box w) → error_box w' = Some s).
Proof.
  intros Hnet Hok Hbody Hd Hs.
  assert (rejection_message res = get_opt err "detail") as Hm.
  { unfold rejection_message, js_or. by rewrite Hbody, Hd. }
  exists (reported E w [] s []). split.
  - rewrite (on_submit_refused E w res) by done. by rewrite Hm, Hs.
  - destruct (reported_facts E w [] s []) as (Htr & Hst & Hloc & Hbox).
    split_and!; [done..|]. intros [old Hold]. by rewrite Hbox, Hold.
Qed.

Lemma on_submit_rejected_detail_text_witness :
  to_string (VArr [VObj [("msg", VStr "field required")]])
  = Ok "[object Object]"
  ∧ ∃ w', on_submit
            (scripted_env alice
               [("/auth/login",
                 answer 422
                   (VObj [("detail",
                           VArr [VObj [("msg", VStr "field required")]])]))]
               false)
            world0 = (Ok tt, w')
          ∧ error_box w' = Some "[object Object]".
Proof.
  split; [reflexivity|].
  destruct (on_submit_rejected_detail_text
              (scripted_env alice
                 [("/auth/login",
                   answer 422
                     (VObj [("detail",
                             VArr [VObj [("msg", VStr "field required")]])]))]
                 false)
              world0
              (answer 422
                 (VObj [("detail",
                         VArr [VObj [("msg", VStr "field required")]])]))
              (VObj [("detail", VArr [VObj [("msg", VStr "field required")]])])
              "[object Object]" eq_refl eq_refl eq_refl eq_refl eq_refl)
    as (w' & Hrun & _ & _ & _ & Hbox).
  exists w'. split; [exact Hrun|]. apply Hbox. by eexists.
Defined.

(** X20: a truthy token that cannot be converted to a string, such as an
    object with a [toString] entry of its own.  The persister logs a
    warning, the resolver calls no candidate, the redirect builder throws,
    and the listener ends in its [catch] clause: the connectivity message
    is shown, nothing is stored and the page does not navigate. *)
Theorem on_submit_unconvertible_token E w res data e :
  network E (trace (opened w)) (login_request E) = Some res →
  res_ok res = true →
  json_body res = Some data →
  truthy (pickToken data) = true →
  to_string (pickToken data) = Throw e →
  ∃ w', on_submit E w = (Ok tt, w')
    ∧ trace w' = trace (opened w)
                 ++ [EvFetch (login_request E);
                     EvConsoleWarn e;
                     shown w "No se pudo conectar con el servidor.";
                     EvConsoleError e]
    ∧ storage w' = storage w
    ∧ location w' = location w.
Proof.
  intros Hnet Hok Hbody Ht Htok. eexists.
  split; [by apply (on_submit_odd_token E w res data e)|].
  destruct (reported_facts E w [EvConsoleWarn e]
              "No se pudo conectar con el servidor." [EvConsoleError e])
    as (Htr & Hst & Hloc & _).
  by split_and!.
Qed.

Lemma on_submit_unconvertible_token_witness :
  to_string (pickToken (VObj [("jwt", VObj [("toString", VNull)])]))
  = Throw TypeError
  ∧ ∃ w', on_submit
            (scripted_env alice
               [("/auth/login",
                 answer 200 (VObj [("jwt", VObj [("toString", VNull)])]))]
               false)
            world0 = (Ok tt, w')
          ∧ storage w' = ∅
          ∧ location w' = None.
Proof.
  split; [reflexivity|].
  destruct (on_submit_unconvertible_token
              (scripted_env alice
                 [("/auth/login",
                   answer 200 (VObj [("jwt", VObj [("toString", VNull)])]))]
                 false)
              world0
              (answer 200 (VObj [("jwt", VObj [("toString", VNull)])]))
              (VObj [("jwt", VObj [("toString", VNull)])]) TypeError
              eq_refl eq_refl eq_refl eq_refl eq_refl)
    as (w' & Hrun & _ & Hst & Hloc).
  exists w'. split; [exact Hrun|]. split; [exact Hst|exact Hloc].
Defined.

(** X21: the profile that a successful login stores is the profile that it
    hands over.  The page navigates to the destination with a query string
    whose one parameter [userdata] is a JSON text, and the entry [userdata]
    of the storage is then that same text, unless the storage kept the
    entry that it had. *)
Theorem on_submit_stores_the_userdata_it_sends E w res data tok :
  network E (trace (opened w)) (login_request E) = Some res →
  res_ok res = true →
  json_body res = Some data →
  truthy (pickToken data) = true →
  to_string (pickToken data) = Ok tok →
  ∃ w' qs userdata,
    on_submit E w = (Ok tt, w')
    ∧ location w' = Some (FRONT_REDIRECT +:+ "?" +:+ qs)
    ∧ filter (λ kv, kv.1 = "userdata") (URL.parse qs)
      = [("userdata", userdata)]
    ∧ JSON.is_json userdata = true
    ∧ (storage w' !! "userdata" = storage w !! "userdata"
       ∨ storage w' !! "userdata" = Some userdata).
Proof.
  intros Hnet Hok Hbody Ht Htok.
  destruct (on_submit_success E w res data tok Hnet Hok Hbody Ht Htok)
    as (profile & n & w3 & warn & save2 & Hrun & _ & _ & _ & _ & _ & Hst).
  exists (go (redirect_url tok (js_or profile (VObj []))) w3),
         (URL.serialize
            [("jwt", tok); ("browser_url", BROWSER_URL);
             ("userdata", userdata_text (js_or profile (VObj [])))]),
         (userdata_text (js_or profile (VObj []))).
  split; [exact Hrun|]. split; [reflexivity|]. split.
  { rewrite parse_serialize. reflexivity. }
  split; [apply userdata_text_json|]. world_simpl.
  destruct (Hst "userdata") as [?|[(? & _)|(_ & Hp & text & -> & Hs)]];
    [by left|done|right].
  unfold js_or. rewrite Hp. unfold userdata_text, js_coalesce.
  assert (nullish profile = false) as -> by by destruct profile.
  destruct (stringify_result _ _ Hs) as [[-> _]|(s' & -> & [= ->])]; done.
Qed.

Lemma on_submit_stores_the_userdata_it_sends_witness :
  ∃ w' qs userdata,
    on_submit env_profile world0 = (Ok tt, w')
    ∧ location w' = Some (FRONT_REDIRECT +:+ "?" +:+ qs)
    ∧ filter (λ kv, kv.1 = "userdata") (URL.parse qs)
      = [("userdata", userdata)]
    ∧ JSON.is_json userdata = true
    ∧ (storage w' !! "userdata" = storage world0 !! "userdata"
       ∨ storage w' !! "userdata" = Some userdata).
Proof.
  exact (on_submit_stores_the_userdata_it_sends env_profile world0
           (answer 200 (VObj [("jwt", VStr "T2")]))
           (VObj [("jwt", VStr "T2")]) "T2"
           eq_refl eq_refl eq_refl eq_refl eq_refl).
Defined.
